(** * ZeePass chat service: a shallow embedding of [internal/services/chat.go]

    The development follows the Go source function by function.  Go values
    are modelled as follows.

    - [string] and [[]byte] are Rocq byte strings ([string]); [len] is
      [String.length].
    - [int] and [int64] are [Z]; where the source adds two integers the
      64-bit wrap-around is written out ([wrap64]).
    - [time.Time] is the wall-clock instant in nanoseconds since the Unix
      epoch, [time.Duration] a number of nanoseconds.
    - pointers ([*Client], [*ChatRoom]) are references into explicit heaps,
      so that aliasing between the registry and a client's [Room] field is
      kept.
    - Go maps are [gmap]s, [map[*Client]bool] (only ever [true]) is a
      [gset] of client references.
    - a buffered channel is its queue and a closed flag; sending on or
      closing a closed channel panics, as in Go.
    - [time.Now()], the Redis server and [encoding/json] are outside the
      program: they are the fields of a [World] that every operation is
      parameterised by. *)

From Stdlib Require Import ZArith Lia List Ascii String.
From stdpp Require Import gmap strings list fin_maps.

Open Scope Z_scope.

(** ** Integers, instants and durations *)

Definition wrap64 (z : Z) : Z := (z + 2 ^ 63) mod 2 ^ 64 - 2 ^ 63.

Definition maxInt64 : Z := 2 ^ 63 - 1.
Definition minInt64 : Z := - 2 ^ 63.

(** func min(a, b int) int *)
Definition min_int (a b : Z) : Z := if a <? b then a else b.

Definition Time := Z.
Definition Duration := Z.

Definition Nanosecond : Duration := 1.
Definition Second : Duration := 1000000000.
Definition Minute : Duration := 60 * Second.
Definition Hour : Duration := 60 * Minute.

(** [t.Sub(u)]: the difference, saturated to the range of [Duration]. *)
Definition Time_Sub (t u : Time) : Duration :=
  let d := t - u in
  if d <? minInt64 then minInt64
  else if maxInt64 <? d then maxInt64
  else d.

Definition Time_Add (t : Time) (d : Duration) : Time := t + d.

Definition Time_After (t u : Time) : bool := u <? t.

(** [t.Unix()]: whole seconds since the epoch. *)
Definition Time_Unix (t : Time) : Z := t / Second.

(** [t.UnixNano()]: an [int64]. *)
Definition Time_UnixNano (t : Time) : Z := wrap64 t.

(** [int(d.Minutes())].  [Minutes] is the [float64]
    [float64(d / Minute) + float64(d % Minute) / 6e10] and the conversion
    truncates towards zero.  For a duration shorter than 2^18 minutes the
    sum is too far below the next integer to be rounded up to it, and the
    result is the quotient below.  For a longer duration the float can be
    one more than the quotient; where the result is used, under [min_int]
    with a bucket capacity of at most 2^18 and a token count that is not
    negative, both give the capacity. *)
Definition Duration_Minutes_int (d : Duration) : Z := Z.quot d Minute.

(** *** [Format("20060102150405")] *)

Definition digit (d : Z) : ascii := ascii_of_nat (48 + Z.to_nat (d mod 10)).

Fixpoint digits (width : nat) (n : Z) (acc : string) : string :=
  match width with
  | O => acc
  | S w => digits w (n / 10) (String (digit n) acc)
  end.

Definition pad (width : nat) (n : Z) : string := digits width n "".

(** Proleptic Gregorian date of a day number counted from 1970-01-01. *)
Definition civil_from_days (z : Z) : Z * Z * Z :=
  let z := z + 719468 in
  let era := z / 146097 in
  let doe := z - era * 146097 in
  let yoe := (doe - doe / 1460 + doe / 36524 - doe / 146096) / 365 in
  let doy := doe - (365 * yoe + yoe / 4 - yoe / 100) in
  let mp := (5 * doy + 2) / 153 in
  let d := doy - (153 * mp + 2) / 5 + 1 in
  let m := if mp <? 10 then mp + 3 else mp - 9 in
  let y := yoe + era * 400 in
  (if m <=? 2 then y + 1 else y, m, d).

(** The layout yyyymmddHHMMSS, in UTC, for years 0 to 9999. *)
Definition Format_20060102150405 (t : Time) : string :=
  let secs := Time_Unix t in
  let '(y, m, d) := civil_from_days (secs / 86400) in
  let sod := secs mod 86400 in
  (pad 4 y ++ pad 2 m ++ pad 2 d ++
   pad 2 (sod / 3600) ++ pad 2 (sod / 60 mod 60) ++ pad 2 (sod mod 60))%string.

(** ** Data model *)

Record EncryptedMessage := mkEncryptedMessage {
  Type_ : string;
  Room : string;
  User : string;
  Encrypted : string;
  IV : string;
  Timestamp : Time;
  MessageID : string;
  ExpiresAt : Time;
  Size : Z;
}.

Record MessageConfig := mkMessageConfig {
  MaxMessageSize : Z;
  MessageExpiration : Duration;
  RateLimit : Z;
  MaxRoomMessages : Z;
}.

Definition messageConfig : MessageConfig := {|
  MaxMessageSize := 4096;
  MessageExpiration := 24 * Hour;
  RateLimit := 30;
  MaxRoomMessages := 1000;
|}.

Record RateLimiter := mkRateLimiter {
  tokens : Z;
  capacity : Z;
  lastRefill : Time;
}.

Definition ClientRef := nat.
Definition RoomRef := nat.

Record ChatRoom := mkChatRoom {
  ID : string;
  Name : string;
  Clients : gset nat;
  Messages : list EncryptedMessage;
  CreatedAt : Time;
}.

(** [chan []byte] with capacity 256 *)
Record Chan := mkChan {
  queue : list string;
  closed : bool;
}.

Definition Send_capacity : nat := 256.

Record Client := mkClient {
  client_Room : option RoomRef;
  UserID : string;
  UserName : string;
  Send : Chan;
}.

(** ** The durable tier: a Redis server

    Two key spaces are used by the program, string keys ["msg:<room>:<id>"]
    and sorted-set keys ["room:<room>:messages"]; they never coincide, so
    the server is two maps.  Every key carries the instant at which it
    expires.  A sorted set is kept in ascending order of score, elements of
    equal score in ascending byte order of the member, and a member occurs
    once. *)

Record Redis := mkRedis {
  rstrings : gmap string (string * Time);
  rzsets : gmap string (list (Z * string) * option Time);
}.

Inductive Reply (A : Type) : Type :=
| ROk (a : A)
| RNil
| RErr.
Arguments ROk {A} a.
Arguments RNil {A}.
Arguments RErr {A}.

Definition zless (a b : Z * string) : bool :=
  (a.1 <? b.1) || ((a.1 =? b.1) && String.ltb a.2 b.2).

Fixpoint zinsert (e : Z * string) (l : list (Z * string)) : list (Z * string) :=
  match l with
  | [] => [e]
  | x :: l' => if zless e x then e :: l else x :: zinsert e l'
  end.

Definition zremove (member : string) (l : list (Z * string)) : list (Z * string) :=
  List.filter (fun x => negb (String.eqb x.2 member)) l.

(** Index normalisation of ZRANGE, ZREVRANGE and ZREMRANGEBYRANK: negative
    indices count from the end, the result is the inclusive range kept. *)
Definition zrange_idx (n start stop : Z) : option (Z * Z) :=
  let start := if start <? 0 then n + start else start in
  let stop := if stop <? 0 then n + stop else stop in
  let start := if start <? 0 then 0 else start in
  if (stop <? start) || (n <=? start) then None
  else Some (start, if n <=? stop then n - 1 else stop).

Definition slice {A} (l : list A) (start stop : Z) : list A :=
  match zrange_idx (Z.of_nat (length l)) start stop with
  | None => []
  | Some (a, b) => take (Z.to_nat (b - a + 1)) (drop (Z.to_nat a) l)
  end.

Definition unslice {A} (l : list A) (start stop : Z) : list A :=
  match zrange_idx (Z.of_nat (length l)) start stop with
  | None => l
  | Some (a, b) => take (Z.to_nat a) l ++ drop (Z.to_nat (b + 1)) l
  end.

Definition live {A} (now : Time) (deadline : option Time) (v : A) : option A :=
  match deadline with
  | Some d => if now <? d then Some v else None
  | None => Some v
  end.

Definition zset_at (now : Time) (key : string) (r : Redis) : list (Z * string) * option Time :=
  match rzsets r !! key with
  | Some (l, d) => match live now d l with Some l => (l, d) | None => ([], None) end
  | None => ([], None)
  end.

Definition redis_SET (key value : string) (ttl : Duration) (now : Time) (r : Redis)
  : Reply unit * Redis :=
  (ROk tt, mkRedis (<[key := (value, now + ttl)]> (rstrings r)) (rzsets r)).

Definition redis_GET (key : string) (now : Time) (r : Redis) : Reply string * Redis :=
  match rstrings r !! key with
  | Some (v, d) => if now <? d then (ROk v, r) else (RNil, r)
  | None => (RNil, r)
  end.

Definition redis_ZADD (key : string) (score : Z) (member : string) (now : Time) (r : Redis)
  : Reply unit * Redis :=
  let '(l, d) := zset_at now key r in
  (ROk tt, mkRedis (rstrings r) (<[key := (zinsert (score, member) (zremove member l), d)]> (rzsets r))).

Definition redis_EXPIRE (key : string) (ttl : Duration) (now : Time) (r : Redis)
  : Reply unit * Redis :=
  match zset_at now key r with
  | ([], _) => (ROk tt, r)
  | (l, _) => (ROk tt, mkRedis (rstrings r) (<[key := (l, Some (now + ttl))]> (rzsets r)))
  end.

Definition redis_ZREMRANGEBYRANK (key : string) (start stop : Z) (now : Time) (r : Redis)
  : Reply unit * Redis :=
  let '(l, d) := zset_at now key r in
  match unslice l start stop with
  | [] => (ROk tt, mkRedis (rstrings r) (delete key (rzsets r)))
  | l' => (ROk tt, mkRedis (rstrings r) (<[key := (l', d)]> (rzsets r)))
  end.

Definition redis_ZREVRANGE (key : string) (start stop : Z) (now : Time) (r : Redis)
  : Reply (list string) * Redis :=
  let '(l, _) := zset_at now key r in
  (ROk (slice (rev l).*2 start stop), r).

(** ** The world outside the program *)

Record World := mkWorld {
  clock : nat -> Time;                 (* the n-th reading of time.Now() *)
  redis_fail : nat -> bool;            (* does the n-th Redis command fail? *)
  redis_clock : nat -> Time;           (* server time at the n-th command *)
  json_Marshal : EncryptedMessage -> option string;
  json_Unmarshal : string -> option EncryptedMessage;
}.

(** ** Program state *)

Inductive LogEntry :=
| LogCreatedRoom (name id : string)
| LogJoined (userName userID roomID : string)
| LogLeft (userName roomID : string)
| LogDeletedEmptyRoom (roomID : string)
| LogRedisStoreFailed
| LogMarshalError
| LogRedisGetFailed
| LogGetMessageError (messageID : string)
| LogUnmarshalError (messageID : string)
| LogCleanedRoom (roomID : string).

Record State := mkState {
  rooms : gmap string nat;                  (* cs.rooms, to room objects *)
  redisClient : option Redis;               (* nil, or the server behind the client *)
  rateLimiter : gmap string RateLimiter;    (* cs.rateLimiter *)
  room_heap : gmap nat ChatRoom;            (* the ChatRoom objects allocated *)
  client_heap : gmap nat Client;            (* the Client objects allocated *)
  spawned : list (nat * nat);               (* goroutines started, not yet run *)
  log : list LogEntry;
  now_reads : nat;                          (* readings of the clock taken *)
  redis_calls : nat;                        (* Redis commands issued *)
}.

Inductive error :=
| ErrRateLimit                     (* "rate limit exceeded" *)
| ErrTooLarge (len max : Z)        (* "message too large: %d bytes (max: %d)" *)
| ErrMarshalFailed                 (* "failed to marshal message" *)
| ErrJSON                          (* an error of json.Marshal *)
| ErrRedis.                        (* an error of a Redis command *)

Inductive Outcome (A : Type) : Type :=
| Done (a : A) (s : State)
| Panic.
Arguments Done {A} a s.
Arguments Panic {A}.

Definition M (A : Type) : Type := State -> Outcome A.

Definition ret {A} (a : A) : M A := fun s => Done a s.

Definition bind {A B} (m : M A) (k : A -> M B) : M B :=
  fun s => match m s with
           | Done a s' => k a s'
           | Panic => Panic
           end.

Definition panic {A} : M A := fun _ => Panic.
Definition get : M State := fun s => Done s s.
Definition modify (f : State -> State) : M unit := fun s => Done tt (f s).

Notation "'do' x <- m ; k" := (bind m (fun x => k))
  (at level 10, x pattern, m at level 100, k at level 200).
Notation "m ;; k" := (bind m (fun _ => k))
  (at level 100, k at level 200, right associativity).

Definition when (b : bool) (m : M unit) : M unit := if b then m else ret tt.

Definition set_rooms (f : gmap string nat -> gmap string nat) (s : State) : State :=
  mkState (f (rooms s)) (redisClient s) (rateLimiter s) (room_heap s)
          (client_heap s) (spawned s) (log s) (now_reads s) (redis_calls s).
Definition set_redisClient (r : option Redis) (s : State) : State :=
  mkState (rooms s) r (rateLimiter s) (room_heap s)
          (client_heap s) (spawned s) (log s) (now_reads s) (redis_calls s).
Definition set_rateLimiter (f : gmap string RateLimiter -> gmap string RateLimiter)
  (s : State) : State :=
  mkState (rooms s) (redisClient s) (f (rateLimiter s)) (room_heap s)
          (client_heap s) (spawned s) (log s) (now_reads s) (redis_calls s).
Definition set_room_heap (f : gmap nat ChatRoom -> gmap nat ChatRoom) (s : State) : State :=
  mkState (rooms s) (redisClient s) (rateLimiter s) (f (room_heap s))
          (client_heap s) (spawned s) (log s) (now_reads s) (redis_calls s).
Definition set_client_heap (f : gmap nat Client -> gmap nat Client) (s : State) : State :=
  mkState (rooms s) (redisClient s) (rateLimiter s) (room_heap s)
          (f (client_heap s)) (spawned s) (log s) (now_reads s) (redis_calls s).
Definition set_spawned (f : list (nat * nat) -> list (nat * nat)) (s : State) : State :=
  mkState (rooms s) (redisClient s) (rateLimiter s) (room_heap s)
          (client_heap s) (f (spawned s)) (log s) (now_reads s) (redis_calls s).
Definition set_log (f : list LogEntry -> list LogEntry) (s : State) : State :=
  mkState (rooms s) (redisClient s) (rateLimiter s) (room_heap s)
          (client_heap s) (spawned s) (f (log s)) (now_reads s) (redis_calls s).
Definition set_now_reads (n : nat) (s : State) : State :=
  mkState (rooms s) (redisClient s) (rateLimiter s) (room_heap s)
          (client_heap s) (spawned s) (log s) n (redis_calls s).
Definition set_redis_calls (n : nat) (s : State) : State :=
  mkState (rooms s) (redisClient s) (rateLimiter s) (room_heap s)
          (client_heap s) (spawned s) (log s) (now_reads s) n.

(** The state of [init()]: no room, no limiter, no Redis client. *)
Definition init : State := mkState ∅ None ∅ ∅ ∅ [] [] 0 0.

(** ** The operations of the service *)

Section Service.

Variable W : World.

(** [time.Now()] *)
Definition time_Now : M Time := fun s =>
  Done (clock W (now_reads s)) (set_now_reads (S (now_reads s)) s).

(** [log.Printf] *)
Definition log_Printf (e : LogEntry) : M unit :=
  modify (set_log (fun l => l ++ [e])).

(** [SetRedisClient]: the client of a server whose content is [r]. *)
Definition SetRedisClient (r : Redis) : M unit :=
  modify (set_redisClient (Some r)).

(** One command sent through [cs.redisClient]; a command that fails has
    no effect on the server. *)
Definition redis_cmd {A} (f : Time -> Redis -> Reply A * Redis) : M (Reply A) := fun s =>
  match redisClient s with
  | None => Panic
  | Some r =>
      let n := redis_calls s in
      if redis_fail W n then Done RErr (set_redis_calls (S n) s)
      else let '(rep, r') := f (redis_clock W n) r in
           Done rep (set_redis_calls (S n) (set_redisClient (Some r') s))
  end.

Definition get_room (room : nat) : M ChatRoom := fun s =>
  match room_heap s !! room with
  | Some r => Done r s
  | None => Panic
  end.

Definition update_room (room : nat) (f : ChatRoom -> ChatRoom) : M unit :=
  do r <- get_room room;
  modify (set_room_heap <[room := f r]>).

Definition get_client (client : nat) : M Client := fun s =>
  match client_heap s !! client with
  | Some c => Done c s
  | None => Panic
  end.

Definition update_client (client : nat) (f : Client -> Client) : M unit :=
  do c <- get_client client;
  modify (set_client_heap <[client := f c]>).

(** *** Channels *)

(** [select { case ch <- data: default: }]: [true] when the frame was
    queued, [false] when the default branch ran. *)
Definition chan_try_send (data : string) (ch : Chan) : option (bool * Chan) :=
  if closed ch then None
  else if (length (queue ch) <? Send_capacity)%nat
       then Some (true, mkChan (queue ch ++ [data]) false)
       else Some (false, ch).

(** [close(ch)] *)
Definition chan_close (ch : Chan) : option Chan :=
  if closed ch then None else Some (mkChan (queue ch) true).

Definition set_Send (ch : Chan) (c : Client) : Client :=
  mkClient (client_Room c) (UserID c) (UserName c) ch.

Definition try_send (client : nat) (data : string) : M bool :=
  do c <- get_client client;
  match chan_try_send data (Send c) with
  | None => panic
  | Some (sent, ch) => update_client client (set_Send ch);; ret sent
  end.

Definition close_Send (client : nat) : M unit :=
  do c <- get_client client;
  match chan_close (Send c) with
  | None => panic
  | Some ch => update_client client (set_Send ch)
  end.

(** [&Client{Conn: conn, Send: make(chan []byte, 256)}] *)
Definition NewClient : M nat := fun s =>
  let c := fresh (dom (client_heap s)) in
  Done c (set_client_heap <[c := mkClient None "" "" (mkChan [] false)]> s).

(** *** Identifiers *)

Definition charset : string :=
  "abcdefghijklmnopqrstuvwxyzABCDEFGHIJKLMNOPQRSTUVWXYZ0123456789".

(** [charset[i]], with the bounds check of Go *)
Definition charset_at (i : Z) : M ascii :=
  if i <? 0 then panic
  else match String.get (Z.to_nat i) charset with
       | Some c => ret c
       | None => panic
       end.

Fixpoint generateRandomString (length : nat) : M string :=
  match length with
  | O => ret EmptyString
  | S n =>
      do now <- time_Now;
      do c <- charset_at (Z.rem (Time_UnixNano now) (Z.of_nat (String.length charset)));
      do rest <- generateRandomString n;
      ret (String c rest)
  end.

Definition generateMessageID : M string :=
  do now <- time_Now;
  do suffix <- generateRandomString 6;
  ret (Format_20060102150405 now ++ "-" ++ suffix)%string.

Definition generateUserID : M string :=
  do suffix <- generateRandomString 8;
  ret ("user-" ++ suffix)%string.

(** *** Rate limiting *)

(** The body of [allow] once the clock has been read. *)
Definition allow_at (now : Time) (rl : RateLimiter) : bool * RateLimiter :=
  let elapsed := Time_Sub now (lastRefill rl) in
  let tokensToAdd := Duration_Minutes_int elapsed in
  let rl :=
    if 0 <? tokensToAdd
    then mkRateLimiter (min_int (capacity rl) (wrap64 (tokens rl + tokensToAdd)))
                       (capacity rl) now
    else rl in
  if 0 <? tokens rl
  then (true, mkRateLimiter (wrap64 (tokens rl - 1)) (capacity rl) (lastRefill rl))
  else (false, rl).

(** [limiter.allow()], the limiter being the one stored for [userID] *)
Definition allow (userID : string) : M bool :=
  do s <- get;
  match rateLimiter s !! userID with
  | None => panic
  | Some rl =>
      do now <- time_Now;
      let '(ok, rl') := allow_at now rl in
      modify (set_rateLimiter <[userID := rl']>);;
      ret ok
  end.

Definition checkRateLimit (userID : string) : M bool :=
  do s <- get;
  match rateLimiter s !! userID with
  | Some _ => ret tt
  | None =>
      do now <- time_Now;
      modify (set_rateLimiter
                <[userID := mkRateLimiter (RateLimit messageConfig)
                                          (RateLimit messageConfig) now]>)
  end;;
  allow userID.

(** *** Redis storage functions *)

Definition messageKey (roomID messageID : string) : string :=
  ("msg:" ++ roomID ++ ":" ++ messageID)%string.

Definition roomKey (roomID : string) : string :=
  ("room:" ++ roomID ++ ":messages")%string.

Definition is_RErr {A} (r : Reply A) : bool :=
  match r with RErr => true | _ => false end.

Definition storeMessageInRedis (message : EncryptedMessage) : M (option error) :=
  match json_Marshal W message with
  | None => ret (Some ErrJSON)
  | Some messageData =>
      do r1 <- redis_cmd (redis_SET (messageKey (Room message) (MessageID message))
                                    messageData (MessageExpiration messageConfig));
      if is_RErr r1 then ret (Some ErrRedis) else
      let score := Time_Unix (Timestamp message) in
      do r2 <- redis_cmd (redis_ZADD (roomKey (Room message)) score (MessageID message));
      if is_RErr r2 then ret (Some ErrRedis) else
      redis_cmd (redis_EXPIRE (roomKey (Room message)) (MessageExpiration messageConfig));;
      redis_cmd (redis_ZREMRANGEBYRANK (roomKey (Room message)) 0
                                       (- MaxRoomMessages messageConfig - 1));;
      ret None
  end.

(** The loop of [getMessagesFromRedis] over the ids read from the index. *)
Fixpoint getMessagesFromRedis_loop (roomID : string) (messageIDs : list string)
    (messages : list EncryptedMessage) : M (list EncryptedMessage) :=
  match messageIDs with
  | [] => ret messages
  | messageID :: rest =>
      do rep <- redis_cmd (redis_GET (messageKey roomID messageID));
      match rep with
      | RNil => getMessagesFromRedis_loop roomID rest messages
      | RErr =>
          log_Printf (LogGetMessageError messageID);;
          getMessagesFromRedis_loop roomID rest messages
      | ROk messageData =>
          match json_Unmarshal W messageData with
          | None =>
              log_Printf (LogUnmarshalError messageID);;
              getMessagesFromRedis_loop roomID rest messages
          | Some message =>
              getMessagesFromRedis_loop roomID rest (messages ++ [message])
          end
      end
  end.

Definition getMessagesFromRedis (roomID : string) (limit : Z)
  : M (list EncryptedMessage + error) :=
  do rep <- redis_cmd (redis_ZREVRANGE (roomKey roomID) 0 (limit - 1));
  match rep with
  | ROk messageIDs =>
      do messages <- getMessagesFromRedis_loop roomID messageIDs [];
      ret (inl (rev messages))
  | _ => ret (inr ErrRedis)
  end.

(** *** Notifications *)

(** The zero [time.Time], 1 January of year 1. *)
Definition Time_zero : Time := -62135596800 * Second.

(** [messageData, _ := json.Marshal(m)]: the error is dropped and the
    data is then nil. *)
Definition marshal_or_nil (m : EncryptedMessage) : string :=
  match json_Marshal W m with
  | Some data => data
  | None => EmptyString
  end.

(** [for client := range room.Clients { select { case client.Send <- data: default: } }] *)
Fixpoint notify (clients : list nat) (data : string) : M unit :=
  match clients with
  | [] => ret tt
  | client :: rest => try_send client data;; notify rest data
  end.

Definition broadcastUserJoined (room : nat) (userName : string) : M unit :=
  do r <- get_room room;
  do now <- time_Now;
  let notification :=
    mkEncryptedMessage "user_joined" (ID r) "system" "" "" now "" Time_zero 0 in
  notify (elements (Clients r)) (marshal_or_nil notification).

Definition broadcastUserLeft (room : nat) (userName : string) : M unit :=
  do r <- get_room room;
  do now <- time_Now;
  let notification :=
    mkEncryptedMessage "user_left" (ID r) "system" "" "" now "" Time_zero 0 in
  notify (elements (Clients r)) (marshal_or_nil notification).

(** *** Rooms *)

Definition set_Clients (f : gset nat -> gset nat) (r : ChatRoom) : ChatRoom :=
  mkChatRoom (ID r) (Name r) (f (Clients r)) (Messages r) (CreatedAt r).

Definition set_Messages (f : list EncryptedMessage -> list EncryptedMessage)
    (r : ChatRoom) : ChatRoom :=
  mkChatRoom (ID r) (Name r) (Clients r) (f (Messages r)) (CreatedAt r).

Definition CreateRoom (roomID roomName : string) : M nat :=
  do now <- time_Now;
  do s <- get;
  let room := fresh (dom (room_heap s)) in
  modify (set_room_heap <[room := mkChatRoom roomID roomName ∅ [] now]>);;
  modify (set_rooms <[roomID := room]>);;
  log_Printf (LogCreatedRoom roomName roomID);;
  ret room.

Definition GetRoom (roomID : string) : M (option nat) :=
  do s <- get; ret (rooms s !! roomID).

Definition JoinRoom (client : nat) (roomID userID userName : string) : M (option error) :=
  do s <- get;
  do room <- match rooms s !! roomID with
             | Some room => ret room
             | None => CreateRoom roomID "Chat Room"
             end;
  get_room room;;
  update_client client (fun c => mkClient (Some room) userID userName (Send c));;
  update_room room (set_Clients (fun cl => {[client]} ∪ cl));;
  log_Printf (LogJoined userName userID roomID);;
  (* go cs.sendRecentMessages(client, room) *)
  modify (set_spawned (fun l => l ++ [(client, room)]));;
  broadcastUserJoined room userName;;
  ret None.

Definition LeaveRoom (client : nat) : M unit :=
  do c <- get_client client;
  match client_Room c with
  | None => ret tt
  | Some room =>
      do r <- get_room room;
      if bool_decide (client ∈ Clients r) then
        update_room room (set_Clients (fun cl => cl ∖ {[client]}));;
        close_Send client;;
        log_Printf (LogLeft (UserName c) (ID r));;
        broadcastUserLeft room (UserName c);;
        do r <- get_room room;
        when (bool_decide (size (Clients r) = 0%nat))
             (modify (set_rooms (delete (ID r)));;
              log_Printf (LogDeletedEmptyRoom (ID r)))
      else ret tt
  end.

(** *** Sending *)

(** The fan-out loop of [BroadcastMessage]. *)
Fixpoint fanout (room : nat) (clients : list nat) (messageData : string) : M unit :=
  match clients with
  | [] => ret tt
  | client :: rest =>
      do sent <- try_send client messageData;
      when (negb sent)
           (update_room room (set_Clients (fun cl => cl ∖ {[client]}));;
            close_Send client);;
      fanout room rest messageData
  end.

Definition BroadcastMessage (room : nat) (message : EncryptedMessage) (userID : string)
  : M (option error) :=
  do allowed <- checkRateLimit userID;
  if negb allowed then ret (Some ErrRateLimit) else
  let len := Z.of_nat (String.length (Encrypted message)) in
  if MaxMessageSize messageConfig <? len
  then ret (Some (ErrTooLarge len (MaxMessageSize messageConfig))) else
  get_room room;;
  do messageID <- generateMessageID;
  do timestamp <- time_Now;
  do now <- time_Now;
  let message :=
    mkEncryptedMessage (Type_ message) (Room message) (User message)
      (Encrypted message) (IV message) timestamp messageID
      (Time_Add now (MessageExpiration messageConfig)) len in
  do s <- get;
  match redisClient s with
  | Some _ =>
      do err <- storeMessageInRedis message;
      match err with
      | Some _ => log_Printf LogRedisStoreFailed
      | None => ret tt
      end
  | None => ret tt
  end;;
  update_room room (set_Messages (fun l => l ++ [message]));;
  update_room room (set_Messages (fun l =>
    if (100 <? length l)%nat then drop (length l - 100) l else l));;
  match json_Marshal W message with
  | None => log_Printf LogMarshalError;; ret (Some ErrMarshalFailed)
  | Some messageData =>
      do r <- get_room room;
      fanout room (elements (Clients r)) messageData;;
      ret None
  end.

(** *** History replay *)

(** The first half of [sendRecentMessages]: which messages are replayed.
    The source fixes [limit] to 50. *)
Definition recentMessages (limit : nat) (room : nat) : M (list EncryptedMessage) :=
  do r <- get_room room;
  do s <- get;
  do messages <-
    match redisClient s with
    | Some _ =>
        do res <- getMessagesFromRedis (ID r) (Z.of_nat limit);
        match res with
        | inr _ => log_Printf LogRedisGetFailed;; ret []
        | inl redisMessages => ret redisMessages
        end
    | None => ret []
    end;
  if bool_decide (length messages = 0%nat) then
    do r <- get_room room;
    let messages := Messages r in
    let start := if (limit <? length messages)%nat
                 then (length messages - limit)%nat else 0%nat in
    ret (drop start messages)
  else ret messages.

(** The second half: the delivery loop; it stops at the first full queue. *)
Fixpoint deliver (client : nat) (messages : list EncryptedMessage) : M unit :=
  match messages with
  | [] => ret tt
  | message :: rest =>
      do now <- time_Now;
      if Time_After now (ExpiresAt message) then deliver client rest else
      match json_Marshal W message with
      | None => deliver client rest
      | Some messageData =>
          do sent <- try_send client messageData;
          if sent then deliver client rest else ret tt
      end
  end.

Definition sendRecentMessages (client room : nat) : M unit :=
  do messages <- recentMessages 50 room;
  deliver client messages.

(** *** The idle-room sweep: one tick of [cleanupRoutine] *)

Fixpoint cleanup_loop (entries : list (string * nat)) : M unit :=
  match entries with
  | [] => ret tt
  | (roomID, room) :: rest =>
      do r <- get_room room;
      let isEmpty := bool_decide (size (Clients r) = 0%nat) in
      do now <- time_Now;
      let isOld := 24 * Hour <? Time_Sub now (CreatedAt r) in
      when (isEmpty && isOld)
           (modify (set_rooms (delete roomID));;
            log_Printf (LogCleanedRoom roomID));;
      cleanup_loop rest
  end.

Definition cleanup_tick : M unit :=
  do s <- get;
  cleanup_loop (map_to_list (rooms s)).

End Service.

(** ** A codec to run the model with

    [encoding/json] is a parameter of the model.  To evaluate the
    operations on concrete inputs a codec is needed; this one writes every
    field with a fixed-width decimal header (length for a string, sign and
    magnitude for a number). *)

Definition wire_num (z : Z) : string :=
  String (if z <? 0 then "-"%char else "+"%char) (pad 20 (Z.abs z)).

Definition wire_str (s : string) : string :=
  (wire_num (Z.of_nat (String.length s)) ++ s)%string.

Fixpoint split_at (n : nat) (s : string) : option (string * string) :=
  match n, s with
  | O, _ => Some (EmptyString, s)
  | S n, String c s => match split_at n s with
                       | Some (a, b) => Some (String c a, b)
                       | None => None
                       end
  | S _, EmptyString => None
  end.

Fixpoint read_digits (s : string) (acc : Z) : option Z :=
  match s with
  | EmptyString => Some acc
  | String c s =>
      let d := Z.of_nat (nat_of_ascii c) - 48 in
      if (0 <=? d) && (d <=? 9) then read_digits s (10 * acc + d) else None
  end.

Definition read_num (s : string) : option (Z * string) :=
  match s with
  | String sign s =>
      match split_at 20 s with
      | Some (ds, rest) =>
          match read_digits ds 0 with
          | Some n =>
              if Ascii.eqb sign "-"%char then Some (- n, rest)
              else if Ascii.eqb sign "+"%char then Some (n, rest) else None
          | None => None
          end
      | None => None
      end
  | EmptyString => None
  end.

Definition read_str (s : string) : option (string * string) :=
  match read_num s with
  | Some (n, rest) => if n <? 0 then None else split_at (Z.to_nat n) rest
  | None => None
  end.

Definition wire_Marshal (m : EncryptedMessage) : option string :=
  Some (wire_str (Type_ m) ++ wire_str (Room m) ++ wire_str (User m) ++
        wire_str (Encrypted m) ++ wire_str (IV m) ++ wire_num (Timestamp m) ++
        wire_str (MessageID m) ++ wire_num (ExpiresAt m) ++ wire_num (Size m))%string.

Definition wire_Unmarshal (s : string) : option EncryptedMessage :=
  match read_str s with None => None | Some (ty, s) =>
  match read_str s with None => None | Some (room, s) =>
  match read_str s with None => None | Some (user, s) =>
  match read_str s with None => None | Some (enc, s) =>
  match read_str s with None => None | Some (iv, s) =>
  match read_num s with None => None | Some (ts, s) =>
  match read_str s with None => None | Some (id, s) =>
  match read_num s with None => None | Some (ex, s) =>
  match read_num s with None => None | Some (size, s) =>
  match s with
  | EmptyString => Some (mkEncryptedMessage ty room user enc iv ts id ex size)
  | _ => None
  end end end end end end end end end end.

(** ** Definitions used to state the properties *)

(** The token bucket in the words of the specification: add
    floor(elapsed minutes) tokens capped at the capacity, then allow and
    decrement if at least one token is there. *)
Definition bucket_step (elapsed : Duration) (cap toks : Z) : bool * Z :=
  let refilled := Z.min cap (toks + elapsed / Minute) in
  if 1 <=? refilled then (true, refilled - 1) else (false, refilled).

(** [n] calls in a row, with their results. *)
Fixpoint calls {A} (n : nat) (m : M A) : M (list A) :=
  match n with
  | O => ret []
  | S n => do a <- m; do l <- calls n m; ret (a :: l)
  end.

(** The state an operation leaves (the state it started from if it panics). *)
Definition exec {A} (m : M A) (s : State) : State :=
  match m s with
  | Done _ s' => s'
  | Panic => s
  end.

(** What one non-blocking send does to an open queue. *)
Definition offer (data : string) (ch : Chan) : Chan :=
  if (length (queue ch) <? Send_capacity)%nat then mkChan (queue ch ++ [data]) false else ch.

(** Every member of the room is an allocated client with an open queue. *)
Definition members_open (s : State) (r : ChatRoom) : Prop :=
  forall c, c ∈ Clients r ->
    exists cl, client_heap s !! c = Some cl /\ closed (Send cl) = false.

(** A step that touches nothing but client objects. *)
Definition clients_only (s s' : State) : Prop :=
  s' = set_client_heap (fun _ => client_heap s') s.

(** A step that touches nothing but the Redis server and the count of
    commands sent to it. *)
Definition redis_only (s s' : State) : Prop :=
  s' = set_redis_calls (redis_calls s') (set_redisClient (redisClient s') s).

(** A step that changes nothing but the log and the count of Redis
    commands. *)
Definition reads_only (s s' : State) : Prop :=
  s' = mkState (rooms s) (redisClient s) (rateLimiter s) (room_heap s) (client_heap s)
               (spawned s) (log s') (now_reads s) (redis_calls s').

(** The reply to the [n]-th Redis command and the server after it. *)
Definition redis_step {A} (W : World) (f : Time -> Redis -> Reply A * Redis)
    (n : nat) (r : Redis) : Reply A * Redis :=
  if redis_fail W n then (RErr, r) else f (redis_clock W n) r.

(** The ids the durable-tier read takes from the index of a room: the
    first [limit] members, newest first, at server time [now]. *)
Definition newest_ids (now : Time) (roomID : string) (limit : nat) (rd : Redis)
  : list string :=
  take limit (rev (zset_at now (roomKey roomID) rd).1).*2.

(** The trailing [limit] entries of a buffer. *)
Definition trailing {A} (limit : nat) (l : list A) : list A :=
  drop (length l - limit) l.

(** The clock shows an instant whose UnixNano is not negative (a date
    from 1970 to 2262). *)
Definition clock_sane (W : World) : Prop :=
  forall n, 0 <= clock W n <= maxInt64.

(** *** What a send stamps on a message

    [generateMessageID] and the two stamps read the clock nine times; when
    the first of these readings is number [n], the identifier and the
    stamped message are the following. *)

Definition charset_byte (t : Time) : ascii :=
  default "a"%char
    (String.get (Z.to_nat (Z.rem (Time_UnixNano t) (Z.of_nat (String.length charset))))
                charset).

Fixpoint suffix_from (W : World) (n len : nat) : string :=
  match len with
  | O => EmptyString
  | S k => String (charset_byte (clock W n)) (suffix_from W (S n) k)
  end.

Definition messageID_from (W : World) (n : nat) : string :=
  (Format_20060102150405 (clock W n) ++ "-" ++ suffix_from W (S n) 6)%string.

Definition stamp (W : World) (n : nat) (message : EncryptedMessage) : EncryptedMessage :=
  mkEncryptedMessage (Type_ message) (Room message) (User message)
    (Encrypted message) (IV message) (clock W (n + 7)) (messageID_from W n)
    (Time_Add (clock W (n + 8)) (MessageExpiration messageConfig))
    (Z.of_nat (String.length (Encrypted message))).

(** The in-memory history after one more message: at most the last 100. *)
Definition appended (l : list EncryptedMessage) (m : EncryptedMessage)
  : list EncryptedMessage :=
  if (100 <? length (l ++ [m]))%nat
  then drop (length (l ++ [m]) - 100) (l ++ [m])
  else l ++ [m].

(** ** Concrete worlds *)

(** 2023-11-14 22:13:20 UTC *)
Definition t0 : Time := 1700000000 * Second.

(** A burst of readings a microsecond apart, the 33rd two minutes later. *)
Definition burst_clock (n : nat) : Time :=
  if (n <=? 31)%nat then t0 + Z.of_nat n * 1000
  else t0 + 2 * Minute + Z.of_nat n * 1000.

Definition burst_world : World :=
  mkWorld burst_clock (fun _ => false) burst_clock wire_Marshal wire_Unmarshal.

(** A clock that does not advance between readings (one tick). *)
Definition tick_world : World :=
  mkWorld (fun _ => t0) (fun _ => false) (fun _ => t0) wire_Marshal wire_Unmarshal.

(** A clock of nanosecond resolution whose readings are 62 ns apart. *)
Definition stride_world : World :=
  mkWorld (fun n => t0 + 62 * Z.of_nat n) (fun _ => false)
          (fun n => t0 + 62 * Z.of_nat n) wire_Marshal wire_Unmarshal.

(** A clock whose readings are a millisecond apart; Redis is healthy. *)
Definition ms_world : World :=
  mkWorld (fun n => t0 + Z.of_nat n * 1000000) (fun _ => false)
          (fun n => t0 + Z.of_nat n * 1000000) wire_Marshal wire_Unmarshal.

(** A world whose Redis server fails on every command. *)
Definition down_world : World :=
  mkWorld (fun _ => t0) (fun _ => true) (fun _ => t0) wire_Marshal wire_Unmarshal.

(** The first 268 readings are taken at [t0]; the later ones [d] later. *)
Definition later_world (d : Duration) : World :=
  mkWorld (fun n => if (n <? 268)%nat then t0 else t0 + d) (fun _ => false)
          (fun _ => t0) wire_Marshal wire_Unmarshal.

(** ** Concrete runs *)

(** A payload of [n] bytes. *)
Fixpoint payload (n : nat) : string :=
  match n with
  | O => EmptyString
  | S n => String "x" (payload n)
  end.

Definition hello : EncryptedMessage :=
  mkEncryptedMessage "message" "r1" "bob" "hello" "iv" 0 "" 0 0.

(** A message of bob for "r1" with a payload of [n] bytes. *)
Definition sized (n : nat) : EncryptedMessage :=
  mkEncryptedMessage "message" "r1" "bob" (payload n) "iv" 0 "" 0 0.

Definition first_message : EncryptedMessage :=
  mkEncryptedMessage "message" "r1" "bob" "first" "iv1" 0 "" 0 0.

Definition second_message : EncryptedMessage :=
  mkEncryptedMessage "message" "r1" "bob" "second" "iv2" 0 "" 0 0.

(** Three connections have been upgraded: 0 (bob), 1 (carol), 2 (alice). *)
Definition three_clients : State := exec NewClient (exec NewClient (exec NewClient init)).

(** bob has joined room "r1". *)
Definition bob_joined : State :=
  exec (JoinRoom tick_world 0 "r1" "user-b" "bob") three_clients.

(** carol then sends 256 join frames for "r1" while nobody drains a queue. *)
Definition crowded : State :=
  exec (calls 256 (JoinRoom tick_world 1 "r1" "user-c" "carol")) bob_joined.

(** bob alone sends 256 join frames for "r1"; his queue is then full. *)
Definition solo_full : State :=
  exec (calls 256 (JoinRoom tick_world 0 "r1" "user-b" "bob")) three_clients.

(** bob then sends a message: the fan-out finds his queue full.  268
    readings of the clock have been taken by then. *)
Definition solo_dropped : State :=
  exec (BroadcastMessage tick_world 0 hello "user-b") solo_full.

(** bob has joined "r1" and sent [hello]; alice has joined after him.  No
    Redis client is set. *)
Definition chatted : State :=
  exec (JoinRoom tick_world 2 "r1" "user-a" "alice")
       (exec (BroadcastMessage tick_world 0 hello "user-b") bob_joined).

(** bob has joined "r1" in a service with a client of an empty Redis
    server. *)
Definition bob_joined_redis : State :=
  exec (JoinRoom tick_world 0 "r1" "user-b" "bob")
       (exec (SetRedisClient (mkRedis ∅ ∅)) three_clients).



(** With a healthy Redis, bob joins "r1" and sends two messages within
    23 ms. *)
Definition two_sent : State :=
  exec (BroadcastMessage ms_world 0 second_message "user-b")
    (exec (BroadcastMessage ms_world 0 first_message "user-b")
       (exec (JoinRoom ms_world 0 "r1" "user-b" "bob")
          (exec (SetRedisClient (mkRedis ∅ ∅)) three_clients))).

(** ** Loops as folds, to compare orders of iteration *)

Fixpoint for_each (f : nat -> M unit) (l : list nat) : M unit :=
  match l with
  | [] => ret tt
  | c :: l => f c;; for_each f l
  end.

(** One round of the notification loop and of the fan-out loop. *)
Definition notify_one (data : string) (client : nat) : M unit :=
  try_send client data;; ret tt.

Definition fanout_one (room : nat) (messageData : string) (client : nat) : M unit :=
  do sent <- try_send client messageData;
  when (negb sent)
       (update_room room (set_Clients (fun cl => cl ∖ {[client]}));;
        close_Send client).

(** ** The sweep of the rate limiters

    The second loop of one tick of [expiredMessageCleanup]: the limiter
    of a user is dropped when its last refill is more than 24 hours old.
    [time.Since] reads the clock once for every limiter. *)

Section Maintenance.

Variable W : World.

Fixpoint limiter_sweep_loop (entries : list (string * RateLimiter)) : M unit :=
  match entries with
  | [] => ret tt
  | (userID, limiter) :: rest =>
      do now <- time_Now W;
      when (24 * Hour <? Time_Sub now (lastRefill limiter))
           (modify (set_rateLimiter (delete userID)));;
      limiter_sweep_loop rest
  end.

Definition limiter_sweep : M unit :=
  do s <- get;
  limiter_sweep_loop (map_to_list (rateLimiter s)).

End Maintenance.

(** ** The two pumps of a connection

    [readPump] and [writePump] sit between the service and the WebSocket
    connection.  The connection is outside the program: what it delivers
    is an input of the model (the frames read, the pongs received, the
    errors of its writer), and the calls that write to it are returned in
    the order in which they are made.  The calls that only configure it
    ([SetReadLimit], [SetReadDeadline], [SetPongHandler]) are not
    recorded, but the readings of the clock they take are. *)

Record WSMessage := mkWSMessage {
  ws_Type : string;
  ws_Room : string;
  ws_User : string;
  ws_Encrypted : string;
  ws_IV : string;
  ws_Timestamp : string;
}.


(** The lines [readPump] itself logs; they are returned in order, each
    after the lines that the calls before it have added to the log of the
    state. *)
Inductive PumpLog :=
| LogWebSocketError
| LogUnmarshalFrame
| LogBroadcastFailed (e : error).

(** The calls [writePump] makes on [c.Conn] and on the writer it gets. *)
Inductive ConnCall :=
| SetWriteDeadline (t : Time)
| WriteMessage_Close             (* WriteMessage(websocket.CloseMessage, []byte{}) *)
| WriteMessage_Ping              (* WriteMessage(websocket.PingMessage, nil) *)
| NextWriter                     (* NextWriter(websocket.TextMessage) *)
| Write (p : string)             (* w.Write(p) *)
| Writer_Close                   (* w.Close() *)
| Conn_Close.                    (* c.Conn.Close(), deferred *)

Definition newline : string := String (ascii_of_nat 10) EmptyString.


Section Pumps.

Variable W : World.

(** [json.Unmarshal(messageData, &wsMsg)] *)
Variable json_Unmarshal_ws : string -> option WSMessage.
(** [time.Parse(time.RFC3339, s)], the zero time when it fails *)
Variable time_Parse : string -> Time.
(** [json.Marshal(map[string]string{"type": "error", "message": err.Error()})] *)
Variable json_Marshal_error : error -> option string.

(** The body of the loop of [readPump] for a message that was read. *)
Definition handle_frame (client : nat) (messageData : string) : M (list PumpLog) :=
  match json_Unmarshal_ws messageData with
  | None => ret [LogUnmarshalFrame]
  | Some wsMsg =>
      if String.eqb (ws_Type wsMsg) "join" then
        do userID <- generateUserID W;
        JoinRoom W client (ws_Room wsMsg) userID (ws_User wsMsg);;
        ret []
      else if String.eqb (ws_Type wsMsg) "message" then
        do c <- get_client client;
        match client_Room c with
        | None => ret []
        | Some room =>
            let timestamp := time_Parse (ws_Timestamp wsMsg) in
            let encMsg :=
              mkEncryptedMessage "message" (ws_Room wsMsg) (ws_User wsMsg)
                (ws_Encrypted wsMsg) (ws_IV wsMsg) timestamp "" Time_zero 0 in
            do err <- BroadcastMessage W room encMsg (UserID c);
            match err with
            | None => ret []
            | Some e =>
                match json_Marshal_error e with
                | Some errorData => try_send client errorData;; ret [LogBroadcastFailed e]
                | None => ret [LogBroadcastFailed e]
                end
            end
        end
      else ret []
  end.



(** The frames queued behind the first are written after it, each after
    a newline. *)
Fixpoint write_queued (rest : list string) : list ConnCall :=
  match rest with
  | [] => []
  | message :: rest => Write newline :: Write message :: write_queued rest
  end.

(** One round of the loop of [writePump] in which the receive from
    [c.Send] is taken; [None] when the receive is not ready (the queue is
    open and empty).  The result carries the calls made and whether
    [writePump] returns.  [n := len(c.Send)] frames are received after the
    first; no other goroutine runs in between. *)
Definition writePump_receive (client : nat) (nextWriter_err close_err : bool)
  : M (option (list ConnCall * bool)) :=
  do c <- get_client client;
  match queue (Send c) with
  | [] =>
      if closed (Send c) then
        do now <- time_Now W;
        ret (Some ([SetWriteDeadline (Time_Add now (10 * Second));
                    WriteMessage_Close; Conn_Close], true))
      else ret None
  | message :: rest =>
      update_client client (set_Send (mkChan rest (closed (Send c))));;
      do now <- time_Now W;
      if nextWriter_err
      then ret (Some ([SetWriteDeadline (Time_Add now (10 * Second));
                       NextWriter; Conn_Close], true))
      else
        update_client client (set_Send (mkChan [] (closed (Send c))));;
        let calls := [SetWriteDeadline (Time_Add now (10 * Second)); NextWriter;
                      Write message] ++ write_queued rest ++ [Writer_Close] in
        if close_err then ret (Some (calls ++ [Conn_Close], true))
        else ret (Some (calls, false))
  end.

(** A round in which the ticker fires. *)
Definition writePump_tick (ping_err : bool) : M (list ConnCall * bool) :=
  do now <- time_Now W;
  if ping_err
  then ret ([SetWriteDeadline (Time_Add now (10 * Second)); WriteMessage_Ping; Conn_Close],
            true)
  else ret ([SetWriteDeadline (Time_Add now (10 * Second)); WriteMessage_Ping], false).

End Pumps.

(** The bytes written through the writer. *)
Fixpoint written (calls : list ConnCall) : string :=
  match calls with
  | [] => EmptyString
  | Write p :: calls => String.append p (written calls)
  | _ :: calls => written calls
  end.

(** The frames of a queue, separated by newlines. *)
Fixpoint join_lines (frames : list string) : string :=
  match frames with
  | [] => EmptyString
  | [f] => f
  | f :: frames => String.append f (String.append newline (join_lines frames))
  end.

(** ** Definitions used to state further properties *)

(** The number of calls allowed among the answers of a run. *)
Definition allowed (l : list bool) : Z :=
  Z.of_nat (length (List.filter (fun b : bool => b) l)).

(** What the fan-out of a send does to a member: the frame is queued, or,
    if the queue is full, the queue is closed. *)
Definition has_room (cl : Client) : bool :=
  (length (queue (Send cl)) <? Send_capacity)%nat.

Definition after_fanout (data : string) (cl : Client) : Client :=
  if has_room cl
  then set_Send (mkChan (queue (Send cl) ++ [data]) false) cl
  else set_Send (mkChan (queue (Send cl)) true) cl.

(** *** Consistency of the heap

    A member of a room object is an allocated client whose queue is open
    and whose [Room] field points to that object; a queue holds at most
    256 frames and a [Room] field points to an allocated room; a registry
    entry points to an allocated room that carries the key as its [ID]. *)

Definition member_ok (s : State) (room c : nat) : Prop :=
  match client_heap s !! c with
  | Some cl => closed (Send cl) = false /\ client_Room cl = Some room
  | None => False
  end.

Definition client_ok (s : State) (cl : Client) : Prop :=
  (length (queue (Send cl)) <= Send_capacity)%nat /\
  match client_Room cl with
  | Some room => is_Some (room_heap s !! room)
  | None => True
  end.

Definition entry_ok (s : State) (roomID : string) (room : nat) : Prop :=
  match room_heap s !! room with
  | Some r => ID r = roomID
  | None => False
  end.

Definition well_formed (s : State) : Prop :=
  (forall room r, room_heap s !! room = Some r ->
     forall c, c ∈ Clients r -> member_ok s room c) /\
  (forall c cl, client_heap s !! c = Some cl -> client_ok s cl) /\
  (forall roomID room, rooms s !! roomID = Some room -> entry_ok s roomID room).

(** The client is a member of no room object other than the one
    registered under [roomID]. *)
Definition only_in (s : State) (client : nat) (roomID : string) : Prop :=
  forall room r, room_heap s !! room = Some r ->
    client ∈ Clients r -> rooms s !! roomID = Some room.

#[global] Instance member_ok_dec s room c : Decision (member_ok s room c).
Proof. unfold member_ok. destruct (client_heap s !! c); apply _. Defined.

#[global] Instance client_ok_dec s cl : Decision (client_ok s cl).
Proof. unfold client_ok. destruct (client_Room cl); apply _. Defined.

#[global] Instance entry_ok_dec s roomID room : Decision (entry_ok s roomID room).
Proof. unfold entry_ok. destruct (room_heap s !! room); apply _. Defined.

#[global] Instance well_formed_dec s : Decision (well_formed s).
Proof.
  unfold well_formed.
  refine (and_dec
    (map_Forall_dec (fun room r => set_Forall (member_ok s room) (Clients r)) (room_heap s))
    (and_dec
       (map_Forall_dec (fun _ cl => client_ok s cl) (client_heap s))
       (map_Forall_dec (fun roomID room => entry_ok s roomID room) (rooms s)))).
Defined.

#[global] Instance only_in_dec s client roomID : Decision (only_in s client roomID).
Proof.
  unfold only_in.
  refine (map_Forall_dec
            (fun room r => client ∈ Clients r -> rooms s !! roomID = Some room)
            (room_heap s)).
Defined.

(** A step on a client object that keeps its fields and the state of its
    queue (open or closed), and keeps the queue within its capacity. *)
Definition queue_step (cl cl' : Client) : Prop :=
  client_Room cl' = client_Room cl /\ UserID cl' = UserID cl /\
  UserName cl' = UserName cl /\ closed (Send cl') = closed (Send cl) /\
  ((length (queue (Send cl)) <= Send_capacity)%nat ->
   (length (queue (Send cl')) <= Send_capacity)%nat).

(** A step that allocates and frees no client and is a [queue_step] on
    each. *)
Definition heap_step (s s' : State) : Prop :=
  forall c, match client_heap s !! c, client_heap s' !! c with
            | Some cl, Some cl' => queue_step cl cl'
            | None, None => True
            | _, _ => False
            end.

(** A change of the server that leaves every string key other than [ks]
    and every sorted-set key other than [kz] as it was. *)
Definition redis_touches (ks kz : string) (rd rd' : Redis) : Prop :=
  (forall k, k <> ks -> rstrings rd' !! k = rstrings rd !! k) /\
  (forall k, k <> kz -> rzsets rd' !! k = rzsets rd !! k).

(** ** Further concrete runs *)

(** bob and carol have joined "r1". *)
Definition two_joined : State :=
  exec (JoinRoom tick_world 1 "r1" "user-c" "carol") bob_joined.

(** * Properties *)

Lemma wrap64_small z : minInt64 <= z <= maxInt64 -> wrap64 z = z.
Proof.
  unfold wrap64, minInt64, maxInt64. intros H.
  rewrite Z.mod_small; lia.
Qed.

Lemma Minute_val : Minute = 60000000000.
Proof. reflexivity. Qed.

Lemma Time_Sub_exact t u :
  minInt64 <= t - u <= maxInt64 -> Time_Sub t u = t - u.
Proof.
  unfold Time_Sub. intros H.
  destruct (Z.ltb_spec (t - u) minInt64); [lia|].
  destruct (Z.ltb_spec maxInt64 (t - u)); [lia|]. reflexivity.
Qed.

Lemma Time_Sub_ge t u d :
  0 <= d <= maxInt64 -> d <= t - u -> d <= Time_Sub t u.
Proof.
  unfold Time_Sub. intros H1 H2.
  destruct (Z.ltb_spec (t - u) minInt64); [unfold minInt64 in *; lia|].
  destruct (Z.ltb_spec maxInt64 (t - u)); lia.
Qed.

Lemma Time_Sub_bounds t u : minInt64 <= Time_Sub t u <= maxInt64.
Proof.
  unfold Time_Sub.
  destruct (Z.ltb_spec (t - u) minInt64); [unfold minInt64, maxInt64; lia|].
  destruct (Z.ltb_spec maxInt64 (t - u)); [unfold minInt64, maxInt64; lia|]. lia.
Qed.

Lemma maxInt64_val : maxInt64 = 9223372036854775807.
Proof. reflexivity. Qed.

Lemma minInt64_val : minInt64 = -9223372036854775808.
Proof. reflexivity. Qed.

Lemma minutes_bounds d :
  minInt64 <= d <= maxInt64 -> -153722869 < Duration_Minutes_int d < 153722869.
Proof.
  unfold Duration_Minutes_int. rewrite Minute_val, maxInt64_val, minInt64_val. intros H.
  pose proof (Z.quot_rem' d 60000000000).
  assert (Z.abs (Z.rem d 60000000000) < 60000000000)
    by (pose proof (Z.rem_bound_abs d 60000000000); lia).
  lia.
Qed.

Lemma allow_at_refines now rl :
  0 <= tokens rl <= capacity rl -> capacity rl < 2 ^ 62 ->
  0 <= now - lastRefill rl <= maxInt64 ->
  (allow_at now rl).1 = (bucket_step (now - lastRefill rl) (capacity rl) (tokens rl)).1 /\
  tokens (allow_at now rl).2 = (bucket_step (now - lastRefill rl) (capacity rl) (tokens rl)).2 /\
  capacity (allow_at now rl).2 = capacity rl.
Proof.
  intros Ht Hc He.
  assert (Hc' : capacity rl < 4611686018427387904) by exact Hc.
  unfold allow_at, bucket_step.
  rewrite Time_Sub_exact by (rewrite minInt64_val; lia).
  pose proof (minutes_bounds (now - lastRefill rl)) as Hm.
  rewrite minInt64_val, maxInt64_val in Hm. rewrite maxInt64_val in He.
  specialize (Hm ltac:(lia)).
  unfold Duration_Minutes_int in *.
  rewrite Z.quot_div_nonneg in * by (rewrite ?Minute_val; lia).
  set (k := (now - lastRefill rl) / Minute) in *.
  assert (0 <= k) by (apply Z.div_pos; rewrite ?Minute_val; lia).
  unfold min_int.
  destruct (Z.ltb_spec 0 k); simpl.
  - rewrite (wrap64_small (tokens rl + k)) by (rewrite minInt64_val, maxInt64_val; lia).
    destruct (Z.ltb_spec (capacity rl) (tokens rl + k)).
    + rewrite Z.min_l by lia.
      destruct (Z.ltb_spec 0 (capacity rl)), (Z.leb_spec 1 (capacity rl)); simpl; try lia.
      rewrite wrap64_small by (rewrite minInt64_val, maxInt64_val; lia). lia.
    + rewrite Z.min_r by lia.
      destruct (Z.ltb_spec 0 (tokens rl + k)), (Z.leb_spec 1 (tokens rl + k)); simpl; try lia.
      rewrite wrap64_small by (rewrite minInt64_val, maxInt64_val; lia). lia.
  - assert (k = 0) as -> by lia. rewrite Z.add_0_r, Z.min_r by lia.
    destruct (Z.ltb_spec 0 (tokens rl)), (Z.leb_spec 1 (tokens rl)); simpl; try lia.
    rewrite wrap64_small by (rewrite minInt64_val, maxInt64_val; lia). lia.
Qed.

Lemma allow_at_invariant now rl :
  0 <= tokens rl <= capacity rl -> capacity rl < 2 ^ 62 ->
  0 <= tokens (allow_at now rl).2 <= capacity (allow_at now rl).2.
Proof.
  intros Ht Hc.
  assert (Hc' : capacity rl < 4611686018427387904) by exact Hc.
  unfold allow_at.
  pose proof (minutes_bounds _ (Time_Sub_bounds now (lastRefill rl))) as Hm.
  set (k := Duration_Minutes_int _) in *.
  unfold min_int.
  destruct (Z.ltb_spec 0 k); simpl.
  - rewrite (wrap64_small (tokens rl + k)) by (rewrite minInt64_val, maxInt64_val; lia).
    destruct (Z.ltb_spec (capacity rl) (tokens rl + k)); simpl.
    + destruct (Z.ltb_spec 0 (capacity rl)); simpl; try lia.
      rewrite wrap64_small by (rewrite minInt64_val, maxInt64_val; lia). lia.
    + destruct (Z.ltb_spec 0 (tokens rl + k)); simpl; try lia.
      rewrite wrap64_small by (rewrite minInt64_val, maxInt64_val; lia). lia.
  - destruct (Z.ltb_spec 0 (tokens rl)); simpl; try lia.
    rewrite wrap64_small by (rewrite minInt64_val, maxInt64_val; lia). lia.
Qed.

Lemma calls_S {A} n (m : M A) :
  calls (S n) m = bind m (fun a => bind (calls n m) (fun l => ret (a :: l))).
Proof. reflexivity. Qed.

Lemma calls_snoc {A} n (m : M A) s :
  calls (S n) m s = bind (calls n m) (fun l => bind m (fun a => ret (l ++ [a]))) s.
Proof.
  revert s. induction n as [|n IH]; intros s.
  - cbn. unfold bind, ret. destruct (m s); reflexivity.
  - cbn [calls] in *. unfold bind, ret in *.
    destruct (m s) as [a sa|]; [|reflexivity].
    rewrite IH.
    destruct (calls n m sa) as [l sl|]; [|reflexivity].
    destruct (m sl); reflexivity.
Qed.

Section RateLimit.
Variable W : World.

Lemma allow_run uid s rl :
  rateLimiter s !! uid = Some rl ->
  allow W uid s =
    Done (allow_at (clock W (now_reads s)) rl).1
         (set_rateLimiter <[uid := (allow_at (clock W (now_reads s)) rl).2]>
            (set_now_reads (S (now_reads s)) s)).
Proof.
  intros H. unfold allow, bind, get. cbv beta iota. rewrite H. unfold time_Now, modify, ret. cbv beta iota.
  destruct (allow_at _ rl) as [ok rl']. reflexivity.
Qed.

Lemma checkRateLimit_known uid s rl :
  rateLimiter s !! uid = Some rl ->
  checkRateLimit W uid s = allow W uid s.
Proof.
  intros H. unfold checkRateLimit, bind, get. cbv beta iota. rewrite H. reflexivity.
Qed.

Lemma checkRateLimit_new uid s :
  rateLimiter s !! uid = None ->
  checkRateLimit W uid s =
    allow W uid
      (set_rateLimiter
         <[uid := mkRateLimiter (RateLimit messageConfig) (RateLimit messageConfig)
                                (clock W (now_reads s))]>
         (set_now_reads (S (now_reads s)) s)).
Proof.
  intros H. unfold checkRateLimit, bind, get. cbv beta iota. rewrite H. reflexivity.
Qed.

Lemma allow_at_idle now k c l :
  0 < k <= maxInt64 -> Duration_Minutes_int (Time_Sub now l) <= 0 ->
  allow_at now (mkRateLimiter k c l) = (true, mkRateLimiter (k - 1) c l).
Proof.
  intros Hk Hm. unfold allow_at. simpl.
  destruct (Z.ltb_spec 0 (Duration_Minutes_int (Time_Sub now l))); [lia|]. simpl.
  destruct (Z.ltb_spec 0 k); [|lia].
  rewrite wrap64_small by (rewrite minInt64_val; lia). reflexivity.
Qed.

Lemma allow_at_empty now c l :
  Duration_Minutes_int (Time_Sub now l) <= 0 ->
  allow_at now (mkRateLimiter 0 c l) = (false, mkRateLimiter 0 c l).
Proof.
  intros Hm. unfold allow_at. simpl.
  destruct (Z.ltb_spec 0 (Duration_Minutes_int (Time_Sub now l))); [lia|]. reflexivity.
Qed.

Lemma burst uid k : forall s c l,
  rateLimiter s !! uid = Some (mkRateLimiter (Z.of_nat k) c l) ->
  Z.of_nat k <= maxInt64 ->
  (forall i, (i < k)%nat ->
     Duration_Minutes_int (Time_Sub (clock W (now_reads s + i)) l) <= 0) ->
  exists s',
    calls k (checkRateLimit W uid) s = Done (repeat true k) s' /\
    rateLimiter s' !! uid = Some (mkRateLimiter 0 c l) /\
    now_reads s' = (now_reads s + k)%nat.
Proof.
  induction k as [|k IH]; intros s c l Hl Hk Hidle.
  - exists s. simpl. split; [reflexivity|]. split; [exact Hl|lia].
  - cbn [calls]. unfold bind at 1.
    rewrite (checkRateLimit_known _ _ _ Hl), (allow_run _ _ _ Hl).
    rewrite allow_at_idle; [|lia|].
    2:{ specialize (Hidle 0%nat ltac:(lia)). rewrite Nat.add_0_r in Hidle. exact Hidle. }
    cbn [fst snd].
    set (s1 := set_rateLimiter _ _).
    destruct (IH s1 c l) as (s' & Hrun & Hl' & Hn).
    + subst s1. cbn. rewrite lookup_insert_eq. f_equal. f_equal. lia.
    + lia.
    + intros i Hi. subst s1. cbn. specialize (Hidle (S i) ltac:(lia)).
      replace (S (now_reads s + i)) with (now_reads s + S i)%nat by lia. exact Hidle.
    + exists s'. unfold bind. rewrite Hrun. cbn. split; [reflexivity|].
      split; [exact Hl'|]. rewrite Hn. subst s1. cbn. lia.
Qed.

End RateLimit.

(** C3. The rate limiter is a lazily refilled token bucket.  First part:
    a call of [allow] on the limiter of [userID], whose tokens lie between
    0 and its capacity (at most 2^18; the configured one is 30), answers
    and leaves the token count exactly as the algorithm of the
    specification does (add the whole minutes elapsed since the last
    refill, capped at the capacity; allow and take one token iff at least
    one is there), and the count stays between 0 and the capacity.  Second
    part: for a user without a limiter (capacity 30), 31 calls whose clock
    readings lie within one second answer [true] 30 times and then
    [false], and a further call two minutes or more after the first
    answers [true]. *)
Theorem rate_limiter_token_bucket :
  (forall W userID s rl,
      rateLimiter s !! userID = Some rl ->
      0 <= tokens rl <= capacity rl -> capacity rl <= 2 ^ 18 ->
      0 <= clock W (now_reads s) - lastRefill rl <= maxInt64 ->
      let spec := bucket_step (clock W (now_reads s) - lastRefill rl)
                              (capacity rl) (tokens rl) in
      exists s' rl',
        allow W userID s = Done spec.1 s' /\
        rateLimiter s' !! userID = Some rl' /\
        tokens rl' = spec.2 /\ capacity rl' = capacity rl /\
        0 <= tokens rl' <= capacity rl') /\
  (forall W userID s,
      rateLimiter s !! userID = None ->
      (forall i, (i <= 31)%nat ->
         0 <= clock W (now_reads s + i) - clock W (now_reads s) < Second) ->
      2 * Minute <= clock W (now_reads s + 32) - clock W (now_reads s) ->
      exists s' s'',
        calls 31 (checkRateLimit W userID) s = Done (repeat true 30 ++ [false]) s' /\
        checkRateLimit W userID s' = Done true s'').
Proof.
  split.
  - intros W uid s rl Hl Ht Hc18 He spec.
    assert (Hc : capacity rl < 2 ^ 62)
      by (eapply Z.le_lt_trans; [exact Hc18|reflexivity]).
    destruct (allow_at_refines _ _ Ht Hc He) as (H1 & H2 & H3).
    pose proof (allow_at_invariant (clock W (now_reads s)) _ Ht Hc) as H4.
    eexists _, _. rewrite (allow_run _ _ _ _ Hl). split; [f_equal; exact H1|].
    split; [cbn; apply lookup_insert_eq|]. auto.
  - intros W uid s Hnone Hburst Hlater.
    set (t0 := clock W (now_reads s)) in *.
    assert (Hidle : forall i, (i <= 31)%nat ->
              Duration_Minutes_int (Time_Sub (clock W (now_reads s + i)) t0) <= 0).
    { intros i Hi. specialize (Hburst i Hi). unfold Second in Hburst.
      rewrite Time_Sub_exact by (rewrite minInt64_val, maxInt64_val; lia).
      unfold Duration_Minutes_int. rewrite Minute_val.
      rewrite Z.quot_small; lia. }
    rewrite calls_snoc. unfold bind at 1.
    (* the first call creates the limiter *)
    rewrite (calls_S 29). unfold bind at 1.
    rewrite (checkRateLimit_new _ _ _ Hnone). fold t0.
    set (s0 := set_rateLimiter _ _).
    assert (Hl0 : rateLimiter s0 !! uid = Some (mkRateLimiter 30 30 t0))
      by (subst s0; cbn; apply lookup_insert_eq).
    rewrite (allow_run _ _ _ _ Hl0).
    assert (Hn0 : now_reads s0 = S (now_reads s)) by reflexivity.
    rewrite allow_at_idle; [|rewrite maxInt64_val; lia|].
    2:{ rewrite Hn0. specialize (Hidle 1%nat ltac:(lia)).
        replace (S (now_reads s)) with (now_reads s + 1)%nat by lia. exact Hidle. }
    cbn [fst snd]. set (s1 := set_rateLimiter _ _).
    destruct (burst W uid 29 s1 30 t0) as (s2 & Hrun & Hl2 & Hn2).
    { subst s1. cbn. rewrite lookup_insert_eq. reflexivity. }
    { rewrite maxInt64_val. lia. }
    { intros i Hi. subst s1. cbn.
      specialize (Hidle (2 + i)%nat ltac:(lia)).
      replace (S (S (now_reads s + i))) with (now_reads s + (2 + i))%nat by lia.
      exact Hidle. }
    assert (Hn2' : now_reads s2 = (now_reads s + 31)%nat)
      by (rewrite Hn2; subst s1; cbn; lia).
    unfold bind at 1. rewrite Hrun. cbn [ret].
    (* the 31st call finds the bucket empty *)
    unfold bind at 1.
    rewrite (checkRateLimit_known _ _ _ _ Hl2), (allow_run _ _ _ _ Hl2).
    rewrite allow_at_empty.
    2:{ rewrite Hn2'. apply Hidle. lia. }
    cbn [fst snd ret]. set (s3 := set_rateLimiter _ _).
    exists s3.
    assert (Hl3 : rateLimiter s3 !! uid = Some (mkRateLimiter 0 30 t0))
      by (subst s3; cbn; apply lookup_insert_eq).
    assert (Hn3 : now_reads s3 = (now_reads s + 32)%nat)
      by (subst s3; cbn; lia).
    rewrite (checkRateLimit_known _ _ _ _ Hl3), (allow_run _ _ _ _ Hl3).
    eexists. split; [reflexivity|]. f_equal.
    rewrite Hn3. unfold allow_at. cbn [tokens capacity lastRefill].
    assert (Hk : 2 <= Duration_Minutes_int
                        (Time_Sub (clock W (now_reads s + 32)) t0)).
    { unfold Duration_Minutes_int.
      assert (2 * Minute <= Time_Sub (clock W (now_reads s + 32)) t0)
        by (apply Time_Sub_ge; [rewrite maxInt64_val, Minute_val; lia|exact Hlater]).
      rewrite Minute_val in *. apply Z.quot_le_lower_bound; lia. }
    pose proof (minutes_bounds _ (Time_Sub_bounds (clock W (now_reads s + 32)) t0)) as Hb.
    set (k := Duration_Minutes_int _) in *.
    destruct (Z.ltb_spec 0 k); [|lia]. cbn [tokens].
    rewrite (wrap64_small (0 + k)) by (rewrite minInt64_val, maxInt64_val; lia).
    unfold min_int. destruct (Z.ltb_spec 30 (0 + k)); reflexivity || (destruct (Z.ltb_spec 0 (0 + k)); [reflexivity|lia]).
Qed.

(** [rate_limiter_token_bucket] on concrete runs: a bucket of 5 tokens
    checked 90 seconds after its last refill, and a burst of 31 calls
    followed by a call two minutes later. *)
Lemma rate_limiter_token_bucket_witness :
  (exists s' rl',
      allow burst_world "u"
        (set_rateLimiter <["u" := mkRateLimiter 5 30 (t0 - 90 * Second)]> init) = Done true s' /\
      rateLimiter s' !! "u" = Some rl' /\
      tokens rl' = 5 /\ capacity rl' = 30 /\ 0 <= tokens rl' <= capacity rl') /\
  (exists s' s'',
      calls 31 (checkRateLimit burst_world "u") init = Done (repeat true 30 ++ [false]) s' /\
      checkRateLimit burst_world "u" s' = Done true s'').
Proof.
  destruct rate_limiter_token_bucket as [Hstep Hburst]. split.
  - apply (Hstep burst_world "u"
             (set_rateLimiter <["u" := mkRateLimiter 5 30 (t0 - 90 * Second)]> init)
             (mkRateLimiter 5 30 (t0 - 90 * Second))).
    + reflexivity.
    + simpl. lia.
    + vm_compute. discriminate.
    + vm_compute. split; discriminate.
  - apply (Hburst burst_world "u" init).
    + reflexivity.
    + intros i Hi. cbn [clock burst_world now_reads init Nat.add]. unfold burst_clock.
      destruct (Nat.leb_spec i 31); [|lia]. cbn [Nat.leb]. unfold Second. lia.
    + vm_compute. discriminate.
Defined.

(** C9. [generateMessageID] draws the whole identifier from the clock: the
    prefix is the reading formatted to the second and every byte of the
    suffix is [charset[UnixNano % 62]] of a later reading.  Two calls
    within one tick of the clock return the same identifier, and so do two
    calls whose fourteen readings are all distinct, 62 ns apart. *)
Theorem generateMessageID_collides :
  (exists s1 s2,
      generateMessageID tick_world init = Done "20231114221320-AAAAAA"%string s1 /\
      generateMessageID tick_world s1 = Done "20231114221320-AAAAAA"%string s2) /\
  (exists s1 s2,
      generateMessageID stride_world init = Done "20231114221320-AAAAAA"%string s1 /\
      generateMessageID stride_world s1 = Done "20231114221320-AAAAAA"%string s2 /\
      forall i j, clock stride_world i = clock stride_world j -> i = j).
Proof.
  split.
  - eexists _, _. split; vm_compute; reflexivity.
  - eexists _, _. split; [vm_compute; reflexivity|]. split; [vm_compute; reflexivity|].
    intros i j. cbn [clock stride_world]. lia.
Qed.

(** ** Stepping through the monad *)

Lemma bind_Done {A B} (m : M A) (k : A -> M B) s b s' :
  bind m k s = Done b s' -> exists a s1, m s = Done a s1 /\ k a s1 = Done b s'.
Proof.
  unfold bind. destruct (m s) as [a s1|]; [|discriminate]. eauto.
Qed.

Lemma bind_run {A B} (m : M A) (k : A -> M B) s a s1 :
  m s = Done a s1 -> bind m k s = k a s1.
Proof. unfold bind. intros ->. reflexivity. Qed.

Lemma State_eta s :
  mkState (rooms s) (redisClient s) (rateLimiter s) (room_heap s) (client_heap s)
          (spawned s) (log s) (now_reads s) (redis_calls s) = s.
Proof. destruct s; reflexivity. Qed.

Lemma set_Send_id c : set_Send (Send c) c = c.
Proof. destruct c; reflexivity. Qed.

Lemma clients_only_refl s : clients_only s s.
Proof. unfold clients_only, set_client_heap. symmetry. apply State_eta. Qed.

Lemma clients_only_trans s1 s2 s3 :
  clients_only s1 s2 -> clients_only s2 s3 -> clients_only s1 s3.
Proof.
  unfold clients_only. intros H12 H23. rewrite H23 at 1. rewrite H12 at 1. reflexivity.
Qed.

Lemma clients_only_set f s : clients_only s (set_client_heap f s).
Proof. reflexivity. Qed.

Section Steps.
Variable W : World.

Lemma get_client_Done c s cl s' :
  get_client c s = Done cl s' -> client_heap s !! c = Some cl /\ s' = s.
Proof.
  unfold get_client. destruct (client_heap s !! c); [|discriminate].
  intros [= -> ->]. auto.
Qed.

Lemma get_room_Done r s rm s' :
  get_room r s = Done rm s' -> room_heap s !! r = Some rm /\ s' = s.
Proof.
  unfold get_room. destruct (room_heap s !! r); [|discriminate].
  intros [= -> ->]. auto.
Qed.

Lemma get_client_run c s cl :
  client_heap s !! c = Some cl -> get_client c s = Done cl s.
Proof. unfold get_client. intros ->. reflexivity. Qed.

Lemma get_room_run r s rm :
  room_heap s !! r = Some rm -> get_room r s = Done rm s.
Proof. unfold get_room. intros ->. reflexivity. Qed.

Lemma update_client_run c f s cl :
  client_heap s !! c = Some cl ->
  update_client c f s = Done tt (set_client_heap <[c := f cl]> s).
Proof.
  intros H. unfold update_client. rewrite (bind_run _ _ _ _ _ (get_client_run _ _ _ H)).
  reflexivity.
Qed.

Lemma update_room_run r f s rm :
  room_heap s !! r = Some rm ->
  update_room r f s = Done tt (set_room_heap <[r := f rm]> s).
Proof.
  intros H. unfold update_room. rewrite (bind_run _ _ _ _ _ (get_room_run _ _ _ H)).
  reflexivity.
Qed.

Lemma try_send_run c data s cl :
  client_heap s !! c = Some cl -> closed (Send cl) = false ->
  try_send c data s =
    Done (length (queue (Send cl)) <? Send_capacity)%nat
         (set_client_heap <[c := set_Send (offer data (Send cl)) cl]> s).
Proof.
  intros H Hopen. unfold try_send.
  rewrite (bind_run _ _ _ _ _ (get_client_run _ _ _ H)).
  unfold chan_try_send, offer. rewrite Hopen.
  destruct (length (queue (Send cl)) <? Send_capacity)%nat;
    rewrite (bind_run _ _ _ _ _ (update_client_run _ _ _ _ H)); reflexivity.
Qed.

Lemma try_send_Done c data s b s' :
  try_send c data s = Done b s' ->
  exists cl, client_heap s !! c = Some cl /\ closed (Send cl) = false /\
    b = (length (queue (Send cl)) <? Send_capacity)%nat /\
    s' = set_client_heap <[c := set_Send (offer data (Send cl)) cl]> s.
Proof.
  intros H0. pose proof H0 as H. unfold try_send in H.
  apply bind_Done in H as (cl & s1 & Hg & H).
  apply get_client_Done in Hg as [Hcl ->].
  destruct (closed (Send cl)) eqn:Hopen.
  - unfold chan_try_send in H. rewrite Hopen in H. discriminate.
  - rewrite (try_send_run _ data _ _ Hcl Hopen) in H0. injection H0 as <- <-.
    exists cl. auto.
Qed.

Lemma close_Send_Done c s s' :
  close_Send c s = Done tt s' ->
  exists cl, client_heap s !! c = Some cl /\ closed (Send cl) = false /\
    s' = set_client_heap <[c := set_Send (mkChan (queue (Send cl)) true) cl]> s.
Proof.
  intros H. unfold close_Send in H.
  apply bind_Done in H as (cl & s1 & Hg & H).
  apply get_client_Done in Hg as [Hcl ->].
  unfold chan_close in H. destruct (closed (Send cl)) eqn:Hopen; [discriminate|].
  rewrite (update_client_run _ _ _ _ Hcl) in H. injection H as <-. eauto.
Qed.

End Steps.

Section Notify.
Variable W : World.

(** The notification loop touches only client objects, and of those only
    the queues. *)
Lemma notify_Done l data : forall s s',
  notify l data s = Done tt s' ->
  clients_only s s' /\
  (forall c cl, client_heap s !! c = Some cl ->
     exists cl', client_heap s' !! c = Some cl' /\
       client_Room cl' = client_Room cl /\ UserID cl' = UserID cl /\
       UserName cl' = UserName cl /\ closed (Send cl') = closed (Send cl)) /\
  (forall c, client_heap s !! c = None -> client_heap s' !! c = None).
Proof.
  induction l as [|c l IH]; intros s s' H.
  - injection H as <-. split; [apply clients_only_refl|]. split; eauto 10.
  - cbn [notify] in H. apply bind_Done in H as (b & s1 & Hs & H).
    apply try_send_Done in Hs as (cl0 & Hcl0 & Hopen & _ & ->).
    apply IH in H as (Hco & Hsome & Hnone).
    split; [eapply clients_only_trans; [apply clients_only_set|exact Hco]|].
    split.
    + intros c' cl Hc'. destruct (decide (c = c')) as [->|Hne].
      * destruct (Hsome c' (set_Send (offer data (Send cl0)) cl0)) as (cl' & ? & ? & ? & ? & Hcl').
        { cbn. apply lookup_insert_eq. }
        exists cl'. rewrite Hcl0 in Hc'. injection Hc' as <-.
        repeat split; try assumption. rewrite Hcl'. cbn. unfold offer.
        destruct (_ <? _)%nat; [cbn; congruence|reflexivity].
      * apply Hsome. cbn. rewrite lookup_insert_ne by exact Hne. exact Hc'.
    + intros c' Hc'. apply Hnone. cbn.
      destruct (decide (c = c')) as [->|Hne]; [congruence|].
      rewrite lookup_insert_ne by exact Hne. exact Hc'.
Qed.

(** ... and each member that is visited once gets the frame if its queue
    has room. *)
Lemma notify_queue l data : forall s s',
  NoDup l -> notify l data s = Done tt s' ->
  forall c cl, client_heap s !! c = Some cl ->
    exists cl', client_heap s' !! c = Some cl' /\
      Send cl' = if bool_decide (c ∈ l) then offer data (Send cl) else Send cl.
Proof.
  induction l as [|c0 l IH]; intros s s' Hnd H c cl Hc.
  - injection H as <-. exists cl. split; [exact Hc|].
    rewrite bool_decide_eq_false_2; [reflexivity|]. apply not_elem_of_nil.
  - cbn [notify] in H. apply bind_Done in H as (b & s1 & Hs & H).
    apply try_send_Done in Hs as (cl0 & Hcl0 & Hopen & _ & ->).
    apply NoDup_cons in Hnd as [Hnotin Hnd].
    destruct (decide (c0 = c)) as [->|Hne].
    + rewrite Hcl0 in Hc. injection Hc as ->.
      destruct (IH _ _ Hnd H c (set_Send (offer data (Send cl)) cl)) as (cl' & Hcl' & HS).
      { cbn. apply lookup_insert_eq. }
      exists cl'. split; [exact Hcl'|].
      rewrite HS. rewrite bool_decide_eq_false_2 by exact Hnotin.
      rewrite bool_decide_eq_true_2 by (left; reflexivity).
      destruct cl; reflexivity.
    + destruct (IH _ _ Hnd H c cl) as (cl' & Hcl' & HS).
      { cbn. rewrite lookup_insert_ne by exact Hne. exact Hc. }
      exists cl'. split; [exact Hcl'|]. rewrite HS.
      destruct (decide (c ∈ l)) as [Hin|Hout].
      * rewrite !bool_decide_eq_true_2; [reflexivity|right; exact Hin|exact Hin].
      * rewrite !bool_decide_eq_false_2; [reflexivity| |exact Hout].
        intros [Heq|Hin]%elem_of_cons; [congruence|contradiction].
Qed.

End Notify.

Section Leave.
Variable W : World.

Lemma clients_only_room_heap s s' : clients_only s s' -> room_heap s' = room_heap s.
Proof. intros ->. reflexivity. Qed.

Lemma clients_only_rooms s s' : clients_only s s' -> rooms s' = rooms s.
Proof. intros ->. reflexivity. Qed.

Lemma broadcastUserLeft_Done room userName s s' :
  broadcastUserLeft W room userName s = Done tt s' ->
  exists r, room_heap s !! room = Some r /\
    notify (elements (Clients r))
           (marshal_or_nil W (mkEncryptedMessage "user_left" (ID r) "system" "" ""
                                (clock W (now_reads s)) "" Time_zero 0))
           (set_now_reads (S (now_reads s)) s) = Done tt s'.
Proof.
  unfold broadcastUserLeft. intros H.
  apply bind_Done in H as (r & s1 & Hg & H). apply get_room_Done in Hg as [Hr ->].
  exists r. split; [exact Hr|]. exact H.
Qed.

Lemma broadcastUserJoined_Done room userName s s' :
  broadcastUserJoined W room userName s = Done tt s' ->
  exists r, room_heap s !! room = Some r /\
    notify (elements (Clients r))
           (marshal_or_nil W (mkEncryptedMessage "user_joined" (ID r) "system" "" ""
                                (clock W (now_reads s)) "" Time_zero 0))
           (set_now_reads (S (now_reads s)) s) = Done tt s'.
Proof.
  unfold broadcastUserJoined. intros H.
  apply bind_Done in H as (r & s1 & Hg & H). apply get_room_Done in Hg as [Hr ->].
  exists r. split; [exact Hr|]. exact H.
Qed.



End Leave.

Section Join.
Variable W : World.

(** The room a join resolves to: the registered one, or a fresh one. *)
Lemma JoinRoom_Done client roomID userID userName s res s' :
  JoinRoom W client roomID userID userName s = Done res s' ->
  exists s0 room r cl,
    (* the state after the room has been resolved *)
    (match rooms s !! roomID with
     | Some room' => room' = room /\ s0 = s
     | None => CreateRoom W roomID "Chat Room" s = Done room s0
     end) /\
    room_heap s0 !! room = Some r /\
    client_heap s0 !! client = Some cl /\
    res = None /\
    notify (elements ({[client]} ∪ Clients r))
      (marshal_or_nil W (mkEncryptedMessage "user_joined" (ID r) "system" "" ""
                           (clock W (now_reads s0)) "" Time_zero 0))
      (set_now_reads (S (now_reads s0))
         (set_spawned (fun l => l ++ [(client, room)])
            (set_log (fun l => l ++ [LogJoined userName userID roomID])
               (set_room_heap <[room := set_Clients (fun cl => {[client]} ∪ cl) r]>
                  (set_client_heap
                     <[client := mkClient (Some room) userID userName (Send cl)]> s0)))))
      = Done tt s'.
Proof.
  intros H. unfold JoinRoom in H. unfold bind at 1, get at 1 in H.
  apply bind_Done in H as (room & s0 & Hres & H).
  apply bind_Done in H as (r & s1 & Hg & H). apply get_room_Done in Hg as [Hr ->].
  apply bind_Done in H as ([] & s2 & Hu & H).
  unfold update_client in Hu. apply bind_Done in Hu as (cl & s3 & Hg & Hu).
  apply get_client_Done in Hg as [Hcl ->]. injection Hu as <-.
  assert (Hr2 : room_heap (set_client_heap
             <[client := mkClient (Some room) userID userName (Send cl)]> s0) !! room = Some r)
    by exact Hr.
  rewrite (bind_run _ _ _ _ _ (update_room_run _ _ _ _ Hr2)) in H.
  apply bind_Done in H as ([] & s4 & Hlog & H). injection Hlog as <-.
  apply bind_Done in H as ([] & s5 & Hsp & H). injection Hsp as <-.
  apply bind_Done in H as ([] & s6 & Hb & H). injection H as <- <-.
  apply broadcastUserJoined_Done in Hb as (r' & Hr' & Hn).
  cbn in Hr'. rewrite lookup_insert_eq in Hr'. injection Hr' as <-.
  exists s0, room, r, cl. split.
  { destruct (rooms s !! roomID) as [room'|]; [|exact Hres].
    injection Hres as -> ->. auto. }
  repeat split; try assumption.
Qed.

Lemma CreateRoom_Done roomID roomName s room s0 :
  CreateRoom W roomID roomName s = Done room s0 ->
  room = fresh (dom (room_heap s)) /\
  rooms s0 = <[roomID := room]> (rooms s) /\
  room_heap s0 = <[room := mkChatRoom roomID roomName ∅ [] (clock W (now_reads s))]> (room_heap s) /\
  client_heap s0 = client_heap s.
Proof.
  unfold CreateRoom. intros H. injection H as <- <-. auto.
Qed.

(** C7, as amended.  When [JoinRoom] completes, the joiner is a member of
    the room registered under the room id, and the user_joined frame has
    been offered without blocking to every other member: it is at the end
    of the queue of each other member whose queue had room, and the queue
    of a member with 256 pending frames is left as it was. *)
Theorem JoinRoom_notifies_other_members client roomID userID userName s res s' :
  JoinRoom W client roomID userID userName s = Done res s' ->
  exists room r' now,
    rooms s' !! roomID = Some room /\
    room_heap s' !! room = Some r' /\
    client ∈ Clients r' /\
    forall member, member ∈ Clients r' -> member <> client ->
      exists c c',
        client_heap s !! member = Some c /\
        client_heap s' !! member = Some c' /\
        queue (Send c') =
          if (length (queue (Send c)) <? 256)%nat
          then queue (Send c) ++
               [marshal_or_nil W (mkEncryptedMessage "user_joined" (ID r') "system" "" ""
                                    now "" Time_zero 0)]
          else queue (Send c).
Proof.
  intros H. apply JoinRoom_Done in H as (s0 & room & r & cl & Hres & Hr & Hcl & -> & Hn).
  set (r' := set_Clients (fun cl => {[client]} ∪ cl) r).
  exists room, r', (clock W (now_reads s0)).
  pose proof (notify_Done _ _ _ _ Hn) as (Hco & _ & _).
  assert (Hheap0 : client_heap s0 = client_heap s /\ rooms s0 !! roomID = Some room).
  { destruct (rooms s !! roomID) as [room'|] eqn:Hreg.
    - destruct Hres as [-> ->]. auto.
    - apply CreateRoom_Done in Hres as (_ & -> & _ & ->).
      split; [reflexivity|apply lookup_insert_eq]. }
  destruct Hheap0 as [Hheap0 Hreg0].
  split; [rewrite (clients_only_rooms _ _ Hco); exact Hreg0|].
  split; [rewrite (clients_only_room_heap _ _ Hco); cbn; apply lookup_insert_eq|].
  split; [cbn; apply elem_of_union_l, elem_of_singleton; reflexivity|].
  intros member Hin Hne.
  assert (Hm : exists c, client_heap s0 !! member = Some c).
  { (* a member that the loop visited exists, or the loop would have panicked *)
    clear -Hn Hin Hne. cbn in Hin.
    apply elem_of_elements in Hin. revert Hin Hn.
    generalize (elements ({[client]} ∪ Clients r)).
    generalize (marshal_or_nil W (mkEncryptedMessage "user_joined" (ID r) "system" "" ""
                  (clock W (now_reads s0)) "" Time_zero 0)).
    intros data l Hin. 
    set (st := set_now_reads _ _).
    assert (Hst : client_heap st !! member = client_heap s0 !! member)
      by (subst st; cbn; rewrite lookup_insert_ne by congruence; reflexivity).
    rewrite <- Hst. clearbody st. clear Hst. revert st.
    induction l as [|c l IH]; intros st Hn; [inversion Hin|].
    cbn [notify] in Hn. apply bind_Done in Hn as (b & s1 & Hs & Hn).
    apply try_send_Done in Hs as (c0 & Hc0 & _ & _ & ->).
    apply elem_of_cons in Hin as [->|Hin]; [eauto|].
    destruct (IH Hin _ Hn) as (c1 & Hc1). cbn in Hc1.
    destruct (decide (c = member)) as [->|Hne']; [eauto|].
    rewrite lookup_insert_ne in Hc1 by exact Hne'. eauto. }
  destruct Hm as (c & Hc). exists c.
  destruct (notify_queue _ _ _ _ (NoDup_elements _) Hn member c) as (c' & Hc' & HS).
  { cbn. rewrite lookup_insert_ne by congruence. exact Hc. }
  exists c'. rewrite <- Hheap0. split; [exact Hc|]. split; [exact Hc'|].
  rewrite HS. rewrite bool_decide_eq_true_2 by (apply elem_of_elements; exact Hin).
  unfold offer. change Send_capacity with 256%nat.
  destruct (_ <? _)%nat; reflexivity.
Qed.

End Join.

(** [JoinRoom_notifies_other_members] on a concrete run: alice joins the
    room in which bob is. *)
Lemma JoinRoom_notifies_other_members_witness :
  exists room r' now,
    rooms (exec (JoinRoom tick_world 2 "r1" "user-a" "alice") bob_joined) !! "r1"%string
      = Some room /\
    room_heap (exec (JoinRoom tick_world 2 "r1" "user-a" "alice") bob_joined) !! room
      = Some r' /\
    2%nat ∈ Clients r' /\
    forall member, member ∈ Clients r' -> member <> 2%nat ->
      exists c c',
        client_heap bob_joined !! member = Some c /\
        client_heap (exec (JoinRoom tick_world 2 "r1" "user-a" "alice") bob_joined) !! member
          = Some c' /\
        queue (Send c') =
          if (length (queue (Send c)) <? 256)%nat
          then queue (Send c) ++
               [marshal_or_nil tick_world
                  (mkEncryptedMessage "user_joined" (ID r') "system" "" ""
                     now "" Time_zero 0)]
          else queue (Send c).
Proof.
  apply (JoinRoom_notifies_other_members tick_world 2 "r1" "user-a" "alice"
           bob_joined None).
  vm_compute. reflexivity.
Defined.

(** C7, as first stated, fails: bob is a member of "r1" with 256 frames
    pending; alice joins; bob is still a member and his queue is exactly
    what it was, so the user_joined frame of alice's join is not in it. *)
Lemma JoinRoom_skips_full_queue :
  exists s' r b,
    JoinRoom tick_world 2 "r1" "user-a" "alice" crowded = Done None s' /\
    room_heap s' !! 0%nat = Some r /\ 0%nat ∈ Clients r /\ 2%nat ∈ Clients r /\
    client_heap crowded !! 0%nat = Some b /\
    client_heap s' !! 0%nat = Some b /\
    length (queue (Send b)) = 256%nat.
Proof.
  eexists _, _, _. split; [vm_compute; reflexivity|].
  split; [vm_compute; reflexivity|].
  split; [apply (bool_decide_unpack _); vm_compute; exact I|].
  split; [apply (bool_decide_unpack _); vm_compute; exact I|].
  split; [vm_compute; reflexivity|].
  split; [vm_compute; reflexivity|].
  vm_compute. reflexivity.
Qed.

Section Eviction.
Variable W : World.

Lemma isOld_iff now created :
  (24 * Hour <? Time_Sub now created) = true <-> created + 24 * Hour < now.
Proof.
  rewrite Z.ltb_lt. unfold Time_Sub, Hour. rewrite Minute_val, minInt64_val, maxInt64_val.
  destruct (Z.ltb_spec (now - created) (-9223372036854775808)); [lia|].
  destruct (Z.ltb_spec 9223372036854775807 (now - created)); lia.
Qed.

Lemma LeaveRoom_member_rooms client s s' cl room r :
  client_heap s !! client = Some cl -> client_Room cl = Some room ->
  room_heap s !! room = Some r -> client ∈ Clients r ->
  LeaveRoom W client s = Done tt s' ->
  rooms s' = if bool_decide (size (Clients r ∖ {[client]}) = 0%nat)
             then delete (ID r) (rooms s) else rooms s.
Proof.
  intros Hcl Hroom Hr Hin H. unfold LeaveRoom in H.
  rewrite (bind_run _ _ _ _ _ (get_client_run _ _ _ Hcl)) in H. rewrite Hroom in H.
  rewrite (bind_run _ _ _ _ _ (get_room_run _ _ _ Hr)) in H.
  rewrite bool_decide_eq_true_2 in H by exact Hin.
  rewrite (bind_run _ _ _ _ _ (update_room_run _ _ _ _ Hr)) in H.
  apply bind_Done in H as ([] & s2 & Hclose & H).
  apply close_Send_Done in Hclose as (cl2 & Hcl2 & Hopen & ->).
  apply bind_Done in H as ([] & s3 & Hlog & H). injection Hlog as <-.
  apply bind_Done in H as ([] & s4 & Hb & H).
  apply broadcastUserLeft_Done in Hb as (r1 & Hr1 & Hn).
  cbn in Hr1. rewrite lookup_insert_eq in Hr1. injection Hr1 as <-.
  apply notify_Done in Hn as (Hco & _ & _).
  assert (Hheap4 : room_heap s4 !! room = Some (set_Clients (fun cl => cl ∖ {[client]}) r)).
  { rewrite (clients_only_room_heap _ _ Hco). cbn. apply lookup_insert_eq. }
  rewrite (bind_run _ _ _ _ _ (get_room_run _ _ _ Hheap4)) in H.
  cbn [Clients set_Clients ID] in H. unfold when in H.
  pose proof (clients_only_rooms _ _ Hco) as Hrooms. cbn in Hrooms.
  destruct (bool_decide _).
  - apply bind_Done in H as ([] & s5 & Hm & H). injection Hm as <-.
    injection H as <-. cbn. rewrite Hrooms. reflexivity.
  - injection H as <-. exact Hrooms.
Qed.

Lemma cleanup_loop_run l : forall s,
  (forall k room, (k, room) ∈ l -> is_Some (room_heap s !! room)) ->
  exists s',
    cleanup_loop W l s = Done tt s' /\
    room_heap s' = room_heap s /\
    now_reads s' = (now_reads s + length l)%nat /\
    forall k,
      (rooms s' !! k = None <->
       rooms s !! k = None \/
       exists i room r, l !! i = Some (k, room) /\ room_heap s !! room = Some r /\
         size (Clients r) = 0%nat /\
         CreatedAt r + 24 * Hour < clock W (now_reads s + i)) /\
      (forall v, rooms s' !! k = Some v -> rooms s !! k = Some v).
Proof.
  induction l as [|[k0 room0] l IH]; intros s Hwf.
  - exists s. split; [reflexivity|]. split; [reflexivity|]. split; [cbn; lia|].
    intros k. split; [|auto]. split; [auto|].
    intros [H|(i & room & r & Hi & _)]; [exact H|]. rewrite lookup_nil in Hi. discriminate.
  - destruct (Hwf k0 room0 ltac:(left)) as (r0 & Hr0).
    cbn [cleanup_loop].
    rewrite (bind_run _ _ _ _ _ (get_room_run _ _ _ Hr0)).
    unfold bind at 1, time_Now at 1.
    set (cond := bool_decide (size (Clients r0) = 0%nat) &&
                 (24 * Hour <? Time_Sub (clock W (now_reads s)) (CreatedAt r0))).
    set (s1 := if cond
               then set_log (fun l => l ++ [LogCleanedRoom k0])
                      (set_rooms (delete k0) (set_now_reads (S (now_reads s)) s))
               else set_now_reads (S (now_reads s)) s).
    assert (Hstep : forall k : unit -> M unit, bind (when cond (modify (set_rooms (delete k0));;
                                   log_Printf (LogCleanedRoom k0))) k
                                (set_now_reads (S (now_reads s)) s) = k tt s1).
    { intros k. subst s1. destruct cond; reflexivity. }
    rewrite Hstep.
    assert (Hh1 : room_heap s1 = room_heap s) by (subst s1; destruct cond; reflexivity).
    assert (Hn1 : now_reads s1 = S (now_reads s)) by (subst s1; destruct cond; reflexivity).
    assert (Hrooms1 : rooms s1 = if cond then delete k0 (rooms s) else rooms s)
      by (subst s1; destruct cond; reflexivity).
    destruct (IH s1) as (s' & Hrun & Hh & Hn & Hk).
    { intros k room Hin. rewrite Hh1. apply (Hwf k room). right. exact Hin. }
    exists s'. split; [exact Hrun|]. split; [congruence|].
    split; [rewrite Hn, Hn1; cbn; lia|].
    assert (Hcond : cond = true <->
              size (Clients r0) = 0%nat /\
              CreatedAt r0 + 24 * Hour < clock W (now_reads s)).
    { subst cond. rewrite andb_true_iff, bool_decide_eq_true, isOld_iff. reflexivity. }
    intros k. destruct (Hk k) as [Hnone Hsome]. split.
    + rewrite Hnone, Hrooms1. split.
      * intros [H|(i & room & r & Hi & Hr & He & Ho)].
        -- destruct cond eqn:Ec; [|left; exact H].
           destruct (decide (k0 = k)) as [->|Hne].
           ++ right. exists 0%nat, room0, r0. rewrite Nat.add_0_r.
              destruct Hcond as [Hc _]. destruct (Hc eq_refl). auto.
           ++ rewrite lookup_delete_ne in H by exact Hne. left. exact H.
        -- right. exists (S i), room, r. rewrite Hh1, Hn1 in *.
           replace (now_reads s + S i)%nat with (S (now_reads s) + i)%nat by lia. auto.
      * intros [H|(i & room & r & Hi & Hr & He & Ho)].
        -- left. destruct cond; [|exact H].
           destruct (decide (k0 = k)) as [->|Hne];
             [apply lookup_delete_eq|rewrite lookup_delete_ne by exact Hne; exact H].
        -- destruct i as [|i].
           ++ cbn in Hi. injection Hi as -> ->. rewrite Hr0 in Hr. injection Hr as <-.
              rewrite Nat.add_0_r in Ho. destruct Hcond as [_ Hc]. rewrite (Hc (conj He Ho)).
              left. apply lookup_delete_eq.
           ++ right. exists i, room, r. rewrite Hh1, Hn1.
              replace (S (now_reads s) + i)%nat with (now_reads s + S i)%nat by lia. auto.
    + intros v Hv. apply Hsome in Hv. rewrite Hrooms1 in Hv.
      destruct cond; [|exact Hv].
      destruct (decide (k0 = k)) as [->|Hne].
      * rewrite lookup_delete_eq in Hv. discriminate.
      * rewrite lookup_delete_ne in Hv by exact Hne. exact Hv.
Qed.

End Eviction.

(** C8, as amended.  A room emptied by [LeaveRoom] (explicit leave or
    transport close) is absent from the registry as soon as the call
    returns.  The idle sweep, on a registry whose entries point to rooms,
    completes and removes every registered room that has no member and was
    created more than 24 hours before the readings of the sweep; a room
    that has a member, or is not older than 24 hours at those readings,
    stays registered. *)
Theorem empty_room_eviction W :
  (forall client s s' cl room r,
      client_heap s !! client = Some cl -> client_Room cl = Some room ->
      room_heap s !! room = Some r -> Clients r = {[client]} ->
      LeaveRoom W client s = Done tt s' ->
      rooms s' !! ID r = None) /\
  (forall s,
      (forall k room, rooms s !! k = Some room -> is_Some (room_heap s !! room)) ->
      exists s',
        cleanup_tick W s = Done tt s' /\
        forall roomID room r,
          rooms s !! roomID = Some room -> room_heap s !! room = Some r ->
          (Clients r = ∅ ->
           (forall i, (i < size (rooms s))%nat ->
              CreatedAt r + 24 * Hour < clock W (now_reads s + i)) ->
           rooms s' !! roomID = None) /\
          (Clients r <> ∅ \/
           (forall i, (i < size (rooms s))%nat ->
              clock W (now_reads s + i) <= CreatedAt r + 24 * Hour) ->
           rooms s' !! roomID = Some room)).
Proof.
  split.
  - intros client s s' cl room r Hcl Hroom Hr Hclients H.
    rewrite (LeaveRoom_member_rooms W _ _ _ _ _ _ Hcl Hroom Hr) by
      (try exact H; rewrite Hclients; apply elem_of_singleton; reflexivity).
    rewrite Hclients, difference_diag_L, size_empty.
    rewrite bool_decide_eq_true_2 by reflexivity. apply lookup_delete_eq.
  - intros s Hwf.
    destruct (cleanup_loop_run W (map_to_list (rooms s)) s) as (s' & Hrun & _ & _ & Hk).
    { intros k room Hin. apply elem_of_map_to_list in Hin. eauto. }
    exists s'. split; [exact Hrun|].
    intros roomID room r Hreg Hr. destruct (Hk roomID) as [Hnone Hsome].
    assert (Hlen : length (map_to_list (rooms s)) = size (rooms s))
      by apply length_map_to_list.
    split.
    + intros Hempty Hold. apply Hnone. right.
      apply elem_of_map_to_list, list_elem_of_lookup in Hreg as (i & Hi).
      exists i, room, r. split; [exact Hi|]. split; [exact Hr|].
      split; [rewrite Hempty; apply size_empty|].
      apply Hold. rewrite <- Hlen. eapply lookup_lt_Some. exact Hi.
    + intros Hkeep. destruct (rooms s' !! roomID) as [v|] eqn:Hv.
      * specialize (Hsome v eq_refl). congruence.
      * destruct Hnone as [Hnone _].
        destruct (Hnone eq_refl) as [Hv'|(i & room' & r' & Hi & Hr' & He & Ho)]; [congruence|].
        assert (room' = room) as ->.
        { apply list_elem_of_lookup_2, elem_of_map_to_list in Hi. congruence. }
        rewrite Hr in Hr'. injection Hr' as <-.
        destruct Hkeep as [Hne|Hyoung].
        -- apply size_empty_inv in He. exfalso. apply Hne.
           apply leibniz_equiv. exact He.
        -- specialize (Hyoung i). rewrite <- Hlen in Hyoung.
           specialize (Hyoung (lookup_lt_Some _ _ _ Hi)). lia.
Qed.

Lemma solo_dropped_rooms : rooms solo_dropped = <["r1"%string := 0%nat]> ∅.
Proof. vm_compute. reflexivity. Qed.

(** [empty_room_eviction] on concrete runs: bob, alone in "r1", leaves;
    and a sweep 25 hours after the creation of an emptied room. *)
Lemma empty_room_eviction_witness :
  rooms (exec (LeaveRoom tick_world 0) bob_joined) !! "r1"%string = None /\
  exists s',
    cleanup_tick (later_world (25 * Hour)) solo_dropped = Done tt s' /\
    rooms s' !! "r1"%string = None.
Proof.
  destruct (empty_room_eviction tick_world) as [Hleave _].
  destruct (empty_room_eviction (later_world (25 * Hour))) as [_ Hsweep].
  split.
  - apply (Hleave 0%nat bob_joined (exec (LeaveRoom tick_world 0) bob_joined)
             (mkClient (Some 0%nat) "user-b" "bob" (Send (mkClient None "" "" (mkChan
                [marshal_or_nil tick_world
                   (mkEncryptedMessage "user_joined" "r1" "system" "" "" t0 "" Time_zero 0)]
                false))))
             0%nat (mkChatRoom "r1" "Chat Room" {[0%nat]} [] t0)).
    + vm_compute. reflexivity.
    + reflexivity.
    + vm_compute. reflexivity.
    + reflexivity.
    + vm_compute. reflexivity.
  - destruct (Hsweep solo_dropped) as (s' & Hrun & Hspec).
    + intros k room. rewrite solo_dropped_rooms.
      intros [[<- <-]|[_ Hk]]%lookup_insert_Some; [|rewrite lookup_empty in Hk; discriminate].
      vm_compute. eauto.
    + exists s'. split; [exact Hrun|].
      assert (Hr : exists r, room_heap solo_dropped !! 0%nat = Some r /\
                     Clients r = ∅ /\ CreatedAt r = t0).
      { eexists. split; [vm_compute; reflexivity|]. split; reflexivity. }
      destruct Hr as (r & Hr & Hempty & Hcreated).
      destruct (Hspec "r1"%string 0%nat r) as [Hgone _].
      * vm_compute. reflexivity.
      * exact Hr.
      * apply Hgone; [exact Hempty|].
        intros i Hi. rewrite Hcreated.
        replace (size (rooms solo_dropped)) with 1%nat in Hi
          by (vm_compute; reflexivity).
        assert (i = 0%nat) as -> by lia. vm_compute. reflexivity.
Defined.

Section Send.
Variable W : World.

Lemma charset_at_run i :
  0 <= i < 62 ->
  exists c, String.get (Z.to_nat i) charset = Some c.
Proof.
  intros Hi. assert (Hn : (Z.to_nat i < 62)%nat) by lia.
  generalize dependent (Z.to_nat i). intros n Hn.
  do 62 (destruct n as [|n]; [eexists; reflexivity|]). lia.
Qed.

Lemma generateRandomString_run len : forall s,
  clock_sane W ->
  generateRandomString W len s =
    Done (suffix_from W (now_reads s) len) (set_now_reads (now_reads s + len) s).
Proof.
  induction len as [|len IH]; intros s Hsane.
  - cbn. unfold ret. rewrite Nat.add_0_r. unfold set_now_reads. rewrite State_eta. reflexivity.
  - cbn [generateRandomString suffix_from]. unfold bind at 1, time_Now at 1.
    unfold charset_at, charset_byte.
    set (i := Z.rem _ _).
    assert (Hi : 0 <= i < 62).
    { subst i. specialize (Hsane (now_reads s)).
      change (Z.of_nat (String.length charset)) with 62.
      unfold Time_UnixNano. rewrite wrap64_small by (rewrite minInt64_val; lia).
      pose proof (Z.rem_bound_pos (clock W (now_reads s)) 62). lia. }
    destruct (Z.ltb_spec i 0); [lia|].
    destruct (charset_at_run i Hi) as (c & Hc). rewrite Hc.
    unfold bind at 1, ret at 1. unfold bind at 1. rewrite IH by exact Hsane.
    cbn. unfold ret. f_equal. unfold set_now_reads. cbn. f_equal. lia.
Qed.

Lemma generateMessageID_run s :
  clock_sane W ->
  generateMessageID W s =
    Done (messageID_from W (now_reads s)) (set_now_reads (now_reads s + 7) s).
Proof.
  intros Hsane. unfold generateMessageID, bind at 1, time_Now at 1.
  unfold bind at 1. rewrite generateRandomString_run by exact Hsane.
  cbn. unfold ret, messageID_from. f_equal. unfold set_now_reads. cbn. f_equal. lia.
Qed.

(** [checkRateLimit] always returns, and touches the limiter of the user
    and the clock only. *)
Lemma checkRateLimit_Done userID s :
  exists rl n,
    match rateLimiter s !! userID with
    | Some rl0 => rl = rl0 /\ n = now_reads s
    | None => rl = mkRateLimiter 30 30 (clock W (now_reads s)) /\ n = S (now_reads s)
    end /\
    checkRateLimit W userID s =
      Done (allow_at (clock W n) rl).1
           (mkState (rooms s) (redisClient s)
                    (<[userID := (allow_at (clock W n) rl).2]> (rateLimiter s))
                    (room_heap s) (client_heap s) (spawned s) (log s) (S n)
                    (redis_calls s)).
Proof.
  destruct (rateLimiter s !! userID) as [rl0|] eqn:Hl.
  - exists rl0, (now_reads s). split; [auto|].
    rewrite (checkRateLimit_known _ _ _ _ Hl), (allow_run _ _ _ _ Hl). reflexivity.
  - eexists _, _. split; [split; reflexivity|].
    rewrite (checkRateLimit_new _ _ _ Hl).
    erewrite allow_run by (cbn; apply lookup_insert_eq).
    cbn. unfold set_rateLimiter. cbn. rewrite insert_insert_eq. reflexivity.
Qed.

Lemma checkRateLimit_frame userID s b s1 :
  checkRateLimit W userID s = Done b s1 ->
  rooms s1 = rooms s /\ redisClient s1 = redisClient s /\
  room_heap s1 = room_heap s /\ client_heap s1 = client_heap s /\
  spawned s1 = spawned s /\ log s1 = log s /\ redis_calls s1 = redis_calls s.
Proof.
  destruct (checkRateLimit_Done userID s) as (rl & n & _ & ->).
  intros [= _ <-]. repeat split.
Qed.

End Send.

Section Store.
Variable W : World.

Lemma redis_cmd_run {A} (f : Time -> Redis -> Reply A * Redis) s r :
  redisClient s = Some r ->
  redis_cmd W f s =
    Done (redis_step W f (redis_calls s) r).1
         (set_redis_calls (S (redis_calls s))
            (set_redisClient (Some (redis_step W f (redis_calls s) r).2) s)).
Proof.
  intros Hr. unfold redis_cmd, redis_step. rewrite Hr.
  destruct (redis_fail W (redis_calls s)).
  - cbn [fst snd]. f_equal. unfold set_redis_calls, set_redisClient. cbn. rewrite <- Hr.
    reflexivity.
  - destruct (f _ r) as [rep r']. reflexivity.
Qed.

Lemma redis_only_refl s : redis_only s s.
Proof. unfold redis_only, set_redis_calls, set_redisClient. cbn. symmetry. apply State_eta. Qed.

Lemma redis_only_trans s1 s2 s3 :
  redis_only s1 s2 -> redis_only s2 s3 -> redis_only s1 s3.
Proof.
  unfold redis_only. intros H12 H23. rewrite H23 at 1. rewrite H12 at 1. reflexivity.
Qed.

Lemma redis_cmd_only {A} (f : Time -> Redis -> Reply A * Redis) s r :
  redisClient s = Some r ->
  exists rep s', redis_cmd W f s = Done rep s' /\ redis_only s s' /\
    redis_calls s' = S (redis_calls s) /\
    redisClient s' = Some (redis_step W f (redis_calls s) r).2 /\
    rep = (redis_step W f (redis_calls s) r).1.
Proof.
  intros Hr. rewrite (redis_cmd_run _ _ _ Hr). eexists _, _. split; [reflexivity|].
  repeat split.
Qed.

(** [storeMessageInRedis] always returns (the client is not nil), and
    touches nothing but the Redis server. *)
Lemma storeMessageInRedis_only message s r :
  redisClient s = Some r ->
  exists err s', storeMessageInRedis W message s = Done err s' /\
    redis_only s s' /\ is_Some (redisClient s') /\
    (redis_fail W (redis_calls s) = true -> is_Some err).
Proof.
  intros Hr. unfold storeMessageInRedis.
  destruct (json_Marshal W message) as [data|].
  2:{ eexists _, _. split; [reflexivity|]. split; [apply redis_only_refl|].
      split; [rewrite Hr; eauto|eauto]. }
  destruct (redis_cmd_only (redis_SET (messageKey (Room message) (MessageID message)) data
              (MessageExpiration messageConfig)) s r Hr) as (r1 & s1 & H1 & Ho1 & Hn1 & Hc1 & Hr1).
  rewrite (bind_run _ _ _ _ _ H1).
  destruct (is_RErr r1) eqn:E1.
  { eexists _, _. split; [reflexivity|]. split; [exact Ho1|]. split; [rewrite Hc1; eauto|eauto]. }
  destruct (redis_cmd_only (redis_ZADD (roomKey (Room message)) (Time_Unix (Timestamp message))
              (MessageID message)) s1 _ Hc1) as (r2 & s2 & H2 & Ho2 & Hn2 & Hc2 & Hr2).
  rewrite (bind_run _ _ _ _ _ H2).
  assert (Hfail : redis_fail W (redis_calls s) = true -> False).
  { intros Hf. rewrite Hr1 in E1. unfold redis_step in E1. rewrite Hf in E1. discriminate. }
  destruct (is_RErr r2) eqn:E2.
  { eexists _, _. split; [reflexivity|].
    split; [eapply redis_only_trans; eassumption|]. split; [rewrite Hc2; eauto|eauto]. }
  destruct (redis_cmd_only (redis_EXPIRE (roomKey (Room message))
              (MessageExpiration messageConfig)) s2 _ Hc2) as (r3 & s3 & H3 & Ho3 & Hn3 & Hc3 & Hr3).
  rewrite (bind_run _ _ _ _ _ H3).
  destruct (redis_cmd_only (redis_ZREMRANGEBYRANK (roomKey (Room message)) 0
              (- MaxRoomMessages messageConfig - 1)) s3 _ Hc3) as (r4 & s4 & H4 & Ho4 & Hn4 & Hc4 & Hr4).
  rewrite (bind_run _ _ _ _ _ H4).
  eexists _, _. split; [reflexivity|].
  split; [repeat (eapply redis_only_trans; [eassumption|]); apply redis_only_refl|].
  split; [rewrite Hc4; eauto|]. intros Hf. destruct (Hfail Hf).
Qed.

Lemma redis_ZADD_strings key score member now r :
  rstrings (redis_ZADD key score member now r).2 = rstrings r.
Proof. unfold redis_ZADD. destruct (zset_at now key r). reflexivity. Qed.

Lemma redis_EXPIRE_strings key ttl now r :
  rstrings (redis_EXPIRE key ttl now r).2 = rstrings r.
Proof. unfold redis_EXPIRE. destruct (zset_at now key r) as [[|x l] d]; reflexivity. Qed.

Lemma redis_ZREMRANGEBYRANK_strings key a b now r :
  rstrings (redis_ZREMRANGEBYRANK key a b now r).2 = rstrings r.
Proof.
  unfold redis_ZREMRANGEBYRANK. destruct (zset_at now key r) as [l d].
  destruct (unslice l a b); reflexivity.
Qed.

Lemma redis_step_strings {A} (f : Time -> Redis -> Reply A * Redis) n r :
  (forall now r0, rstrings (f now r0).2 = rstrings r0) ->
  rstrings (redis_step W f n r).2 = rstrings r.
Proof. intros Hf. unfold redis_step. destruct (redis_fail W n); [reflexivity|apply Hf]. Qed.

(** When the SET of [storeMessageInRedis] goes through, the blob of the
    message is under its key with the message lifetime as time to live,
    whatever the later commands do. *)
Lemma storeMessageInRedis_blob message s rd data err s' :
  redisClient s = Some rd ->
  json_Marshal W message = Some data ->
  redis_fail W (redis_calls s) = false ->
  storeMessageInRedis W message s = Done err s' ->
  exists rd', redisClient s' = Some rd' /\
    rstrings rd' !! messageKey (Room message) (MessageID message) =
      Some (data, redis_clock W (redis_calls s) + MessageExpiration messageConfig).
Proof.
  intros Hrd Hdata Hok H. unfold storeMessageInRedis in H. rewrite Hdata in H.
  destruct (redis_cmd_only (redis_SET (messageKey (Room message) (MessageID message)) data
              (MessageExpiration messageConfig)) s rd Hrd) as (r1 & s1 & H1 & Ho1 & Hn1 & Hc1 & Hr1).
  rewrite (bind_run _ _ _ _ _ H1) in H.
  assert (Hblob : rstrings (redis_step W (redis_SET (messageKey (Room message)
              (MessageID message)) data (MessageExpiration messageConfig)) (redis_calls s) rd).2
            !! messageKey (Room message) (MessageID message) =
            Some (data, redis_clock W (redis_calls s) + MessageExpiration messageConfig)).
  { unfold redis_step. rewrite Hok. cbn. apply lookup_insert_eq. }
  set (rd1 := (redis_step W _ (redis_calls s) rd).2) in *.
  destruct (is_RErr r1).
  { injection H as _ <-. eauto. }
  destruct (redis_cmd_only (redis_ZADD (roomKey (Room message)) (Time_Unix (Timestamp message))
              (MessageID message)) s1 _ Hc1) as (r2 & s2 & H2 & Ho2 & Hn2 & Hc2 & Hr2).
  rewrite (bind_run _ _ _ _ _ H2) in H.
  set (rd2 := (redis_step W _ (redis_calls s1) rd1).2) in *.
  assert (Hblob2 : rstrings rd2 = rstrings rd1)
    by (apply redis_step_strings; intros; apply redis_ZADD_strings).
  destruct (is_RErr r2).
  { injection H as _ <-. exists rd2. rewrite Hblob2. auto. }
  destruct (redis_cmd_only (redis_EXPIRE (roomKey (Room message))
              (MessageExpiration messageConfig)) s2 _ Hc2) as (r3 & s3 & H3 & Ho3 & Hn3 & Hc3 & Hr3).
  rewrite (bind_run _ _ _ _ _ H3) in H.
  set (rd3 := (redis_step W _ (redis_calls s2) rd2).2) in *.
  assert (Hblob3 : rstrings rd3 = rstrings rd2)
    by (apply redis_step_strings; intros; apply redis_EXPIRE_strings).
  destruct (redis_cmd_only (redis_ZREMRANGEBYRANK (roomKey (Room message)) 0
              (- MaxRoomMessages messageConfig - 1)) s3 _ Hc3) as (r4 & s4 & H4 & Ho4 & Hn4 & Hc4 & Hr4).
  rewrite (bind_run _ _ _ _ _ H4) in H.
  set (rd4 := (redis_step W _ (redis_calls s3) rd3).2) in *.
  assert (Hblob4 : rstrings rd4 = rstrings rd3)
    by (apply redis_step_strings; intros; apply redis_ZREMRANGEBYRANK_strings).
  injection H as _ <-. exists rd4. rewrite Hblob4, Hblob3, Hblob2. auto.
Qed.

End Store.

Lemma bind_assoc {A B C} (m : M A) (k : A -> M B) (h : B -> M C) s :
  bind (bind m k) h s = bind m (fun a => bind (k a) h) s.
Proof. unfold bind. destruct (m s); reflexivity. Qed.

Section Fanout.

Lemma fanout_run room data l : forall s r,
  NoDup l -> room_heap s !! room = Some r ->
  (forall c, c ∈ l -> exists cl, client_heap s !! c = Some cl /\ closed (Send cl) = false) ->
  exists s' r',
    fanout room l data s = Done tt s' /\
    s' = mkState (rooms s) (redisClient s) (rateLimiter s) (room_heap s') (client_heap s')
                 (spawned s) (log s) (now_reads s) (redis_calls s) /\
    room_heap s' !! room = Some r' /\
    (forall room', room' <> room -> room_heap s' !! room' = room_heap s !! room') /\
    Messages r' = Messages r /\ ID r' = ID r /\ Name r' = Name r /\
    CreatedAt r' = CreatedAt r /\ Clients r' ⊆ Clients r.
Proof.
  induction l as [|c l IH]; intros s r Hnd Hr Hopen.
  - exists s, r. split; [reflexivity|]. split; [symmetry; apply State_eta|].
    split; [exact Hr|]. repeat split; auto.
  - apply NoDup_cons in Hnd as [Hnotin Hnd].
    destruct (Hopen c ltac:(left)) as (cl & Hcl & Hcopen).
    cbn [fanout]. rewrite (bind_run _ _ _ _ _ (try_send_run _ data _ _ Hcl Hcopen)).
    set (s1 := set_client_heap _ s).
    assert (Hrest : forall st, room_heap st !! room = Some r \/ True ->
              (forall c', c' ∈ l -> client_heap st !! c' = client_heap s !! c') ->
              forall c', c' ∈ l ->
                exists cl', client_heap st !! c' = Some cl' /\ closed (Send cl') = false).
    { intros st _ Hsame c' Hin. rewrite (Hsame c' Hin). apply Hopen. right. exact Hin. }
    destruct (length (queue (Send cl)) <? Send_capacity)%nat eqn:Hroom.
    + (* queued *)
      unfold when, negb. unfold bind at 1, ret at 1.
      destruct (IH s1 r Hnd Hr) as (s' & r' & Hrun & Hs' & Hr' & Hother & Hrest').
      { apply (Hrest s1); [auto|]. intros c' Hin. subst s1. cbn.
        rewrite lookup_insert_ne by (intros ->; contradiction). reflexivity. }
      exists s', r'. split; [exact Hrun|]. split; [exact Hs'|]. auto.
    + (* queue full: the client is removed and its queue closed *)
      unfold when, negb.
      assert (Hr1 : room_heap s1 !! room = Some r) by exact Hr.
      rewrite bind_assoc, (bind_run _ _ _ _ _ (update_room_run _ _ _ _ Hr1)).
      set (s2 := set_room_heap _ s1).
      assert (Hcl2 : client_heap s2 !! c = Some (set_Send (offer data (Send cl)) cl))
        by (subst s2 s1; cbn; apply lookup_insert_eq).
      unfold close_Send. rewrite bind_assoc, (bind_run _ _ _ _ _ (get_client_run _ _ _ Hcl2)).
      unfold chan_close. cbn [Send set_Send]. unfold offer at 1. rewrite Hroom, Hcopen.
      rewrite (bind_run _ _ _ _ _ (update_client_run _ _ _ _ Hcl2)).
      set (s3 := set_client_heap _ s2).
      destruct (IH s3 (set_Clients (fun cl => cl ∖ {[c]}) r) Hnd)
        as (s' & r' & Hrun & Hs' & Hr' & Hother & HM & HI & HN & HC & Hsub).
      { subst s3 s2. cbn. apply lookup_insert_eq. }
      { apply (Hrest s3); [auto|]. intros c' Hin. subst s3 s2 s1. cbn.
        rewrite !lookup_insert_ne by (intros ->; contradiction). reflexivity. }
      exists s', r'. split; [exact Hrun|]. split; [exact Hs'|]. split; [exact Hr'|].
      split.
      { intros room' Hne. rewrite (Hother room' Hne). subst s3 s2 s1. cbn.
        rewrite lookup_insert_ne by congruence. reflexivity. }
      repeat split; try assumption.
      etransitivity; [exact Hsub|]. cbn. apply subseteq_difference_l. reflexivity.
Qed.

End Fanout.

(** ** The order of a range over the members

    Go ranges over [room.Clients] in an unspecified order; the model
    visits [elements].  Every member is visited once and a visit touches
    that member only (and, in the fan-out, removes it from the room), so
    the outcome is the same in any order. *)

Section Order.

Lemma bind_ret_r {A} (m : M A) s : bind m ret s = m s.
Proof. unfold bind, ret. destruct (m s); reflexivity. Qed.

Lemma bind_ext {A B} (m : M A) (k1 k2 : A -> M B) s :
  (forall a s1, k1 a s1 = k2 a s1) -> bind m k1 s = bind m k2 s.
Proof. intros H. unfold bind. destruct (m s); [apply H|reflexivity]. Qed.

Lemma for_each_perm (f : nat -> M unit) l l' :
  (forall x y s, x <> y -> (f x;; f y) s = (f y;; f x) s) ->
  l ≡ₚ l' -> NoDup l -> forall s, for_each f l s = for_each f l' s.
Proof.
  intros Hswap Hp. induction Hp as [|x l l' Hp IH|x y l|l1 l2 l3 H12 IH12 H23 IH23];
    intros Hnd s.
  - reflexivity.
  - apply NoDup_cons in Hnd as [_ Hnd]. cbn [for_each]. unfold bind.
    destruct (f x s) as [[] s1|]; [|reflexivity]. apply IH. exact Hnd.
  - apply NoDup_cons in Hnd as [Hy Hnd]. cbn [for_each].
    assert (Hne : y <> x) by (intros ->; apply Hy; left).
    pose proof (Hswap y x s Hne) as H. unfold bind in *.
    destruct (f y s) as [[] s1|], (f x s) as [[] s2|].
    + destruct (f x s1) as [[] s3|], (f y s2) as [[] s4|]; try discriminate; try reflexivity.
      injection H as ->. reflexivity.
    + destruct (f x s1) as [[] s3|]; [discriminate|reflexivity].
    + destruct (f y s2) as [[] s3|]; [discriminate|reflexivity].
    + reflexivity.
  - rewrite IH12 by exact Hnd. apply IH23. rewrite <- H12. exact Hnd.
Qed.

Lemma notify_for_each l data s : notify l data s = for_each (notify_one data) l s.
Proof.
  revert s. induction l as [|c l IH]; intros s; [reflexivity|].
  cbn [notify for_each]. unfold notify_one at 1. rewrite bind_assoc.
  apply bind_ext. intros b s1. unfold bind, ret. apply IH.
Qed.

Lemma fanout_for_each room l data s :
  fanout room l data s = for_each (fanout_one room data) l s.
Proof.
  revert s. induction l as [|c l IH]; intros s; [reflexivity|].
  cbn [fanout for_each]. unfold fanout_one at 1. rewrite bind_assoc.
  apply bind_ext. intros b s1. apply bind_ext. intros [] s2. apply IH.
Qed.

Lemma try_send_missing c data s :
  client_heap s !! c = None -> try_send c data s = Panic.
Proof. intros H. unfold try_send, bind, get_client. rewrite H. reflexivity. Qed.

Lemma try_send_closed c data s cl :
  client_heap s !! c = Some cl -> closed (Send cl) = true -> try_send c data s = Panic.
Proof.
  intros H Ho. unfold try_send, bind, get_client. rewrite H.
  unfold chan_try_send. rewrite Ho. reflexivity.
Qed.

Lemma update_room_missing room f s :
  room_heap s !! room = None -> update_room room f s = Panic.
Proof. intros H. unfold update_room, bind, get_room. rewrite H. reflexivity. Qed.

(** One round, as a function of the state. *)
Lemma notify_one_eq data c s :
  notify_one data c s =
    match client_heap s !! c with
    | Some cl =>
        if closed (Send cl) then Panic
        else Done tt (set_client_heap <[c := set_Send (offer data (Send cl)) cl]> s)
    | None => Panic
    end.
Proof.
  unfold notify_one. destruct (client_heap s !! c) as [cl|] eqn:Hc.
  - destruct (closed (Send cl)) eqn:Ho.
    + unfold bind. rewrite (try_send_closed c data s cl Hc Ho). reflexivity.
    + rewrite (bind_run _ _ _ _ _ (try_send_run c data s cl Hc Ho)). reflexivity.
  - unfold bind. rewrite (try_send_missing c data s Hc). reflexivity.
Qed.

Lemma fanout_one_eq room data c s :
  fanout_one room data c s =
    match client_heap s !! c with
    | Some cl =>
        if closed (Send cl) then Panic
        else if (length (queue (Send cl)) <? Send_capacity)%nat
        then Done tt (set_client_heap
                        <[c := set_Send (mkChan (queue (Send cl) ++ [data]) false) cl]> s)
        else match room_heap s !! room with
             | Some r =>
                 Done tt (set_client_heap
                            <[c := set_Send (mkChan (queue (Send cl)) true) cl]>
                            (set_room_heap
                               <[room := set_Clients (fun X => X ∖ {[c]}) r]> s))
             | None => Panic
             end
    | None => Panic
    end.
Proof.
  unfold fanout_one. destruct (client_heap s !! c) as [cl|] eqn:Hc.
  2:{ unfold bind. rewrite (try_send_missing c data s Hc). reflexivity. }
  destruct (closed (Send cl)) eqn:Ho.
  { unfold bind. rewrite (try_send_closed c data s cl Hc Ho). reflexivity. }
  rewrite (bind_run _ _ _ _ _ (try_send_run c data s cl Hc Ho)).
  unfold offer. destruct (length (queue (Send cl)) <? Send_capacity)%nat eqn:Hroom;
    cbn [negb when]; [reflexivity|].
  rewrite set_Send_id.
  destruct (room_heap s !! room) as [r|] eqn:Hr.
  - erewrite (bind_run _ _ _ _ _ (update_room_run room _ _ r _)).
    unfold close_Send.
    erewrite (bind_run _ _ _ _ _ (get_client_run c _ cl _)).
    unfold chan_close. rewrite Ho.
    erewrite update_client_run by (cbn; apply lookup_insert_eq).
    f_equal. unfold set_client_heap, set_room_heap. cbn. f_equal.
    rewrite insert_insert_eq. reflexivity.
  - unfold bind at 1. rewrite update_room_missing by exact Hr. reflexivity.
  Unshelve. all: cbn; try exact Hr; apply lookup_insert_eq.
Qed.

Ltac round_step :=
  repeat first
    [ rewrite notify_one_eq
    | rewrite fanout_one_eq
    | progress cbn [client_heap set_client_heap room_heap set_room_heap]
    | rewrite lookup_insert_ne by congruence
    | rewrite lookup_insert_eq
    | match goal with H : ?a = _ |- context [?a] => rewrite H end ].

Ltac state_eq :=
  unfold set_client_heap, set_room_heap;
  cbn [rooms redisClient rateLimiter room_heap client_heap spawned log
       now_reads redis_calls];
  f_equal.

Lemma notify_one_swap data x y s :
  x <> y ->
  (notify_one data x;; notify_one data y) s = (notify_one data y;; notify_one data x) s.
Proof.
  intros Hne. unfold bind.
  destruct (client_heap s !! x) as [cx|] eqn:Hx; [destruct (closed (Send cx)) eqn:Hox|];
  (destruct (client_heap s !! y) as [cy|] eqn:Hy; [destruct (closed (Send cy)) eqn:Hoy|]);
    round_step; try reflexivity.
  f_equal. state_eq. apply insert_insert_ne. congruence.
Qed.

Lemma set_Clients_swap x y r :
  set_Clients (fun X => X ∖ {[y]}) (set_Clients (fun X => X ∖ {[x]}) r) =
  set_Clients (fun X => X ∖ {[x]}) (set_Clients (fun X => X ∖ {[y]}) r).
Proof.
  unfold set_Clients. cbn. f_equal.
  rewrite !difference_difference_l_L. f_equal. apply union_comm_L.
Qed.

Lemma fanout_one_swap room data x y s :
  x <> y ->
  (fanout_one room data x;; fanout_one room data y) s =
  (fanout_one room data y;; fanout_one room data x) s.
Proof.
  intros Hne. unfold bind.
  destruct (client_heap s !! x) as [cx|] eqn:Hx;
    [destruct (closed (Send cx)) eqn:Hox;
     [|destruct (length (queue (Send cx)) <? Send_capacity)%nat eqn:Hrx]|];
  (destruct (client_heap s !! y) as [cy|] eqn:Hy;
    [destruct (closed (Send cy)) eqn:Hoy;
     [|destruct (length (queue (Send cy)) <? Send_capacity)%nat eqn:Hry]|]);
  destruct (room_heap s !! room) as [r|] eqn:Hr;
    round_step; try reflexivity;
    f_equal; state_eq; rewrite ?insert_insert_eq;
    try reflexivity; try (apply insert_insert_ne; congruence).
  rewrite (set_Clients_swap x y). reflexivity.
Qed.

(** The outcome of the two loops does not depend on the order in which
    the members are visited. *)
Lemma notify_any_order l l' data s :
  l ≡ₚ l' -> NoDup l -> notify l data s = notify l' data s.
Proof.
  intros Hp Hnd. rewrite !notify_for_each. apply for_each_perm; try assumption.
  intros x y s0 Hxy. apply notify_one_swap. exact Hxy.
Qed.

Lemma fanout_any_order room l l' data s :
  l ≡ₚ l' -> NoDup l -> fanout room l data s = fanout room l' data s.
Proof.
  intros Hp Hnd. rewrite !fanout_for_each. apply for_each_perm; try assumption.
  intros x y s0 Hxy. apply fanout_one_swap. exact Hxy.
Qed.

End Order.

Section Accept.
Variable W : World.

Lemma time_Now_run s :
  time_Now W s = Done (clock W (now_reads s)) (set_now_reads (S (now_reads s)) s).
Proof. reflexivity. Qed.

(** The durable-tier step of [BroadcastMessage]: it always returns, and
    leaves at most one log entry besides what it does to Redis. *)
Lemma BroadcastMessage_store m s2 :
  exists s3 (failed : bool),
    match redisClient s2 with
    | Some _ =>
        do err <- storeMessageInRedis W m;
        match err with
        | Some _ => log_Printf LogRedisStoreFailed
        | None => ret tt
        end
    | None => ret tt
    end s2 = Done tt s3 /\
    room_heap s3 = room_heap s2 /\ client_heap s3 = client_heap s2 /\
    rooms s3 = rooms s2 /\ rateLimiter s3 = rateLimiter s2 /\
    log s3 = log s2 ++ (if failed then [LogRedisStoreFailed] else []) /\
    (redisClient s2 = None -> failed = false /\ redisClient s3 = None) /\
    (forall rd, redisClient s2 = Some rd ->
       redis_fail W (redis_calls s2) = true -> failed = true) /\
    (forall rd data, redisClient s2 = Some rd ->
       json_Marshal W m = Some data ->
       redis_fail W (redis_calls s2) = false ->
       exists rd', redisClient s3 = Some rd' /\
         rstrings rd' !! messageKey (Room m) (MessageID m) =
           Some (data, redis_clock W (redis_calls s2) + MessageExpiration messageConfig)).
Proof.
  destruct (redisClient s2) as [rd|] eqn:Hrd.
  - destruct (storeMessageInRedis_only W m s2 rd Hrd) as (err & s3 & Hrun & Ho & _ & Hf).
    rewrite (bind_run _ _ _ _ _ Hrun).
    assert (Hblob : forall rd0 data, Some rd = Some rd0 ->
       json_Marshal W m = Some data ->
       redis_fail W (redis_calls s2) = false ->
       exists rd', redisClient s3 = Some rd' /\
         rstrings rd' !! messageKey (Room m) (MessageID m) =
           Some (data, redis_clock W (redis_calls s2) + MessageExpiration messageConfig)).
    { intros rd0 data _ Hdata Hok.
      exact (storeMessageInRedis_blob W m s2 rd data err s3 Hrd Hdata Hok Hrun). }
    destruct err as [e|].
    + eexists _, true. split; [reflexivity|]. rewrite Ho. cbn.
      repeat split; try discriminate.
      intros rd0 data H1 H2 H3. destruct (Hblob rd0 data H1 H2 H3) as (rd' & Hrd' & Hb).
      exists rd'. split; [exact Hrd'|exact Hb].
    + eexists _, false. split; [reflexivity|]. rewrite Ho. cbn.
      rewrite app_nil_r. repeat split; try discriminate.
      * intros rd' _ Hfail. destruct (Hf Hfail). discriminate.
      * intros rd0 data H1 H2 H3. destruct (Hblob rd0 data H1 H2 H3) as (rd' & Hrd' & Hb).
        exists rd'. split; [exact Hrd'|exact Hb].
  - eexists _, false. split; [reflexivity|]. cbn. rewrite app_nil_r.
    repeat split; try assumption; intros; discriminate.
Qed.

(** The body of [BroadcastMessage] after the two checks. *)
Lemma BroadcastMessage_accepts room message userID s s1 r data :
  checkRateLimit W userID s = Done true s1 ->
  (String.length (Encrypted message) <= 4096)%nat ->
  room_heap s !! room = Some r ->
  members_open s r ->
  clock_sane W ->
  json_Marshal W (stamp W (now_reads s1) message) = Some data ->
  exists s' r' (failed : bool),
    BroadcastMessage W room message userID s = Done None s' /\
    room_heap s' !! room = Some r' /\
    Messages r' = appended (Messages r) (stamp W (now_reads s1) message) /\
    ID r' = ID r /\ Clients r' ⊆ Clients r /\
    rooms s' = rooms s /\ rateLimiter s' = rateLimiter s1 /\
    log s' = log s ++ (if failed then [LogRedisStoreFailed] else []) /\
    (redisClient s = None -> failed = false /\ redisClient s' = None) /\
    (forall rd, redisClient s = Some rd ->
       redis_fail W (redis_calls s) = true -> failed = true) /\
    (forall rd, redisClient s = Some rd ->
       redis_fail W (redis_calls s) = false ->
       exists rd', redisClient s' = Some rd' /\
         rstrings rd' !! messageKey (Room message)
                           (MessageID (stamp W (now_reads s1) message)) =
           Some (data, redis_clock W (redis_calls s) + MessageExpiration messageConfig)).
Proof.
  intros Hrate Hlen Hr Hopen Hsane Hdata.
  destruct (checkRateLimit_frame W _ _ _ _ Hrate)
    as (Hrooms1 & Hredis1 & Hheap1 & Hclients1 & Hsp1 & Hlog1 & Hcalls1).
  unfold BroadcastMessage. rewrite (bind_run _ _ _ _ _ Hrate). cbn [negb].
  destruct (Z.ltb_spec (MaxMessageSize messageConfig)
              (Z.of_nat (String.length (Encrypted message)))) as [Hbig|_].
  { cbn in Hbig. lia. }
  assert (Hr1 : room_heap s1 !! room = Some r) by (rewrite Hheap1; exact Hr).
  rewrite (bind_run _ _ _ _ _ (get_room_run _ _ _ Hr1)).
  rewrite (bind_run _ _ _ _ _ (generateMessageID_run W s1 Hsane)).
  rewrite (bind_run _ _ _ _ _ (time_Now_run _)).
  rewrite (bind_run _ _ _ _ _ (time_Now_run _)).
  cbn [now_reads set_now_reads].
  replace (S (now_reads s1 + 7)) with (now_reads s1 + 8)%nat by lia.
  fold (stamp W (now_reads s1) message).
  set (m := stamp W (now_reads s1) message) in *.
  set (s2 := set_now_reads (S (now_reads s1 + 8)) _).
  rewrite (bind_run _ _ _ _ _ (eq_refl : get s2 = Done s2 s2)).
  (* the durable tier *)
  destruct (BroadcastMessage_store m s2)
    as (s3 & failed & Hrun3 & Hheap3 & Hclients3 & Hrooms3 & Hlim3 & Hlog3 & Hnone3 & Hfail3 & Hblob3).
  rewrite (bind_run _ _ _ _ _ Hrun3).
  (* the in-memory history *)
  assert (Hr3 : room_heap s3 !! room = Some r) by (rewrite Hheap3; exact Hr1).
  rewrite (bind_run _ _ _ _ _ (update_room_run _ _ _ _ Hr3)).
  set (s4 := set_room_heap _ s3).
  assert (Hr4 : room_heap s4 !! room = Some (set_Messages (fun l => l ++ [m]) r))
    by (subst s4; cbn; apply lookup_insert_eq).
  rewrite (bind_run _ _ _ _ _ (update_room_run _ _ _ _ Hr4)).
  set (s5 := set_room_heap _ s4).
  set (r5 := set_Messages (fun l : list EncryptedMessage =>
                if (100 <? length l)%nat then drop (length l - 100) l else l)
              (set_Messages (fun l => l ++ [m]) r)) in *.
  assert (Hr5 : room_heap s5 !! room = Some r5)
    by (subst s5; cbn; apply lookup_insert_eq).
  (* the fan-out *)
  rewrite Hdata. rewrite (bind_run _ _ _ _ _ (get_room_run _ _ _ Hr5)).
  destruct (fanout_run room data (elements (Clients r5)) s5 r5 (NoDup_elements _) Hr5)
    as (s' & r' & Hrun & Hs' & Hr' & _ & HM & HI & _ & _ & Hsub).
  { intros c Hin. apply elem_of_elements in Hin.
    subst s5 s4. cbn. rewrite Hclients3. subst s2. cbn. rewrite Hclients1.
    apply Hopen. exact Hin. }
  rewrite (bind_run _ _ _ _ _ Hrun).
  exists s', r', failed. split; [reflexivity|]. split; [exact Hr'|].
  split; [rewrite HM; reflexivity|]. split; [rewrite HI; reflexivity|].
  split; [exact Hsub|].
  assert (Hred2 : redisClient s2 = redisClient s) by (subst s2; cbn; exact Hredis1).
  assert (Hcalls2 : redis_calls s2 = redis_calls s) by (subst s2; cbn; exact Hcalls1).
  rewrite Hred2 in Hnone3, Hfail3, Hblob3. rewrite Hcalls2 in Hfail3, Hblob3.
  split; [rewrite Hs'; cbn; rewrite Hrooms3; subst s2; cbn; exact Hrooms1|].
  split; [rewrite Hs'; cbn; rewrite Hlim3; subst s2; reflexivity|].
  split; [rewrite Hs'; cbn; rewrite Hlog3; subst s2; cbn; rewrite Hlog1; reflexivity|].
  split; [|split; [exact Hfail3|]].
  - intros Hnone. destruct (Hnone3 Hnone) as [Hf Hn]. split; [exact Hf|].
    rewrite Hs'. cbn. exact Hn.
  - intros rd Hrd Hok. destruct (Hblob3 rd data Hrd Hdata Hok) as (rd' & Hrd' & Hb).
    exists rd'. split; [rewrite Hs'; cbn; exact Hrd'|exact Hb].
Qed.

End Accept.

Section Recent.
Variable W : World.

Lemma slice_take {A} (l : list A) (n : nat) :
  (1 <= n)%nat -> slice l 0 (Z.of_nat n - 1) = take n l.
Proof.
  intros Hn. unfold slice, zrange_idx. cbv zeta.
  assert (E1 : (Z.of_nat n - 1 <? 0) = false) by (apply Z.ltb_ge; lia).
  replace (if 0 <? 0 then Z.of_nat (length l) + 0 else 0) with 0 by reflexivity.
  replace (if 0 <? 0 then 0 else 0) with 0 by reflexivity.
  rewrite !E1. cbn [orb].
  destruct (Z.leb_spec (Z.of_nat (length l)) 0).
  - assert (length l = 0%nat) as Hl by lia. destruct l; [|discriminate].
    rewrite take_nil. reflexivity.
  - change (Z.to_nat 0) with 0%nat. rewrite drop_0.
    destruct (Z.leb_spec (Z.of_nat (length l)) (Z.of_nat n - 1)).
    + replace (Z.to_nat (Z.of_nat (length l) - 1 - 0 + 1)) with (length l) by lia.
      rewrite (take_ge l (length l)) by lia. rewrite (take_ge l n) by lia. reflexivity.
    + replace (Z.to_nat (Z.of_nat n - 1 - 0 + 1)) with n by lia. reflexivity.
Qed.

(** A GET leaves the server as it is. *)
Lemma redis_GET_same key now r : (redis_GET key now r).2 = r.
Proof.
  unfold redis_GET. destruct (rstrings r !! key) as [[v d]|]; [|reflexivity].
  destruct (now <? d); reflexivity.
Qed.

Lemma redis_GET_ROk key now r data :
  (redis_GET key now r).1 = ROk data ->
  exists d, rstrings r !! key = Some (data, d) /\ now < d.
Proof.
  unfold redis_GET. destruct (rstrings r !! key) as [[v d]|]; [|discriminate].
  destruct (Z.ltb_spec now d); [|discriminate]. intros [= ->]. eauto.
Qed.

(** A step that touches nothing but the log and the count of Redis
    commands (the server itself is unchanged). *)
Lemma getMessagesFromRedis_loop_run roomID ids : forall acc s rd,
  redisClient s = Some rd ->
  exists msgs s',
    getMessagesFromRedis_loop W roomID ids acc s = Done (acc ++ msgs) s' /\
    (length msgs <= length ids)%nat /\
    s' = mkState (rooms s) (Some rd) (rateLimiter s) (room_heap s) (client_heap s)
                 (spawned s) (log s') (now_reads s) (redis_calls s + length ids) /\
    forall x, x ∈ msgs ->
      exists id data d, id ∈ ids /\
        rstrings rd !! messageKey roomID id = Some (data, d) /\
        json_Unmarshal W data = Some x.
Proof.
  induction ids as [|id ids IH]; intros acc s rd Hrd.
  - exists [], s. rewrite app_nil_r. split; [reflexivity|]. split; [reflexivity|].
    split; [rewrite Nat.add_0_r, <- Hrd; symmetry; apply State_eta|].
    intros x Hx. inversion Hx.
  - cbn [getMessagesFromRedis_loop].
    rewrite (bind_run _ _ _ _ _ (redis_cmd_run W _ _ _ Hrd)).
    set (step := redis_step W (redis_GET (messageKey roomID id)) (redis_calls s) rd).
    assert (Hsame : step.2 = rd).
    { subst step. unfold redis_step. destruct (redis_fail W _); [reflexivity|].
      apply redis_GET_same. }
    rewrite Hsame.
    set (s1 := set_redis_calls _ _).
    assert (Hrd1 : redisClient s1 = Some rd) by reflexivity.
    assert (Hfin : forall s2 s',
      redisClient s2 = Some rd ->
      s2 = mkState (rooms s) (Some rd) (rateLimiter s) (room_heap s) (client_heap s)
                   (spawned s) (log s2) (now_reads s) (S (redis_calls s)) ->
      s' = mkState (rooms s2) (Some rd) (rateLimiter s2) (room_heap s2) (client_heap s2)
                   (spawned s2) (log s') (now_reads s2) (redis_calls s2 + length ids) ->
      s' = mkState (rooms s) (Some rd) (rateLimiter s) (room_heap s) (client_heap s)
                   (spawned s) (log s') (now_reads s) (redis_calls s + length (id :: ids))).
    { intros s2 s' _ H2 H'. rewrite H'. rewrite H2. cbn. f_equal. lia. }
    destruct step.1 as [data| |] eqn:Hrep.
    + destruct (json_Unmarshal W data) as [x|] eqn:Hx.
      * destruct (IH (acc ++ [x]) s1 rd Hrd1) as (msgs & s' & Hrun & Hlen & Hs' & Hprov).
        exists (x :: msgs), s'. rewrite Hrun. rewrite <- app_assoc. split; [reflexivity|].
        split; [cbn; lia|]. split; [eapply (Hfin s1 s'); eauto|].
        intros y [->|Hy]%elem_of_cons.
        -- subst step. unfold redis_step in Hrep.
           destruct (redis_fail W _); [discriminate|].
           apply redis_GET_ROk in Hrep as (d & Hd & _).
           exists id, data, d. split; [left|]. auto.
        -- destruct (Hprov y Hy) as (id' & data' & d' & Hin & H). 
           exists id', data', d'. split; [right; exact Hin|exact H].
      * rewrite (bind_run _ _ _ _ _ (eq_refl :
          log_Printf (LogUnmarshalError id) s1 =
          Done tt (set_log (fun l => l ++ [LogUnmarshalError id]) s1))).
        destruct (IH acc (set_log (fun l => l ++ [LogUnmarshalError id]) s1) rd Hrd1)
          as (msgs & s' & Hrun & Hlen & Hs' & Hprov).
        exists msgs, s'. split; [exact Hrun|]. split; [cbn; lia|].
        split; [eapply (Hfin _ s'); eauto|].
        intros y Hy. destruct (Hprov y Hy) as (id' & data' & d' & Hin & H).
        exists id', data', d'. split; [right; exact Hin|exact H].
    + destruct (IH acc s1 rd Hrd1) as (msgs & s' & Hrun & Hlen & Hs' & Hprov).
      exists msgs, s'. split; [exact Hrun|]. split; [cbn; lia|].
      split; [eapply (Hfin s1 s'); eauto|].
      intros y Hy. destruct (Hprov y Hy) as (id' & data' & d' & Hin & H).
      exists id', data', d'. split; [right; exact Hin|exact H].
    + rewrite (bind_run _ _ _ _ _ (eq_refl :
        log_Printf (LogGetMessageError id) s1 =
        Done tt (set_log (fun l => l ++ [LogGetMessageError id]) s1))).
      destruct (IH acc (set_log (fun l => l ++ [LogGetMessageError id]) s1) rd Hrd1)
        as (msgs & s' & Hrun & Hlen & Hs' & Hprov).
      exists msgs, s'. split; [exact Hrun|]. split; [cbn; lia|].
      split; [eapply (Hfin _ s'); eauto|].
      intros y Hy. destruct (Hprov y Hy) as (id' & data' & d' & Hin & H).
      exists id', data', d'. split; [right; exact Hin|exact H].
Qed.

End Recent.

Section Replay.
Variable W : World.

Lemma reads_only_refl s : reads_only s s.
Proof. unfold reads_only. symmetry. apply State_eta. Qed.

Lemma reads_only_log f s s1 : reads_only s s1 -> reads_only s (set_log f s1).
Proof. unfold reads_only. intros H. rewrite H. reflexivity. Qed.

Lemma reads_only_fields s s1 :
  reads_only s s1 ->
  rooms s1 = rooms s /\ redisClient s1 = redisClient s /\ rateLimiter s1 = rateLimiter s /\
  room_heap s1 = room_heap s /\ client_heap s1 = client_heap s /\
  spawned s1 = spawned s /\ now_reads s1 = now_reads s.
Proof. unfold reads_only. intros ->. repeat split. Qed.

Lemma redis_ZREVRANGE_same key a b now r : (redis_ZREVRANGE key a b now r).2 = r.
Proof. unfold redis_ZREVRANGE. destruct (zset_at now key r). reflexivity. Qed.

Lemma getMessagesFromRedis_run roomID (limit : nat) s rd :
  redisClient s = Some rd -> (1 <= limit)%nat ->
  exists res s',
    getMessagesFromRedis W roomID (Z.of_nat limit) s = Done res s' /\
    reads_only s s' /\
    match res with
    | inl msgs =>
        (length msgs <= limit)%nat /\
        forall x, x ∈ msgs ->
          exists id data d,
            id ∈ newest_ids (redis_clock W (redis_calls s)) roomID limit rd /\
            rstrings rd !! messageKey roomID id = Some (data, d) /\
            json_Unmarshal W data = Some x
    | inr _ => True
    end.
Proof.
  intros Hrd Hlimit. unfold getMessagesFromRedis.
  rewrite (bind_run _ _ _ _ _ (redis_cmd_run W _ _ _ Hrd)).
  set (step := redis_step W (redis_ZREVRANGE (roomKey roomID) 0 (Z.of_nat limit - 1))
                 (redis_calls s) rd).
  assert (Hsame : step.2 = rd).
  { subst step. unfold redis_step. destruct (redis_fail W _); [reflexivity|].
    apply redis_ZREVRANGE_same. }
  rewrite Hsame. set (s1 := set_redis_calls _ _).
  assert (Hs1 : reads_only s s1).
  { subst s1. unfold reads_only. cbn. rewrite Hrd. reflexivity. }
  destruct step.1 as [ids| |] eqn:Hrep.
  - destruct (getMessagesFromRedis_loop_run W roomID ids [] s1 rd eq_refl)
      as (msgs & s' & Hrun & Hlen & Hs' & Hprov).
    rewrite (bind_run _ _ _ _ _ Hrun). cbn [app].
    eexists _, _. split; [reflexivity|].
    assert (Hids : ids = newest_ids (redis_clock W (redis_calls s)) roomID limit rd).
    { subst step. unfold redis_step in Hrep. destruct (redis_fail W _); [discriminate|].
      unfold redis_ZREVRANGE in Hrep. unfold newest_ids.
      destruct (zset_at _ _ rd) as [l d]. cbn in Hrep. injection Hrep as <-.
      apply slice_take. exact Hlimit. }
    split.
    { unfold reads_only. rewrite Hs' at 1. subst s1. cbn. rewrite Hrd. f_equal.
      rewrite Hs'. reflexivity. }
    split.
    { rewrite length_rev. etransitivity; [exact Hlen|].
      rewrite Hids. unfold newest_ids. rewrite length_take. lia. }
    intros x Hx. apply list_elem_of_In, in_rev, list_elem_of_In in Hx.
    rewrite <- Hids. apply Hprov. exact Hx.
  - eexists _, _. split; [reflexivity|]. split; [exact Hs1|exact I].
  - eexists _, _. split; [reflexivity|]. split; [exact Hs1|exact I].
Qed.

Lemma trailing_length {A} limit (l : list A) : (length (trailing limit l) <= limit)%nat.
Proof. unfold trailing. rewrite length_drop. lia. Qed.

(** Which messages a replay selects. *)
Lemma recentMessages_run (limit : nat) room s r :
  room_heap s !! room = Some r -> (1 <= limit)%nat ->
  exists msgs s',
    recentMessages W limit room s = Done msgs s' /\
    reads_only s s' /\
    (length msgs <= limit)%nat /\
    (msgs = trailing limit (Messages r) \/
     exists rd, redisClient s = Some rd /\ msgs <> [] /\
       forall x, x ∈ msgs ->
         exists id data d,
           id ∈ newest_ids (redis_clock W (redis_calls s)) (ID r) limit rd /\
           rstrings rd !! messageKey (ID r) id = Some (data, d) /\
           json_Unmarshal W data = Some x) /\
    (redisClient s = None -> msgs = trailing limit (Messages r) /\ s' = s).
Proof.
  intros Hr Hlimit. unfold recentMessages.
  rewrite (bind_run _ _ _ _ _ (get_room_run _ _ _ Hr)).
  rewrite (bind_run _ _ _ _ _ (eq_refl : get s = Done s s)).
  assert (Hfallback : forall s1, room_heap s1 = room_heap s ->
    (do r0 <- get_room room;
     ret (drop (if (limit <? length (Messages r0))%nat
                then (length (Messages r0) - limit)%nat else 0%nat) (Messages r0))) s1
    = Done (trailing limit (Messages r)) s1).
  { intros s1 Hh. rewrite <- Hh in Hr.
    rewrite (bind_run _ _ _ _ _ (get_room_run _ _ _ Hr)). unfold ret, trailing.
    destruct (Nat.ltb_spec limit (length (Messages r))); [reflexivity|].
    replace (length (Messages r) - limit)%nat with 0%nat by lia. reflexivity. }
  destruct (redisClient s) as [rd|] eqn:Hrd.
  - destruct (getMessagesFromRedis_run (ID r) limit s rd Hrd Hlimit)
      as (res & s1 & Hrun & Hro & Hres).
    rewrite bind_assoc, (bind_run _ _ _ _ _ Hrun).
    assert (Hh1 : room_heap s1 = room_heap s) by apply (reads_only_fields _ _ Hro).
    destruct res as [msgs|e].
    + rewrite (bind_run _ _ _ _ _ (eq_refl : ret msgs s1 = Done msgs s1)).
      destruct msgs as [|m msgs].
      * rewrite bool_decide_eq_true_2 by reflexivity.
        eexists _, _. split; [apply (Hfallback s1 Hh1)|]. split; [exact Hro|].
        split; [apply trailing_length|]. split; [left; reflexivity|discriminate].
      * rewrite bool_decide_eq_false_2 by discriminate.
        eexists _, _. split; [reflexivity|]. split; [exact Hro|].
        destruct Hres as [Hlen Hprov]. split; [exact Hlen|].
        split; [|discriminate]. right. exists rd. split; [reflexivity|].
        split; [discriminate|exact Hprov].
    + rewrite bind_assoc.
      rewrite (bind_run _ _ _ _ _ (eq_refl :
        log_Printf LogRedisGetFailed s1 =
        Done tt (set_log (fun l => l ++ [LogRedisGetFailed]) s1))).
      rewrite (bind_run _ _ _ _ _ (eq_refl : ret [] _ = Done [] _)).
      rewrite bool_decide_eq_true_2 by reflexivity.
      eexists _, _. split; [apply Hfallback; exact Hh1|].
      split; [apply reads_only_log; exact Hro|].
      split; [apply trailing_length|]. split; [left; reflexivity|discriminate].
  - rewrite (bind_run _ _ _ _ _ (eq_refl : ret [] s = Done [] s)).
    rewrite bool_decide_eq_true_2 by reflexivity.
    eexists _, _. split; [apply (Hfallback s eq_refl)|]. split; [apply reads_only_refl|].
    split; [apply trailing_length|]. split; [left; reflexivity|]. auto.
Qed.


End Replay.

Section ReplayBound.
Variable W : World.


End ReplayBound.


Lemma drop_snoc_last {A} (l : list A) (x : A) k :
  (k <= length l)%nat -> last (drop k (l ++ [x])) = Some x.
Proof.
  intros Hk. rewrite drop_app_le by exact Hk. apply last_snoc.
Qed.

Lemma appended_last l m : last (appended l m) = Some m.
Proof.
  unfold appended. destruct (_ <? _)%nat; [|apply last_snoc].
  apply drop_snoc_last. rewrite length_app. cbn. lia.
Qed.


Section Resilience.
Variable W : World.

(** C1. A send that passes the rate limit and the size check succeeds
    when the durable tier is absent or fails on every command: the call
    returns no error, the stamped message is the last entry of the
    in-memory history of the room, and the only trace of the failure is
    one entry in the log.  (Hypotheses besides those of the claim: the
    room object exists and its members have open queues, the clock shows a
    date after 1970, and json.Marshal accepts the stamped message.) *)
Theorem send_survives_storage_failure room message userID s s1 r data :
  redisClient s = None \/ (forall n, redis_fail W n = true) ->
  checkRateLimit W userID s = Done true s1 ->
  (String.length (Encrypted message) <= 4096)%nat ->
  room_heap s !! room = Some r ->
  members_open s r ->
  clock_sane W ->
  json_Marshal W (stamp W (now_reads s1) message) = Some data ->
  exists s' r',
    BroadcastMessage W room message userID s = Done None s' /\
    room_heap s' !! room = Some r' /\
    Messages r' = appended (Messages r) (stamp W (now_reads s1) message) /\
    last (Messages r') = Some (stamp W (now_reads s1) message) /\
    log s' = log s ++ match redisClient s with
                      | Some _ => [LogRedisStoreFailed]
                      | None => []
                      end.
Proof.
  intros Hdown Hrate Hlen Hr Hopen Hsane Hdata.
  destruct (BroadcastMessage_accepts W room message userID s s1 r data
              Hrate Hlen Hr Hopen Hsane Hdata)
    as (s' & r' & failed & Hrun & Hr' & HM & _ & _ & _ & _ & Hlog & Hnone & Hfail & _).
  exists s', r'. split; [exact Hrun|]. split; [exact Hr'|]. split; [exact HM|].
  split; [rewrite HM; apply appended_last|].
  rewrite Hlog. destruct (redisClient s) as [rd|] eqn:Hrd.
  - destruct Hdown as [Hd|Hd]; [discriminate|].
    rewrite (Hfail rd eq_refl (Hd _)). reflexivity.
  - destruct (Hnone eq_refl) as [-> _]. reflexivity.
Qed.

(** C2, as amended.  A payload of exactly 4096 bytes is accepted when the
    rate limiter admits the call.  A longer payload is never accepted: the
    call returns right after the rate-limit check, with the
    payload-too-large error if the limiter admitted it, and the rooms,
    their histories and member sets, the clients and the durable tier are
    as before the call.  The limiter was consulted first, so the bucket of
    the sender has been created if it was missing and has gone through one
    [allow]. *)
Theorem payload_size_boundary room message userID s :
  (forall s1 r data,
      String.length (Encrypted message) = 4096%nat ->
      checkRateLimit W userID s = Done true s1 ->
      room_heap s !! room = Some r -> members_open s r -> clock_sane W ->
      json_Marshal W (stamp W (now_reads s1) message) = Some data ->
      exists s' r',
        BroadcastMessage W room message userID s = Done None s' /\
        room_heap s' !! room = Some r' /\
        last (Messages r') = Some (stamp W (now_reads s1) message)) /\
  ((4096 < String.length (Encrypted message))%nat ->
   exists allowed s1 rl n,
     BroadcastMessage W room message userID s =
       Done (Some (if allowed : bool
                   then ErrTooLarge (Z.of_nat (String.length (Encrypted message))) 4096
                   else ErrRateLimit)) s1 /\
     rooms s1 = rooms s /\ room_heap s1 = room_heap s /\
     client_heap s1 = client_heap s /\ redisClient s1 = redisClient s /\
     log s1 = log s /\
     match rateLimiter s !! userID with
     | Some rl0 => rl = rl0 /\ n = now_reads s
     | None => rl = mkRateLimiter 30 30 (clock W (now_reads s)) /\ n = S (now_reads s)
     end /\
     allowed = (allow_at (clock W n) rl).1 /\
     rateLimiter s1 = <[userID := (allow_at (clock W n) rl).2]> (rateLimiter s)).
Proof.
  split.
  - intros s1 r data Hlen Hrate Hr Hopen Hsane Hdata.
    destruct (BroadcastMessage_accepts W room message userID s s1 r data
                Hrate ltac:(lia) Hr Hopen Hsane Hdata)
      as (s' & r' & failed & Hrun & Hr' & HM & _).
    exists s', r'. split; [exact Hrun|]. split; [exact Hr'|].
    rewrite HM. apply appended_last.
  - intros Hbig. destruct (checkRateLimit_Done W userID s) as (rl & n & Hcase & Hrun).
    eexists (allow_at (clock W n) rl).1, _, rl, n.
    split.
    { unfold BroadcastMessage. rewrite (bind_run _ _ _ _ _ Hrun).
      destruct (allow_at (clock W n) rl).1; cbn [negb]; [|reflexivity].
      destruct (Z.ltb_spec (MaxMessageSize messageConfig)
                  (Z.of_nat (String.length (Encrypted message)))) as [_|Hsmall];
        [reflexivity|]. cbn in Hsmall. lia. }
    cbn. repeat split. exact Hcase.
Qed.

End Resilience.

Section RoundTrip.
Variable W : World.


End RoundTrip.

Lemma tick_clock_sane : clock_sane tick_world.
Proof. intros n. vm_compute. split; discriminate. Qed.

Lemma down_clock_sane : clock_sane down_world.
Proof. intros n. vm_compute. split; discriminate. Qed.

Lemma bob_joined_room :
  exists r, room_heap bob_joined !! 0%nat = Some r /\ Clients r = {[0%nat]}.
Proof. eexists. split; [vm_compute; reflexivity|]. vm_compute. reflexivity. Qed.

Lemma bob_joined_redis_room :
  exists r, room_heap bob_joined_redis !! 0%nat = Some r /\ Clients r = {[0%nat]}.
Proof. eexists. split; [vm_compute; reflexivity|]. vm_compute. reflexivity. Qed.

Lemma bob_joined_open r :
  room_heap bob_joined !! 0%nat = Some r -> Clients r = {[0%nat]} ->
  members_open bob_joined r.
Proof.
  intros _ Hc c Hin. rewrite Hc in Hin. apply elem_of_singleton in Hin as ->.
  eexists. split; [vm_compute; reflexivity|reflexivity].
Qed.

Lemma bob_joined_redis_open r :
  room_heap bob_joined_redis !! 0%nat = Some r -> Clients r = {[0%nat]} ->
  members_open bob_joined_redis r.
Proof.
  intros _ Hc c Hin. rewrite Hc in Hin. apply elem_of_singleton in Hin as ->.
  eexists. split; [vm_compute; reflexivity|reflexivity].
Qed.

(** [send_survives_storage_failure] on concrete runs: without a Redis
    client, and with a server that fails on every command. *)
Lemma send_survives_storage_failure_witness :
  (exists r s' r',
      room_heap bob_joined !! 0%nat = Some r /\
      BroadcastMessage tick_world 0 hello "user-b" bob_joined = Done None s' /\
      room_heap s' !! 0%nat = Some r' /\
      Messages r' = appended (Messages r)
        (stamp tick_world (now_reads (exec (checkRateLimit tick_world "user-b") bob_joined))
               hello) /\
      last (Messages r') =
        Some (stamp tick_world
                (now_reads (exec (checkRateLimit tick_world "user-b") bob_joined)) hello) /\
      log s' = log bob_joined ++ []) /\
  (exists r s' r',
      room_heap bob_joined_redis !! 0%nat = Some r /\
      BroadcastMessage down_world 0 hello "user-b" bob_joined_redis = Done None s' /\
      room_heap s' !! 0%nat = Some r' /\
      Messages r' = appended (Messages r)
        (stamp down_world
               (now_reads (exec (checkRateLimit down_world "user-b") bob_joined_redis))
               hello) /\
      last (Messages r') =
        Some (stamp down_world
                (now_reads (exec (checkRateLimit down_world "user-b") bob_joined_redis))
                hello) /\
      log s' = log bob_joined_redis ++ [LogRedisStoreFailed]).
Proof.
  split.
  - destruct bob_joined_room as (r & Hr & Hc).
    destruct (send_survives_storage_failure tick_world 0 hello "user-b" bob_joined
                (exec (checkRateLimit tick_world "user-b") bob_joined) r
                (default EmptyString
                   (wire_Marshal (stamp tick_world
                      (now_reads (exec (checkRateLimit tick_world "user-b") bob_joined))
                      hello))))
      as (s' & r' & H).
    + left. reflexivity.
    + vm_compute. reflexivity.
    + simpl. lia.
    + exact Hr.
    + exact (bob_joined_open r Hr Hc).
    + exact tick_clock_sane.
    + reflexivity.
    + exists r, s', r'. split; [exact Hr|exact H].
  - destruct bob_joined_redis_room as (r & Hr & Hc).
    destruct (send_survives_storage_failure down_world 0 hello "user-b" bob_joined_redis
                (exec (checkRateLimit down_world "user-b") bob_joined_redis) r
                (default EmptyString
                   (wire_Marshal (stamp down_world
                      (now_reads (exec (checkRateLimit down_world "user-b") bob_joined_redis))
                      hello))))
      as (s' & r' & H).
    + right. reflexivity.
    + vm_compute. reflexivity.
    + simpl. lia.
    + exact Hr.
    + exact (bob_joined_redis_open r Hr Hc).
    + exact down_clock_sane.
    + reflexivity.
    + exists r, s', r'. split; [exact Hr|exact H].
Defined.

(** [payload_size_boundary] on concrete runs: payloads of 4096 and of
    4097 bytes. *)
Lemma payload_size_boundary_witness :
  (exists r s' r',
      room_heap bob_joined !! 0%nat = Some r /\
      BroadcastMessage tick_world 0 (sized 4096) "user-b" bob_joined = Done None s' /\
      room_heap s' !! 0%nat = Some r' /\
      last (Messages r') =
        Some (stamp tick_world
                (now_reads (exec (checkRateLimit tick_world "user-b") bob_joined))
                (sized 4096))) /\
  (exists allowed s1 rl n,
     BroadcastMessage tick_world 0 (sized 4097) "user-b" bob_joined =
       Done (Some (if allowed : bool
                   then ErrTooLarge (Z.of_nat (String.length (Encrypted (sized 4097)))) 4096
                   else ErrRateLimit)) s1 /\
     rooms s1 = rooms bob_joined /\ room_heap s1 = room_heap bob_joined /\
     client_heap s1 = client_heap bob_joined /\ redisClient s1 = redisClient bob_joined /\
     log s1 = log bob_joined /\
     match rateLimiter bob_joined !! "user-b"%string with
     | Some rl0 => rl = rl0 /\ n = now_reads bob_joined
     | None => rl = mkRateLimiter 30 30 (clock tick_world (now_reads bob_joined)) /\
               n = S (now_reads bob_joined)
     end /\
     allowed = (allow_at (clock tick_world n) rl).1 /\
     rateLimiter s1 =
       <["user-b"%string := (allow_at (clock tick_world n) rl).2]> (rateLimiter bob_joined)).
Proof.
  destruct (payload_size_boundary tick_world 0 (sized 4096) "user-b" bob_joined)
    as [Haccept _].
  destruct (payload_size_boundary tick_world 0 (sized 4097) "user-b" bob_joined)
    as [_ Hreject].
  split.
  - destruct bob_joined_room as (r & Hr & Hc).
    destruct (Haccept (exec (checkRateLimit tick_world "user-b") bob_joined) r
                (default EmptyString
                   (wire_Marshal (stamp tick_world
                      (now_reads (exec (checkRateLimit tick_world "user-b") bob_joined))
                      (sized 4096)))))
      as (s' & r' & H).
    + vm_compute. reflexivity.
    + vm_compute. reflexivity.
    + exact Hr.
    + exact (bob_joined_open r Hr Hc).
    + exact tick_clock_sane.
    + reflexivity.
    + exists r, s', r'. split; [exact Hr|exact H].
  - apply Hreject. apply Nat.ltb_lt. vm_compute. reflexivity.
Defined.

(** C2, as first stated, fails: a 4097-byte payload is rejected with the
    payload-too-large error, but the call has created the bucket of the
    sender and taken a token from it; a second rejected call takes
    another. *)
Lemma oversized_send_takes_a_token :
  exists s' s'',
    BroadcastMessage tick_world 0 (sized 4097) "user-b" bob_joined =
      Done (Some (ErrTooLarge 4097 4096)) s' /\
    rateLimiter bob_joined !! "user-b"%string = None /\
    rateLimiter s' !! "user-b"%string = Some (mkRateLimiter 29 30 t0) /\
    BroadcastMessage tick_world 0 (sized 4097) "user-b" s' =
      Done (Some (ErrTooLarge 4097 4096)) s'' /\
    rateLimiter s'' !! "user-b"%string = Some (mkRateLimiter 28 30 t0).
Proof.
  eexists _, _. split; [vm_compute; reflexivity|].
  split; [vm_compute; reflexivity|]. split; [vm_compute; reflexivity|].
  split; [vm_compute; reflexivity|]. vm_compute. reflexivity.
Qed.

(** C8, as first stated, fails on the fan-out path: bob, the only member
    of "r1", has a full queue when he sends; the fan-out removes him; the
    room has no member and is still registered; the deferred [LeaveRoom]
    of his connection changes nothing; and the idle sweep that runs 31
    minutes later leaves the room in the registry. *)
Lemma fanout_emptied_room_outlives_sweep :
  exists r0 r1 s2,
    room_heap solo_full !! 0%nat = Some r0 /\ Clients r0 = {[0%nat]} /\
    BroadcastMessage tick_world 0 hello "user-b" solo_full = Done None solo_dropped /\
    room_heap solo_dropped !! 0%nat = Some r1 /\ Clients r1 = ∅ /\
    rooms solo_dropped !! "r1"%string = Some 0%nat /\
    LeaveRoom (later_world (31 * Minute)) 0 solo_dropped = Done tt solo_dropped /\
    cleanup_tick (later_world (31 * Minute)) solo_dropped = Done tt s2 /\
    rooms s2 !! "r1"%string = Some 0%nat.
Proof.
  eexists _, _, _. split; [vm_compute; reflexivity|].
  split; [vm_compute; reflexivity|]. split; [vm_compute; reflexivity|].
  split; [vm_compute; reflexivity|]. split; [vm_compute; reflexivity|].
  split; [vm_compute; reflexivity|]. split; [vm_compute; reflexivity|].
  split; [vm_compute; reflexivity|]. vm_compute. reflexivity.
Qed.

(** C4 on the durable tier.  With a healthy Redis, bob sends "first" and,
    10 ms later in the same second, "second".  The in-memory history has
    them in that order.  The index scores both with the same whole second
    and orders them by identifier, and the identifier of the later message
    is the smaller one; [recent] with limit 50 returns "second" before
    "first", and with limit 1 it returns "first", the older message. *)
Theorem recent_within_one_second :
  exists a b s' s'',
    Messages <$> room_heap two_sent !! 0%nat = Some [a; b] /\
    Encrypted a = "first"%string /\ Encrypted b = "second"%string /\
    Timestamp a < Timestamp b /\
    Time_Unix (Timestamp a) = Time_Unix (Timestamp b) /\
    String.ltb (MessageID b) (MessageID a) = true /\
    recentMessages ms_world 50 0 two_sent = Done [b; a] s' /\
    recentMessages ms_world 1 0 two_sent = Done [a] s''.
Proof.
  eexists _, _, _, _. split; [vm_compute; reflexivity|].
  split; [reflexivity|]. split; [reflexivity|]. split; [reflexivity|].
  split; [reflexivity|]. split; [vm_compute; reflexivity|].
  split; vm_compute; reflexivity.
Qed.


(** The joiner is a member when the notification loop runs: after bob's
    join of the fresh room "r1" his own queue holds the user_joined
    frame. *)
Example JoinRoom_frame_in_own_queue :
  (fun c => length (queue (Send c))) <$> client_heap three_clients !! 0%nat = Some 0%nat /\
  (fun c => queue (Send c)) <$> client_heap bob_joined !! 0%nat =
    Some [marshal_or_nil tick_world
            (mkEncryptedMessage "user_joined" "r1" "system" "" "" t0 "" Time_zero 0)].
Proof. split; vm_compute; reflexivity. Qed.

(** * Further properties of the code *)

(** ** The rate limiter over a run of calls *)

Lemma div_add_le a b m : 0 < m -> a / m + b / m <= (a + b) / m.
Proof.
  intros Hm. apply Z.div_le_lower_bound; [exact Hm|].
  pose proof (Z.mul_div_le a m Hm). pose proof (Z.mul_div_le b m Hm). lia.
Qed.

Lemma allowed_cons b l : allowed (b :: l) = (if b then 1 else 0) + allowed l.
Proof. unfold allowed. destruct b; cbn [List.filter length]; lia. Qed.

(** One call never raises the sum of the tokens left, the whole minutes
    not yet credited and the call just allowed. *)
Lemma allow_at_budget T now rl :
  0 <= tokens rl <= capacity rl -> capacity rl <= 2 ^ 18 ->
  lastRefill rl <= T -> now <= T ->
  let rl' := (allow_at now rl).2 in
  0 <= tokens rl' <= capacity rl' /\ capacity rl' = capacity rl /\
  lastRefill rl' <= T /\
  (if (allow_at now rl).1 then 1 else 0) + tokens rl' + (T - lastRefill rl') / Minute
    <= tokens rl + (T - lastRefill rl) / Minute.
Proof.
  intros Ht Hc Hl Hn.
  assert (Hc' : capacity rl <= 262144) by exact Hc.
  pose proof (Time_Sub_bounds now (lastRefill rl)) as Hb.
  pose proof (minutes_bounds _ Hb) as Hm.
  pose proof maxInt64_val as Hmax. pose proof minInt64_val as Hmin.
  pose proof Minute_val as HM.
  unfold allow_at. cbv zeta.
  destruct (Z.ltb_spec 0 (Duration_Minutes_int (Time_Sub now (lastRefill rl)))) as [Hadd|Hadd].
  - (* refill *)
    assert (Hle : Duration_Minutes_int (Time_Sub now (lastRefill rl))
                  <= (now - lastRefill rl) / Minute).
    { unfold Duration_Minutes_int in *.
      assert (Hpos : 0 <= Time_Sub now (lastRefill rl)).
      { destruct (Z.le_gt_cases 0 (Time_Sub now (lastRefill rl))) as [H|H]; [exact H|].
        exfalso. assert (Z.quot (Time_Sub now (lastRefill rl)) Minute <= 0); [|lia].
        apply Z.quot_le_upper_bound; lia. }
      rewrite Z.quot_div_nonneg by lia.
      apply Z.div_le_mono; [lia|].
      unfold Time_Sub in *. cbv zeta in *.
      destruct (now - lastRefill rl <? minInt64) eqn:E1; [lia|].
      destruct (maxInt64 <? now - lastRefill rl) eqn:E2; lia. }
    rewrite (wrap64_small (tokens rl + _)) by lia.
    unfold min_int.
    set (add := Duration_Minutes_int _) in *.
    assert (Hsum : (T - now) / Minute + (now - lastRefill rl) / Minute
                   <= (T - lastRefill rl) / Minute).
    { etransitivity; [apply div_add_le; lia|].
      replace (T - now + (now - lastRefill rl)) with (T - lastRefill rl) by lia. lia. }
    destruct (Z.ltb_spec (capacity rl) (tokens rl + add)); cbn [tokens capacity lastRefill];
      match goal with |- context [0 <? ?x] => destruct (Z.ltb_spec 0 x) end;
      cbn [fst snd tokens capacity lastRefill];
      rewrite ?wrap64_small by lia; lia.
  - destruct (Z.ltb_spec 0 (tokens rl)); cbn [fst snd tokens capacity lastRefill];
      rewrite ?wrap64_small by lia; lia.
Qed.

Section RateBound.
Variable W : World.

Lemma calls_checkRateLimit_bound userID T n : forall s rl,
  rateLimiter s !! userID = Some rl ->
  0 <= tokens rl <= capacity rl -> capacity rl <= 2 ^ 18 ->
  lastRefill rl <= T ->
  (forall i, (i < n)%nat -> clock W (now_reads s + i) <= T) ->
  exists l s' rl',
    calls n (checkRateLimit W userID) s = Done l s' /\
    length l = n /\
    rateLimiter s' !! userID = Some rl' /\
    0 <= tokens rl' <= capacity rl' /\ capacity rl' = capacity rl /\
    allowed l + tokens rl' <= tokens rl + (T - lastRefill rl) / Minute.
Proof.
  induction n as [|n IH]; intros s rl Hl Ht Hc HT Hclock.
  - exists [], s, rl. cbn [calls]. split; [reflexivity|]. split; [reflexivity|].
    split; [exact Hl|]. split; [exact Ht|]. split; [reflexivity|].
    unfold allowed. cbn.
    assert (0 <= (T - lastRefill rl) / Minute)
      by (apply Z.div_pos; [lia|rewrite Minute_val; lia]).
    lia.
  - rewrite calls_S. rewrite (bind_run _ _ s _ _
      (eq_trans (checkRateLimit_known W _ _ _ Hl) (allow_run W _ _ _ Hl))).
    pose proof (allow_at_budget T (clock W (now_reads s)) rl Ht Hc HT) as Hstep.
    specialize (Hstep ltac:(specialize (Hclock 0%nat ltac:(lia));
                            rewrite Nat.add_0_r in Hclock; exact Hclock)).
    cbv zeta in Hstep. destruct Hstep as (Ht' & Hc' & HT' & Hbud).
    set (s1 := set_rateLimiter _ _).
    destruct (IH s1 (allow_at (clock W (now_reads s)) rl).2)
      as (l & s' & rl' & Hrun & Hlen & Hl' & Ht'' & Hc'' & Hbound).
    + subst s1. cbn. apply lookup_insert_eq.
    + exact Ht'.
    + rewrite Hc'. exact Hc.
    + exact HT'.
    + intros i Hi. subst s1. cbn.
      replace (S (now_reads s + i))%nat with (now_reads s + S i)%nat by lia.
      apply Hclock. lia.
    + rewrite (bind_run _ _ _ _ _ Hrun). unfold ret.
      eexists _, s', rl'. split; [reflexivity|]. split; [cbn; lia|].
      split; [exact Hl'|]. split; [exact Ht''|]. split; [congruence|].
      rewrite allowed_cons. lia.
Qed.

End RateBound.

(** X1. Over any run of calls for a user, the calls allowed are at most the
    tokens in the bucket at the start plus the whole minutes between its
    last refill and an instant [T] that no reading of the clock exceeds. *)
Theorem rate_limit_bound W userID T n s rl :
  rateLimiter s !! userID = Some rl ->
  0 <= tokens rl <= capacity rl -> capacity rl <= 2 ^ 18 ->
  lastRefill rl <= T ->
  (forall i, (i < n)%nat -> clock W (now_reads s + i) <= T) ->
  exists l s',
    calls n (checkRateLimit W userID) s = Done l s' /\
    length l = n /\
    allowed l <= tokens rl + (T - lastRefill rl) / Minute.
Proof.
  intros Hl Ht Hc HT Hclock.
  destruct (calls_checkRateLimit_bound W userID T n s rl Hl Ht Hc HT Hclock)
    as (l & s' & rl' & Hrun & Hlen & _ & Ht' & _ & Hb).
  exists l, s'. split; [exact Hrun|]. split; [exact Hlen|]. lia.
Qed.

Lemma rate_limit_bound_witness :
  exists l s',
    calls 40 (checkRateLimit burst_world "u")
      (set_rateLimiter <["u" := mkRateLimiter 5 30 (t0 - 90 * Second)]> init) = Done l s' /\
    length l = 40%nat /\
    allowed l <= 5 + (t0 + 3 * Minute - (t0 - 90 * Second)) / Minute.
Proof.
  apply (rate_limit_bound burst_world "u" (t0 + 3 * Minute) 40
           (set_rateLimiter <["u" := mkRateLimiter 5 30 (t0 - 90 * Second)]> init)
           (mkRateLimiter 5 30 (t0 - 90 * Second))).
  - reflexivity.
  - cbn. lia.
  - vm_compute. discriminate.
  - vm_compute. discriminate.
  - intros i Hi. cbn [clock burst_world now_reads init set_rateLimiter].
    unfold burst_clock. rewrite Minute_val.
    destruct (_ <=? 31)%nat; unfold t0, Second; lia.
Defined.

(** ** Consistency of the heap is kept *)

Ltac state_simpl :=
  cbn [rooms redisClient rateLimiter room_heap client_heap spawned log
       now_reads redis_calls
       set_rooms set_redisClient set_rateLimiter set_room_heap set_client_heap
       set_spawned set_log set_now_reads set_redis_calls] in *.

Lemma queue_step_refl cl : queue_step cl cl.
Proof. unfold queue_step. auto. Qed.

Lemma queue_step_trans a b c : queue_step a b -> queue_step b c -> queue_step a c.
Proof.
  unfold queue_step. intros (H1 & H2 & H3 & H4 & H5) (K1 & K2 & K3 & K4 & K5).
  repeat split; try congruence. auto.
Qed.

Lemma heap_step_refl s : heap_step s s.
Proof. intros c. destruct (client_heap s !! c); [apply queue_step_refl|exact I]. Qed.

Lemma heap_step_trans s1 s2 s3 : heap_step s1 s2 -> heap_step s2 s3 -> heap_step s1 s3.
Proof.
  intros H1 H2 c. specialize (H1 c). specialize (H2 c).
  destruct (client_heap s1 !! c), (client_heap s2 !! c), (client_heap s3 !! c);
    try contradiction; try exact I.
  eapply queue_step_trans; eassumption.
Qed.

Lemma heap_step_insert s c cl cl' :
  client_heap s !! c = Some cl -> queue_step cl cl' ->
  heap_step s (set_client_heap <[c := cl']> s).
Proof.
  intros Hc Hq c'. cbn [client_heap set_client_heap].
  destruct (decide (c' = c)) as [->|Hne].
  - rewrite Hc, lookup_insert_eq. exact Hq.
  - rewrite lookup_insert_ne by congruence.
    destruct (client_heap s !! c'); [apply queue_step_refl|exact I].
Qed.

Lemma queue_step_offer data cl :
  closed (Send cl) = false -> queue_step cl (set_Send (offer data (Send cl)) cl).
Proof.
  intros Ho. unfold queue_step, offer, Send_capacity.
  destruct (Nat.ltb_spec (length (queue (Send cl))) 256); cbn.
  - repeat split; auto. intros _. rewrite length_app. cbn. lia.
  - repeat split; auto.
Qed.

(** A state that differs in other fields than the registry and the two
    heaps is consistent as well. *)
Lemma well_formed_frame s s' :
  rooms s' = rooms s -> room_heap s' = room_heap s -> client_heap s' = client_heap s ->
  well_formed s -> well_formed s'.
Proof.
  intros H1 H2 H3 (Hm & Hc & He). unfold well_formed, member_ok, client_ok, entry_ok in *.
  rewrite H1, H2, H3. auto.
Qed.

Lemma well_formed_heap_step s s' :
  well_formed s -> rooms s' = rooms s -> room_heap s' = room_heap s ->
  heap_step s s' -> well_formed s'.
Proof.
  intros (Hm & Hc & He) Hrooms Hheap Hstep. split; [|split].
  - intros room r Hr c Hin. rewrite Hheap in Hr. specialize (Hm room r Hr c Hin).
    unfold member_ok in *. specialize (Hstep c).
    destruct (client_heap s !! c) as [cl|]; [|contradiction].
    destruct (client_heap s' !! c) as [cl'|]; [|contradiction].
    destruct Hstep as (HR & _ & _ & HO & _). rewrite HR, HO. exact Hm.
  - intros c cl' Hcl'. specialize (Hstep c). rewrite Hcl' in Hstep.
    destruct (client_heap s !! c) as [cl|] eqn:Hcl; [|contradiction].
    destruct (Hc c cl Hcl) as [Hlen Hroom].
    destruct Hstep as (HR & _ & _ & _ & HL). unfold client_ok.
    rewrite HR, Hheap. split; [apply HL; exact Hlen|exact Hroom].
  - intros roomID room Hreg. rewrite Hrooms in Hreg. specialize (He roomID room Hreg).
    unfold entry_ok in *. rewrite Hheap. exact He.
Qed.

Section Consistency.
Variable W : World.

Lemma notify_ok data l : forall s,
  (forall c, c ∈ l -> exists cl, client_heap s !! c = Some cl /\ closed (Send cl) = false) ->
  exists s', notify l data s = Done tt s' /\ clients_only s s' /\ heap_step s s'.
Proof.
  induction l as [|c l IH]; intros s Hopen.
  - exists s. split; [reflexivity|]. split; [apply clients_only_refl|apply heap_step_refl].
  - destruct (Hopen c ltac:(left)) as (cl & Hcl & Ho).
    cbn [notify]. rewrite (bind_run _ _ _ _ _ (try_send_run c data s cl Hcl Ho)).
    set (s1 := set_client_heap _ s).
    assert (Hstep1 : heap_step s s1)
      by (apply (heap_step_insert s c cl); [exact Hcl|apply queue_step_offer; exact Ho]).
    destruct (IH s1) as (s' & Hrun & Honly & Hstep).
    { intros c' Hin. destruct (Hopen c' ltac:(right; exact Hin)) as (cl' & Hcl' & Ho').
      specialize (Hstep1 c'). rewrite Hcl' in Hstep1.
      destruct (client_heap s1 !! c') as [cl1|]; [|contradiction].
      exists cl1. split; [reflexivity|]. destruct Hstep1 as (_ & _ & _ & HO & _). congruence. }
    exists s'. split; [exact Hrun|]. split.
    + eapply clients_only_trans; [apply clients_only_set|exact Honly].
    + eapply heap_step_trans; eassumption.
Qed.

Lemma CreateRoom_ok roomID roomName s :
  well_formed s ->
  exists room s0,
    CreateRoom W roomID roomName s = Done room s0 /\
    well_formed s0 /\
    room_heap s !! room = None /\
    client_heap s0 = client_heap s /\
    rooms s0 = <[roomID := room]> (rooms s) /\
    room_heap s0 =
      <[room := mkChatRoom roomID roomName ∅ [] (clock W (now_reads s))]> (room_heap s).
Proof.
  intros (Hm & Hc & He).
  set (room := fresh (dom (room_heap s))).
  assert (Hfresh : room_heap s !! room = None)
    by (apply not_elem_of_dom, is_fresh).
  exists room,
    (set_log (fun l => l ++ [LogCreatedRoom roomName roomID])
       (set_rooms <[roomID := room]>
          (set_room_heap
             <[room := mkChatRoom roomID roomName ∅ [] (clock W (now_reads s))]>
             (set_now_reads (S (now_reads s)) s)))).
  split; [reflexivity|]. clearbody room.
  split; [|auto].
  unfold well_formed, member_ok, client_ok, entry_ok in *. state_simpl.
  split; [|split].
  - intros room' r' Hr' c Hin.
    destruct (decide (room' = room)) as [->|Hne].
    + rewrite lookup_insert_eq in Hr'. injection Hr' as <-. cbn [Clients] in Hin.
      apply elem_of_empty in Hin. contradiction.
    + rewrite lookup_insert_ne in Hr' by congruence.
      exact (Hm room' r' Hr' c Hin).
  - intros c cl Hcl. destruct (Hc c cl Hcl) as [Hlen Hroom]. split; [exact Hlen|].
    destruct (client_Room cl) as [room'|]; [|exact I].
    destruct (decide (room' = room)) as [->|Hne].
    + rewrite lookup_insert_eq. eauto.
    + rewrite lookup_insert_ne by congruence. exact Hroom.
  - intros k room' Hreg.
    destruct (decide (k = roomID)) as [->|Hne].
    + rewrite lookup_insert_eq in Hreg. injection Hreg as <-.
      rewrite lookup_insert_eq. reflexivity.
    + rewrite lookup_insert_ne in Hreg by congruence.
      specialize (He k room' Hreg).
      destruct (decide (room' = room)) as [->|Hne'].
      * rewrite Hfresh in He. contradiction.
      * rewrite lookup_insert_ne by congruence. exact He.
Qed.

End Consistency.

Section ConsistencyJoin.
Variable W : World.

Lemma modify_run f s : modify f s = Done tt (f s).
Proof. reflexivity. Qed.

Lemma log_Printf_run e s : log_Printf e s = Done tt (set_log (fun l => l ++ [e]) s).
Proof. reflexivity. Qed.

(** The body of [JoinRoom] once the room object is known. *)
Lemma JoinRoom_body_ok client room roomID userID userName s0 cl r :
  well_formed s0 ->
  room_heap s0 !! room = Some r ->
  client_heap s0 !! client = Some cl -> closed (Send cl) = false ->
  (forall room' r', room_heap s0 !! room' = Some r' -> client ∈ Clients r' -> room' = room) ->
  exists s' cl',
    (get_room room;;
     update_client client (fun c => mkClient (Some room) userID userName (Send c));;
     update_room room (set_Clients (fun cl => {[client]} ∪ cl));;
     log_Printf (LogJoined userName userID roomID);;
     modify (set_spawned (fun l => l ++ [(client, room)]));;
     broadcastUserJoined W room userName;;
     ret None) s0 = Done (None : option error) s' /\
    well_formed s' /\
    rooms s' = rooms s0 /\
    room_heap s' = <[room := set_Clients (fun X => {[client]} ∪ X) r]> (room_heap s0) /\
    client_heap s' !! client = Some cl' /\
    queue_step (mkClient (Some room) userID userName (Send cl)) cl' /\
    (forall c, c <> client ->
       match client_heap s0 !! c, client_heap s' !! c with
       | Some c0, Some c1 => queue_step c0 c1
       | None, None => True
       | _, _ => False
       end) /\
    spawned s' = spawned s0 ++ [(client, room)] /\
    rateLimiter s' = rateLimiter s0 /\ redisClient s' = redisClient s0.
Proof.
  intros Hwf Hr Hcl Ho Honly.
  rewrite (bind_run _ _ _ _ _ (get_room_run _ _ _ Hr)).
  rewrite (bind_run _ _ _ _ _ (update_client_run _ _ _ _ Hcl)).
  set (s1 := set_client_heap _ s0).
  assert (Hr1 : room_heap s1 !! room = Some r) by exact Hr.
  rewrite (bind_run _ _ _ _ _ (update_room_run _ _ _ _ Hr1)).
  set (s2 := set_room_heap _ s1).
  rewrite (bind_run _ _ _ _ _ (log_Printf_run _ _)).
  rewrite (bind_run _ _ _ _ _ (modify_run _ _)).
  set (s3 := set_spawned _ _).
  assert (Hr3 : room_heap s3 !! room = Some (set_Clients (fun X => {[client]} ∪ X) r))
    by (subst s3 s2; state_simpl; apply lookup_insert_eq).
  unfold broadcastUserJoined.
  rewrite bind_assoc, (bind_run _ _ _ _ _ (get_room_run _ _ _ Hr3)).
  rewrite bind_assoc, (bind_run _ _ _ _ _ (time_Now_run W _)).
  set (s4 := set_now_reads _ s3).
  set (data := marshal_or_nil W _).
  (* the state before the notification is consistent *)
  assert (Hwf4 : well_formed s4).
  { destruct Hwf as (Hm & Hc & He).
    unfold well_formed, member_ok, client_ok, entry_ok in *.
    subst s4 s3 s2 s1. state_simpl. split; [|split].
    - intros room' r' Hr' c Hin.
      destruct (decide (room' = room)) as [->|Hne].
      + rewrite lookup_insert_eq in Hr'. injection Hr' as <-. cbn [Clients set_Clients] in Hin.
        destruct (decide (c = client)) as [->|Hc'].
        * rewrite lookup_insert_eq. cbn. auto.
        * rewrite lookup_insert_ne by congruence.
          apply (Hm room r Hr). apply elem_of_union in Hin as [Hin|Hin]; [|exact Hin].
          apply elem_of_singleton in Hin. contradiction.
      + rewrite lookup_insert_ne in Hr' by congruence.
        destruct (decide (c = client)) as [->|Hc'].
        * exfalso. apply Hne. exact (Honly room' r' Hr' Hin).
        * rewrite lookup_insert_ne by congruence. exact (Hm room' r' Hr' c Hin).
    - intros c c0 Hc0.
      assert (Hkeep : forall room', is_Some (room_heap s0 !! room') ->
                is_Some (<[room := set_Clients (fun X => {[client]} ∪ X) r]>
                           (room_heap s0) !! room')).
      { intros room' Hs. destruct (decide (room' = room)) as [->|Hne].
        - rewrite lookup_insert_eq. eauto.
        - rewrite lookup_insert_ne by congruence. exact Hs. }
      destruct (decide (c = client)) as [->|Hc'].
      + rewrite lookup_insert_eq in Hc0. injection Hc0 as <-. cbn.
        split; [exact (proj1 (Hc client cl Hcl))|]. rewrite lookup_insert_eq. eauto.
      + rewrite lookup_insert_ne in Hc0 by congruence.
        destruct (Hc c c0 Hc0) as [Hlen Hroom]. split; [exact Hlen|].
        destruct (client_Room c0); [apply Hkeep; exact Hroom|exact I].
    - intros k room' Hreg. specialize (He k room' Hreg).
      destruct (decide (room' = room)) as [->|Hne].
      + rewrite lookup_insert_eq. rewrite Hr in He. exact He.
      + rewrite lookup_insert_ne by congruence. exact He. }
  destruct (notify_ok data (elements (Clients (set_Clients (fun X => {[client]} ∪ X) r))) s4)
    as (s' & Hrun & Honly' & Hstep).
  { intros c Hin. apply elem_of_elements in Hin.
    destruct Hwf4 as (Hm4 & _ & _).
    assert (Hr4 : room_heap s4 !! room = Some (set_Clients (fun X => {[client]} ∪ X) r))
      by exact Hr3.
    specialize (Hm4 room _ Hr4 c Hin). unfold member_ok in Hm4.
    destruct (client_heap s4 !! c) as [c4|]; [|contradiction].
    exists c4. split; [reflexivity|exact (proj1 Hm4)]. }
  rewrite (bind_run _ _ _ _ _ Hrun).
  pose proof (clients_only_rooms _ _ Honly') as Hrooms.
  pose proof (clients_only_room_heap _ _ Honly') as Hheap.
  assert (Hcl4 : client_heap s4 !! client = Some (mkClient (Some room) userID userName (Send cl)))
    by (subst s4 s3 s2 s1; state_simpl; apply lookup_insert_eq).
  pose proof (Hstep client) as Hsc. rewrite Hcl4 in Hsc.
  destruct (client_heap s' !! client) as [cl'|] eqn:Hcl'; [|contradiction].
  exists s', cl'. split; [reflexivity|].
  split; [exact (well_formed_heap_step s4 s' Hwf4 Hrooms Hheap Hstep)|].
  split; [rewrite Hrooms; reflexivity|].
  split; [rewrite Hheap; reflexivity|].
  split; [exact Hcl'|]. split; [exact Hsc|].
  split.
  { intros c Hne. specialize (Hstep c).
    replace (client_heap s4 !! c) with (client_heap s0 !! c) in Hstep; [exact Hstep|].
    subst s4 s3 s2 s1. state_simpl. rewrite lookup_insert_ne by congruence. reflexivity. }
  rewrite Honly'. split; [reflexivity|]. split; reflexivity.
Qed.

Lemma JoinRoom_ok client roomID userID userName s cl :
  well_formed s ->
  client_heap s !! client = Some cl -> closed (Send cl) = false ->
  only_in s client roomID ->
  exists s' room r cl',
    JoinRoom W client roomID userID userName s = Done None s' /\
    well_formed s' /\
    match rooms s !! roomID with
    | Some room0 => room0 = room /\ room_heap s !! room = Some r
    | None => room_heap s !! room = None /\
              r = mkChatRoom roomID "Chat Room" ∅ [] (clock W (now_reads s))
    end /\
    rooms s' = <[roomID := room]> (rooms s) /\
    room_heap s' = <[room := set_Clients (fun X => {[client]} ∪ X) r]> (room_heap s) /\
    client_heap s' !! client = Some cl' /\
    queue_step (mkClient (Some room) userID userName (Send cl)) cl' /\
    (forall c, c <> client ->
       match client_heap s !! c, client_heap s' !! c with
       | Some c0, Some c1 => queue_step c0 c1
       | None, None => True
       | _, _ => False
       end) /\
    spawned s' = spawned s ++ [(client, room)] /\
    rateLimiter s' = rateLimiter s /\ redisClient s' = redisClient s.
Proof.
  intros Hwf Hcl Ho Honly.
  unfold JoinRoom. rewrite (bind_run _ _ _ _ _ (eq_refl : get s = Done s s)).
  destruct (rooms s !! roomID) as [room|] eqn:Hreg.
  - (* the room is registered *)
    rewrite (bind_run _ _ _ _ _ (eq_refl : ret room s = Done room s)).
    pose proof (proj2 (proj2 Hwf) roomID room Hreg) as He. unfold entry_ok in He.
    destruct (room_heap s !! room) as [r|] eqn:Hr; [|contradiction].
    destruct (JoinRoom_body_ok client room roomID userID userName s cl r Hwf Hr Hcl Ho)
      as (s' & cl' & Hrun & Hwf' & Hrooms & Hheap & Hcl' & Hq & Hothers & Hsp & Hrl & Hrd).
    { intros room' r' Hr' Hin. specialize (Honly room' r' Hr' Hin). congruence. }
    exists s', room, r, cl'. split; [exact Hrun|]. split; [exact Hwf'|].
    split; [auto|]. split; [rewrite Hrooms, insert_id by exact Hreg; reflexivity|].
    auto 10.
  - (* the room is created *)
    destruct (CreateRoom_ok W roomID "Chat Room" s Hwf)
      as (room & s0 & Hcreate & Hwf0 & Hfresh & Hclients0 & Hrooms0 & Hheap0).
    rewrite (bind_run _ _ _ _ _ Hcreate).
    set (r := mkChatRoom roomID "Chat Room" ∅ [] (clock W (now_reads s))) in *.
    assert (Hr0 : room_heap s0 !! room = Some r) by (rewrite Hheap0; apply lookup_insert_eq).
    assert (Hcl0 : client_heap s0 !! client = Some cl) by (rewrite Hclients0; exact Hcl).
    destruct (JoinRoom_body_ok client room roomID userID userName s0 cl r Hwf0 Hr0 Hcl0 Ho)
      as (s' & cl' & Hrun & Hwf' & Hrooms & Hheap & Hcl' & Hq & Hothers & Hsp & Hrl & Hrd).
    { intros room' r' Hr' Hin. destruct (decide (room' = room)) as [|Hne]; [assumption|].
      rewrite Hheap0, lookup_insert_ne in Hr' by congruence.
      specialize (Honly room' r' Hr' Hin). congruence. }
    exists s', room, r, cl'. split; [exact Hrun|]. split; [exact Hwf'|].
    split; [auto|]. split; [rewrite Hrooms, Hrooms0; reflexivity|].
    split; [rewrite Hheap, Hheap0, insert_insert_eq; reflexivity|].
    split; [exact Hcl'|]. split; [exact Hq|].
    split; [intros c Hne; rewrite <- Hclients0; apply Hothers; exact Hne|].
    unfold CreateRoom in Hcreate. injection Hcreate as _ <-.
    state_simpl. auto.
Qed.

End ConsistencyJoin.

Lemma well_formed_delete k s : well_formed s -> well_formed (set_rooms (delete k) s).
Proof.
  intros (Hm & Hc & He). split; [exact Hm|]. split; [exact Hc|].
  intros roomID room Hreg. state_simpl.
  apply lookup_delete_Some in Hreg as [_ Hreg]. exact (He roomID room Hreg).
Qed.

Section ConsistencyLeave.
Variable W : World.

Lemma LeaveRoom_ok client s cl :
  well_formed s -> client_heap s !! client = Some cl ->
  exists s',
    LeaveRoom W client s = Done tt s' /\ well_formed s' /\
    match client_Room cl with
    | None => s' = s
    | Some room =>
        exists r, room_heap s !! room = Some r /\
          if bool_decide (client ∈ Clients r) then
            room_heap s' = <[room := set_Clients (fun X => X ∖ {[client]}) r]> (room_heap s) /\
            rooms s' = (if bool_decide (size (Clients r ∖ {[client]}) = 0%nat)
                        then delete (ID r) (rooms s) else rooms s) /\
            client_heap s' !! client =
              Some (set_Send (mkChan (queue (Send cl)) true) cl) /\
            closed (Send cl) = false /\
            heap_step (set_client_heap
                         <[client := set_Send (mkChan (queue (Send cl)) true) cl]> s) s' /\
            (forall c cl0, c <> client -> client_heap s !! c = Some cl0 ->
               client_heap s' !! c =
                 Some (if bool_decide (c ∈ Clients r)
                       then set_Send
                              (offer (marshal_or_nil W
                                        (mkEncryptedMessage "user_left" (ID r) "system" "" ""
                                           (clock W (now_reads s)) "" Time_zero 0))
                                     (Send cl0)) cl0
                       else cl0))
          else s' = s
    end.
Proof.
  intros Hwf Hcl. unfold LeaveRoom.
  rewrite (bind_run _ _ _ _ _ (get_client_run _ _ _ Hcl)).
  destruct (client_Room cl) as [room|] eqn:Hroom.
  2: { exists s. split; [reflexivity|]. split; [exact Hwf|reflexivity]. }
  pose proof (proj2 (proj1 (proj2 Hwf) client cl Hcl)) as Halloc. rewrite Hroom in Halloc.
  destruct Halloc as [r Hr]. unfold RoomRef in *.
  rewrite (bind_run _ _ _ _ _ (get_room_run _ _ _ Hr)).
  destruct (bool_decide (client ∈ Clients r)) eqn:Hmem.
  2: { exists s. split; [reflexivity|]. split; [exact Hwf|].
       exists r. split; [exact Hr|]. rewrite Hmem. reflexivity. }
  apply bool_decide_eq_true in Hmem.
  pose proof (proj1 Hwf room r Hr client Hmem) as Hok. unfold member_ok in Hok.
  rewrite Hcl in Hok. destruct Hok as [Ho _].
  rewrite (bind_run _ _ _ _ _ (update_room_run _ _ _ _ Hr)).
  set (s1 := set_room_heap _ s).
  assert (Hcl1 : client_heap s1 !! client = Some cl) by exact Hcl.
  unfold close_Send.
  rewrite bind_assoc, (bind_run _ _ _ _ _ (get_client_run _ _ _ Hcl1)).
  unfold chan_close. rewrite Ho.
  rewrite (bind_run _ _ _ _ _ (update_client_run _ _ _ _ Hcl1)).
  set (s2 := set_client_heap _ s1).
  rewrite (bind_run _ _ _ _ _ (log_Printf_run _ _)).
  set (s3 := set_log _ s2).
  assert (Hr3 : room_heap s3 !! room = Some (set_Clients (fun X => X ∖ {[client]}) r))
    by (subst s3 s2 s1; state_simpl; apply lookup_insert_eq).
  unfold broadcastUserLeft.
  rewrite bind_assoc, (bind_run _ _ _ _ _ (get_room_run _ _ _ Hr3)).
  rewrite bind_assoc, (bind_run _ _ _ _ _ (time_Now_run W _)).
  set (s4 := set_now_reads _ s3).
  set (data := marshal_or_nil W _).
  assert (Hwf4 : well_formed s4).
  { destruct Hwf as (Hm & Hc & He).
    unfold well_formed, member_ok, client_ok, entry_ok in *.
    subst s4 s3 s2 s1. state_simpl. split; [|split].
    - intros room' r' Hr' c Hin.
      destruct (decide (room' = room)) as [->|Hne].
      + rewrite lookup_insert_eq in Hr'. injection Hr' as <-. cbn [Clients set_Clients] in Hin.
        apply elem_of_difference in Hin as [Hin Hnot].
        rewrite lookup_insert_ne by (intros ->; apply Hnot, elem_of_singleton; reflexivity).
        exact (Hm room r Hr c Hin).
      + rewrite lookup_insert_ne in Hr' by congruence.
        specialize (Hm room' r' Hr' c Hin).
        destruct (decide (c = client)) as [->|Hc'].
        * rewrite Hcl in Hm. destruct Hm as [_ Hm]. congruence.
        * rewrite lookup_insert_ne by congruence. exact Hm.
    - intros c c0 Hc0.
      assert (Hkeep : forall room', is_Some (room_heap s !! room') ->
                is_Some (<[room := set_Clients (fun X => X ∖ {[client]}) r]>
                           (room_heap s) !! room')).
      { intros room' Hs. destruct (decide (room' = room)) as [->|Hne].
        - rewrite lookup_insert_eq. eauto.
        - rewrite lookup_insert_ne by congruence. exact Hs. }
      destruct (decide (c = client)) as [->|Hc'].
      + rewrite lookup_insert_eq in Hc0. injection Hc0 as <-. cbn.
        split; [exact (proj1 (Hc client cl Hcl))|]. rewrite Hroom.
        apply Hkeep. eauto.
      + rewrite lookup_insert_ne in Hc0 by congruence.
        destruct (Hc c c0 Hc0) as [Hlen Hroom0]. split; [exact Hlen|].
        destruct (client_Room c0); [apply Hkeep; exact Hroom0|exact I].
    - intros k room' Hreg. specialize (He k room' Hreg).
      destruct (decide (room' = room)) as [->|Hne].
      + rewrite lookup_insert_eq. rewrite Hr in He. exact He.
      + rewrite lookup_insert_ne by congruence. exact He. }
  destruct (notify_ok data (elements (Clients (set_Clients (fun X => X ∖ {[client]}) r))) s4)
    as (s5 & Hrun & Honly & Hstep).
  { intros c Hin. apply elem_of_elements in Hin.
    destruct Hwf4 as (Hm4 & _ & _).
    assert (Hr4 : room_heap s4 !! room = Some (set_Clients (fun X => X ∖ {[client]}) r))
      by exact Hr3.
    specialize (Hm4 room _ Hr4 c Hin). unfold member_ok in Hm4.
    destruct (client_heap s4 !! c) as [c4|]; [|contradiction].
    exists c4. split; [reflexivity|exact (proj1 Hm4)]. }
  rewrite (bind_run _ _ _ _ _ Hrun).
  pose proof (clients_only_rooms _ _ Honly) as Hrooms.
  pose proof (clients_only_room_heap _ _ Honly) as Hheap.
  pose proof (well_formed_heap_step s4 s5 Hwf4 Hrooms Hheap Hstep) as Hwf5.
  assert (Hr5 : room_heap s5 !! room = Some (set_Clients (fun X => X ∖ {[client]}) r))
    by (rewrite Hheap; exact Hr3).
  rewrite (bind_run _ _ _ _ _ (get_room_run _ _ _ Hr5)).
  cbn [Clients set_Clients ID].
  assert (Hcl5 : client_heap s5 !! client = Some (set_Send (mkChan (queue (Send cl)) true) cl)).
  { (* the leaver is not notified: its object is as the close left it *)
    assert (Hnd := NoDup_elements (Clients (set_Clients (fun X => X ∖ {[client]}) r))).
    assert (Hcl4 : client_heap s4 !! client = Some (set_Send (mkChan (queue (Send cl)) true) cl))
      by (subst s4 s3 s2 s1; state_simpl; apply lookup_insert_eq).
    destruct (notify_queue _ data _ _ Hnd Hrun client _ Hcl4) as (cl5 & Hcl5 & Hsend).
    rewrite bool_decide_eq_false_2 in Hsend.
    2: { rewrite elem_of_elements. cbn [Clients set_Clients].
         intros Hin. apply elem_of_difference in Hin as [_ Hnot].
         apply Hnot, elem_of_singleton. reflexivity. }
    pose proof (Hstep client) as Hq. rewrite Hcl4, Hcl5 in Hq.
    destruct Hq as (Q1 & Q2 & Q3 & _ & _).
    rewrite Hcl5. f_equal. destruct cl5 as [a b c d]. cbn in *. subst. reflexivity. }
  assert (Hnot : forall c cl0, c <> client -> client_heap s !! c = Some cl0 ->
            client_heap s5 !! c =
              Some (if bool_decide (c ∈ Clients r)
                    then set_Send (offer data (Send cl0)) cl0 else cl0)).
  { intros c cl0 Hne Hc0.
    assert (Hc4 : client_heap s4 !! c = Some cl0)
      by (subst s4 s3 s2 s1; state_simpl; rewrite lookup_insert_ne by congruence; exact Hc0).
    assert (Hnd := NoDup_elements (Clients (set_Clients (fun X => X ∖ {[client]}) r))).
    destruct (notify_queue _ data _ _ Hnd Hrun c _ Hc4) as (c5 & Hc5 & Hsend).
    pose proof (Hstep c) as Hq. rewrite Hc4, Hc5 in Hq.
    destruct Hq as (Q1 & Q2 & Q3 & _ & _).
    rewrite Hc5. f_equal.
    assert (Hsame : bool_decide
              (c ∈ elements (Clients (set_Clients (fun X => X ∖ {[client]}) r))) =
            bool_decide (c ∈ Clients r)).
    { apply bool_decide_ext. rewrite elem_of_elements. cbn [Clients set_Clients].
      rewrite elem_of_difference, elem_of_singleton. tauto. }
    rewrite Hsame in Hsend.
    destruct c5 as [a b c' d], cl0 as [a0 b0 c0 d0]. cbn in Q1, Q2, Q3, Hsend. subst.
    destruct (bool_decide (c ∈ Clients r)); reflexivity. }
  assert (Hstep' : heap_step (set_client_heap
             <[client := set_Send (mkChan (queue (Send cl)) true) cl]> s) s5).
  { intros c. exact (Hstep c). }
  destruct (bool_decide (size (Clients r ∖ {[client]}) = 0%nat)) eqn:Hempty; cbn [when].
  - eexists. split; [reflexivity|]. split.
    + apply (well_formed_frame (set_rooms (delete (ID r)) s5)); try reflexivity.
      apply well_formed_delete. exact Hwf5.
    + exists r. split; [exact Hr|]. rewrite bool_decide_eq_true_2 by exact Hmem.
      state_simpl. rewrite Hheap, Hrooms.
      split; [reflexivity|]. split; [rewrite Hempty; reflexivity|].
      split; [exact Hcl5|]. split; [reflexivity|].
      split; [intros c; exact (Hstep' c)|exact Hnot].
  - exists s5. split; [reflexivity|]. split; [exact Hwf5|].
    exists r. split; [exact Hr|]. rewrite bool_decide_eq_true_2 by exact Hmem.
    rewrite Hheap, Hrooms.
    split; [reflexivity|]. split; [rewrite Hempty; reflexivity|].
    split; [exact Hcl5|]. split; [reflexivity|]. split; [exact Hstep'|exact Hnot].
Qed.

End ConsistencyLeave.

(** ** The fan-out of a send, member by member *)

Section FanoutExact.

Lemma fanout_exact room data l : forall s r,
  NoDup l -> room_heap s !! room = Some r ->
  (forall c, c ∈ l -> exists cl, client_heap s !! c = Some cl /\ closed (Send cl) = false) ->
  exists s' members,
    fanout room l data s = Done tt s' /\
    s' = set_client_heap (fun _ => client_heap s')
           (set_room_heap <[room := set_Clients (fun _ => members) r]> s) /\
    (forall c, c ∈ members <->
       c ∈ Clients r /\
       (c ∈ l -> exists cl, client_heap s !! c = Some cl /\ has_room cl = true)) /\
    (forall c, client_heap s' !! c =
       if bool_decide (c ∈ l) then after_fanout data <$> client_heap s !! c
       else client_heap s !! c).
Proof.
  induction l as [|c l IH]; intros s r Hnd Hr Hopen.
  - exists s, (Clients r). split; [reflexivity|]. split.
    + destruct s, r. unfold set_client_heap, set_room_heap, set_Clients. cbn in *.
      f_equal. symmetry. apply insert_id. exact Hr.
    + split.
      * intros c. split; [intros H; split; [exact H|]|intros [H _]; exact H].
        intros Hin. apply elem_of_nil in Hin. contradiction.
      * intros c. rewrite bool_decide_eq_false_2 by apply not_elem_of_nil. reflexivity.
  - apply NoDup_cons in Hnd as [Hnotin Hnd].
    destruct (Hopen c ltac:(left)) as (cl & Hcl & Hcopen).
    cbn [fanout]. rewrite (bind_run _ _ _ _ _ (try_send_run c data s cl Hcl Hcopen)).
    set (s1 := set_client_heap _ s).
    destruct (length (queue (Send cl)) <? Send_capacity)%nat eqn:Hroom.
    + (* queued *)
      unfold when, negb. unfold bind at 1, ret at 1.
      destruct (IH s1 r Hnd Hr) as (s' & members & Hrun & Hs' & Hmem & Hheap).
      { intros c' Hin. subst s1. state_simpl.
        rewrite lookup_insert_ne by (intros ->; contradiction).
        apply Hopen. right. exact Hin. }
      exists s', members. split; [exact Hrun|]. split.
      { rewrite Hs' at 1. subst s1. reflexivity. }
      split.
      * intros c'. rewrite Hmem. subst s1. state_simpl.
        split; intros [Hin Hq]; (split; [exact Hin|]); intros Hin'.
        -- apply elem_of_cons in Hin' as [->|Hin'].
           ++ exists cl. split; [exact Hcl|exact Hroom].
           ++ specialize (Hq Hin').
              rewrite lookup_insert_ne in Hq by (intros ->; contradiction). exact Hq.
        -- rewrite lookup_insert_ne by (intros ->; contradiction).
           apply Hq. right. exact Hin'.
      * intros c'. rewrite Hheap. subst s1. state_simpl.
        destruct (decide (c' = c)) as [->|Hne].
        -- rewrite bool_decide_eq_false_2 by exact Hnotin.
           rewrite bool_decide_eq_true_2 by left.
           rewrite lookup_insert_eq, Hcl. cbn. f_equal.
           unfold after_fanout, has_room, offer. rewrite Hroom. reflexivity.
        -- rewrite lookup_insert_ne by congruence.
           destruct (decide (c' ∈ l)) as [Hin|Hout].
           ++ rewrite !bool_decide_eq_true_2 by (try right; exact Hin). reflexivity.
           ++ rewrite !bool_decide_eq_false_2; [reflexivity| |exact Hout].
              intros Hin. apply elem_of_cons in Hin as [?|?]; contradiction.
    + (* queue full: the client is removed and its queue closed *)
      unfold when, negb.
      assert (Hr1 : room_heap s1 !! room = Some r) by exact Hr.
      rewrite bind_assoc, (bind_run _ _ _ _ _ (update_room_run _ _ _ _ Hr1)).
      set (s2 := set_room_heap _ s1).
      assert (Hcl2 : client_heap s2 !! c = Some (set_Send (offer data (Send cl)) cl))
        by (subst s2 s1; state_simpl; apply lookup_insert_eq).
      unfold close_Send. rewrite bind_assoc, (bind_run _ _ _ _ _ (get_client_run _ _ _ Hcl2)).
      unfold chan_close. cbn [Send set_Send]. unfold offer at 1. rewrite Hroom, Hcopen.
      rewrite (bind_run _ _ _ _ _ (update_client_run _ _ _ _ Hcl2)).
      set (s3 := set_client_heap _ s2).
      destruct (IH s3 (set_Clients (fun cl => cl ∖ {[c]}) r) Hnd)
        as (s' & members & Hrun & Hs' & Hmem & Hheap).
      { subst s3 s2. state_simpl. apply lookup_insert_eq. }
      { intros c' Hin. subst s3 s2 s1. state_simpl.
        rewrite !lookup_insert_ne by (intros ->; contradiction).
        apply Hopen. right. exact Hin. }
      exists s', members. split; [exact Hrun|]. split.
      { rewrite Hs' at 1. subst s3 s2 s1.
        destruct s. unfold set_client_heap, set_room_heap. cbn. f_equal.
        rewrite !insert_insert_eq. reflexivity. }
      split.
      * intros c'. rewrite Hmem. subst s3 s2 s1. state_simpl. cbn [Clients set_Clients].
        split.
        -- intros [Hin Hq]. apply elem_of_difference in Hin as [Hin Hnot].
           assert (c' <> c) by (intros ->; apply Hnot, elem_of_singleton; reflexivity).
           split; [exact Hin|]. intros Hin'.
           apply elem_of_cons in Hin' as [->|Hin']; [contradiction|].
           specialize (Hq Hin'). rewrite !lookup_insert_ne in Hq by congruence. exact Hq.
        -- intros [Hin Hq].
           assert (c' <> c).
           { intros ->. destruct (Hq ltac:(left)) as (cl0 & Hcl0 & Hfull).
             rewrite Hcl in Hcl0. injection Hcl0 as <-. unfold has_room in Hfull. congruence. }
           split.
           ++ apply elem_of_difference. split; [exact Hin|].
              rewrite elem_of_singleton. assumption.
           ++ intros Hin'. rewrite !lookup_insert_ne by congruence.
              apply Hq. right. exact Hin'.
      * intros c'. rewrite Hheap. subst s3 s2 s1. state_simpl.
        destruct (decide (c' = c)) as [->|Hne].
        -- rewrite bool_decide_eq_false_2 by exact Hnotin.
           rewrite bool_decide_eq_true_2 by left.
           rewrite lookup_insert_eq, Hcl. cbn. f_equal.
           unfold after_fanout, has_room, offer. rewrite Hroom. reflexivity.
        -- rewrite !lookup_insert_ne by congruence.
           destruct (decide (c' ∈ l)) as [Hin|Hout].
           ++ rewrite !bool_decide_eq_true_2 by (try right; exact Hin). reflexivity.
           ++ rewrite !bool_decide_eq_false_2; [reflexivity| |exact Hout].
              intros Hin. apply elem_of_cons in Hin as [?|?]; contradiction.
Qed.

End FanoutExact.

Section SendExact.
Variable W : World.

(** A send that has passed the two checks, up to the encoding of the
    stamped message. *)
Lemma BroadcastMessage_admitted room message userID s s1 r :
  checkRateLimit W userID s = Done true s1 ->
  (String.length (Encrypted message) <= 4096)%nat ->
  room_heap s !! room = Some r ->
  clock_sane W ->
  exists s5,
    BroadcastMessage W room message userID s =
      match json_Marshal W (stamp W (now_reads s1) message) with
      | None => Done (Some ErrMarshalFailed) (set_log (fun l => l ++ [LogMarshalError]) s5)
      | Some messageData =>
          (fanout room (elements (Clients r)) messageData;; ret None) s5
      end /\
    rooms s5 = rooms s /\ client_heap s5 = client_heap s /\
    room_heap s5 =
      <[room := set_Messages
                  (fun _ => appended (Messages r) (stamp W (now_reads s1) message)) r]>
        (room_heap s) /\
    rateLimiter s5 = rateLimiter s1.
Proof.
  intros Hrate Hlen Hr Hsane.
  destruct (checkRateLimit_frame W _ _ _ _ Hrate)
    as (Hrooms1 & Hredis1 & Hheap1 & Hclients1 & Hsp1 & Hlog1 & Hcalls1).
  unfold BroadcastMessage. rewrite (bind_run _ _ _ _ _ Hrate). cbn [negb].
  destruct (Z.ltb_spec (MaxMessageSize messageConfig)
              (Z.of_nat (String.length (Encrypted message)))) as [Hbig|_].
  { cbn in Hbig. lia. }
  assert (Hr1 : room_heap s1 !! room = Some r) by (rewrite Hheap1; exact Hr).
  rewrite (bind_run _ _ _ _ _ (get_room_run _ _ _ Hr1)).
  rewrite (bind_run _ _ _ _ _ (generateMessageID_run W s1 Hsane)).
  rewrite (bind_run _ _ _ _ _ (time_Now_run _ _)).
  rewrite (bind_run _ _ _ _ _ (time_Now_run _ _)).
  cbn [now_reads set_now_reads].
  replace (S (now_reads s1 + 7)) with (now_reads s1 + 8)%nat by lia.
  fold (stamp W (now_reads s1) message).
  set (m := stamp W (now_reads s1) message) in *.
  set (s2 := set_now_reads (S (now_reads s1 + 8)) _).
  rewrite (bind_run _ _ _ _ _ (eq_refl : get s2 = Done s2 s2)).
  destruct (BroadcastMessage_store W m s2)
    as (s3 & failed & Hrun3 & Hheap3 & Hclients3 & Hrooms3 & Hlim3 & Hlog3 & _).
  rewrite (bind_run _ _ _ _ _ Hrun3).
  assert (Hr3 : room_heap s3 !! room = Some r) by (rewrite Hheap3; exact Hr1).
  rewrite (bind_run _ _ _ _ _ (update_room_run _ _ _ _ Hr3)).
  set (s4 := set_room_heap _ s3).
  assert (Hr4 : room_heap s4 !! room = Some (set_Messages (fun l => l ++ [m]) r))
    by (subst s4; state_simpl; apply lookup_insert_eq).
  rewrite (bind_run _ _ _ _ _ (update_room_run _ _ _ _ Hr4)).
  set (s5 := set_room_heap _ s4).
  exists s5.
  assert (Hr5 : room_heap s5 =
            <[room := set_Messages (fun _ => appended (Messages r) m) r]> (room_heap s)).
  { subst s5 s4. state_simpl. rewrite insert_insert_eq, Hheap3. subst s2. state_simpl.
    rewrite Hheap1. reflexivity. }
  split.
  - destruct (json_Marshal W m) as [data|]; [|reflexivity].
    assert (Hr5' : room_heap s5 !! room =
              Some (set_Messages (fun _ => appended (Messages r) m) r))
      by (rewrite Hr5; apply lookup_insert_eq).
    rewrite (bind_run _ _ _ _ _ (get_room_run _ _ _ Hr5')). reflexivity.
  - subst s5 s4. state_simpl. rewrite Hrooms3, Hclients3, Hlim3. subst s2. state_simpl.
    split; [exact Hrooms1|]. split; [exact Hclients1|]. split; [exact Hr5|].
    reflexivity.
Qed.

(** The state a successful send leaves. *)
Lemma BroadcastMessage_sent room message userID s s1 r data :
  checkRateLimit W userID s = Done true s1 ->
  (String.length (Encrypted message) <= 4096)%nat ->
  room_heap s !! room = Some r ->
  members_open s r ->
  clock_sane W ->
  json_Marshal W (stamp W (now_reads s1) message) = Some data ->
  exists s' members,
    BroadcastMessage W room message userID s = Done None s' /\
    rooms s' = rooms s /\
    room_heap s' =
      <[room := mkChatRoom (ID r) (Name r) members
                  (appended (Messages r) (stamp W (now_reads s1) message))
                  (CreatedAt r)]> (room_heap s) /\
    (forall c, c ∈ members <->
       c ∈ Clients r /\ exists cl, client_heap s !! c = Some cl /\ has_room cl = true) /\
    (forall c, client_heap s' !! c =
       if bool_decide (c ∈ Clients r) then after_fanout data <$> client_heap s !! c
       else client_heap s !! c).
Proof.
  intros Hrate Hlen Hr Hopen Hsane Hdata.
  destruct (BroadcastMessage_admitted room message userID s s1 r Hrate Hlen Hr Hsane)
    as (s5 & Hrun & Hrooms5 & Hclients5 & Hheap5 & _).
  rewrite Hdata in Hrun.
  set (r5 := set_Messages _ r) in *.
  assert (Hr5 : room_heap s5 !! room = Some r5) by (rewrite Hheap5; apply lookup_insert_eq).
  destruct (fanout_exact room data (elements (Clients r)) s5 r5 (NoDup_elements _) Hr5)
    as (s' & members & Hfan & Hs' & Hmem & Hheap).
  { intros c Hin. apply elem_of_elements in Hin. rewrite Hclients5. apply Hopen. exact Hin. }
  exists s', members. rewrite Hrun, (bind_run _ _ _ _ _ Hfan).
  split; [reflexivity|]. rewrite Hs'. state_simpl.
  split; [exact Hrooms5|]. split; [rewrite Hheap5, insert_insert_eq; reflexivity|].
  split.
  - intros c. rewrite Hmem, Hclients5. subst r5. cbn [Clients set_Messages].
    split; intros [Hin Hq]; (split; [exact Hin|]).
    + apply Hq. apply elem_of_elements. exact Hin.
    + intros _. exact Hq.
  - intros c. rewrite Hs' in Hheap. state_simpl. rewrite Hheap, Hclients5.
    destruct (decide (c ∈ Clients r)) as [Hin|Hout].
    + rewrite !bool_decide_eq_true_2; [reflexivity|exact Hin|].
      apply elem_of_elements. exact Hin.
    + rewrite !bool_decide_eq_false_2; [reflexivity|exact Hout|].
      rewrite elem_of_elements. exact Hout.
Qed.

End SendExact.

Lemma well_formed_fanout s s' room r r' data :
  well_formed s -> room_heap s !! room = Some r ->
  rooms s' = rooms s -> room_heap s' = <[room := r']> (room_heap s) -> ID r' = ID r ->
  (forall c, c ∈ Clients r' <->
     c ∈ Clients r /\ exists cl, client_heap s !! c = Some cl /\ has_room cl = true) ->
  (forall c, client_heap s' !! c =
     if bool_decide (c ∈ Clients r) then after_fanout data <$> client_heap s !! c
     else client_heap s !! c) ->
  well_formed s'.
Proof.
  intros (Hm & Hc & He) Hr Hrooms Hheap HID Hmem Hclients.
  unfold well_formed, member_ok, client_ok, entry_ok in *.
  rewrite Hrooms, Hheap. split; [|split].
  - intros room' r0 Hr0 c Hin. rewrite Hclients.
    destruct (decide (room' = room)) as [->|Hne].
    + rewrite lookup_insert_eq in Hr0. injection Hr0 as <-.
      apply Hmem in Hin as (Hin & cl & Hcl & Hhas).
      rewrite bool_decide_eq_true_2 by exact Hin. rewrite Hcl. cbn.
      specialize (Hm room r Hr c Hin). rewrite Hcl in Hm.
      unfold after_fanout. rewrite Hhas. cbn. split; [reflexivity|exact (proj2 Hm)].
    + rewrite lookup_insert_ne in Hr0 by congruence.
      pose proof (Hm room' r0 Hr0 c Hin) as Hok.
      rewrite bool_decide_eq_false_2; [exact Hok|].
      intros Hin'. specialize (Hm room r Hr c Hin').
      destruct (client_heap s !! c); [|contradiction].
      destruct Hok as [_ Hok], Hm as [_ Hm]. congruence.
  - intros c cl' Hcl'. rewrite Hclients in Hcl'.
    assert (Hkeep : forall room', is_Some (room_heap s !! room') ->
              is_Some (<[room := r']> (room_heap s) !! room')).
    { intros room' Hs. destruct (decide (room' = room)) as [->|Hne].
      - rewrite lookup_insert_eq. eauto.
      - rewrite lookup_insert_ne by congruence. exact Hs. }
    destruct (client_heap s !! c) as [cl|] eqn:Hcl.
    2: { destruct (bool_decide _); discriminate. }
    destruct (Hc c cl Hcl) as [Hlen Hroom].
    assert (Hcases : cl' = cl \/ cl' = after_fanout data cl)
      by (destruct (bool_decide _); cbn in Hcl'; injection Hcl' as <-; auto).
    destruct Hcases as [->| ->].
    + split; [exact Hlen|]. destruct (client_Room cl); [apply Hkeep; exact Hroom|exact I].
    + unfold after_fanout, has_room, Send_capacity in *.
      destruct (Nat.ltb_spec (length (queue (Send cl))) 256); cbn.
      * rewrite length_app. cbn. split; [lia|].
        destruct (client_Room cl); [apply Hkeep; exact Hroom|exact I].
      * split; [exact Hlen|].
        destruct (client_Room cl); [apply Hkeep; exact Hroom|exact I].
  - intros k room' Hreg. specialize (He k room' Hreg).
    destruct (decide (room' = room)) as [->|Hne].
    + rewrite lookup_insert_eq. rewrite Hr in He. congruence.
    + rewrite lookup_insert_ne by congruence. exact He.
Qed.

Lemma well_formed_members_open s room r :
  well_formed s -> room_heap s !! room = Some r -> members_open s r.
Proof.
  intros (Hm & _ & _) Hr c Hin. specialize (Hm room r Hr c Hin).
  unfold member_ok in Hm. destruct (client_heap s !! c) as [cl|]; [|contradiction].
  exists cl. split; [reflexivity|exact (proj1 Hm)].
Qed.

Section ConsistencySend.
Variable W : World.

Lemma BroadcastMessage_ok room message userID s r :
  well_formed s -> room_heap s !! room = Some r -> clock_sane W ->
  exists res s',
    BroadcastMessage W room message userID s = Done res s' /\ well_formed s' /\
    (is_Some res -> client_heap s' = client_heap s).
Proof.
  intros Hwf Hr Hsane.
  destruct (checkRateLimit_Done W userID s) as (rl & n & _ & Hrate).
  set (s1 := mkState _ _ _ _ _ _ _ _ _) in Hrate.
  assert (Hwf1 : well_formed s1)
    by (apply (well_formed_frame s); [reflexivity..|exact Hwf]).
  destruct (allow_at (clock W n) rl).1 eqn:Hallowed.
  2: { exists (Some ErrRateLimit), s1. split; [|split; [exact Hwf1|reflexivity]].
       unfold BroadcastMessage. rewrite (bind_run _ _ _ _ _ Hrate). reflexivity. }
  destruct (Z.ltb_spec (MaxMessageSize messageConfig)
              (Z.of_nat (String.length (Encrypted message)))) as [Hbig|Hsmall].
  { eexists _, s1. split; [|split; [exact Hwf1|reflexivity]].
    unfold BroadcastMessage. rewrite (bind_run _ _ _ _ _ Hrate). cbn [negb].
    apply Z.ltb_lt in Hbig. rewrite Hbig. reflexivity. }
  assert (Hlen : (String.length (Encrypted message) <= 4096)%nat) by (cbn in Hsmall; lia).
  destruct (json_Marshal W (stamp W (now_reads s1) message)) as [data|] eqn:Hdata.
  - destruct (BroadcastMessage_sent W room message userID s s1 r data Hrate Hlen Hr
                (well_formed_members_open s room r Hwf Hr) Hsane Hdata)
      as (s' & members & Hrun & Hrooms & Hheap & Hmem & Hclients).
    exists None, s'. split; [exact Hrun|].
    split; [|intros [x Hx]; discriminate].
    eapply (well_formed_fanout s s' room r); eauto.
  - destruct (BroadcastMessage_admitted W room message userID s s1 r Hrate Hlen Hr Hsane)
      as (s5 & Hrun & Hrooms5 & Hclients5 & Hheap5 & _).
    rewrite Hdata in Hrun. eexists _, _. split; [exact Hrun|].
    split; [|intros _; exact Hclients5].
    apply (well_formed_frame s5); [reflexivity..|].
    destruct Hwf as (Hm & Hc & He).
    unfold well_formed, member_ok, client_ok, entry_ok in *.
    rewrite Hrooms5, Hclients5, Hheap5. split; [|split].
    + intros room' r0 Hr0 c Hin.
      destruct (decide (room' = room)) as [->|Hne].
      * rewrite lookup_insert_eq in Hr0. injection Hr0 as <-. exact (Hm room r Hr c Hin).
      * rewrite lookup_insert_ne in Hr0 by congruence. exact (Hm room' r0 Hr0 c Hin).
    + intros c cl Hcl. destruct (Hc c cl Hcl) as [Hq Hroom]. split; [exact Hq|].
      destruct (client_Room cl) as [room'|]; [|exact I].
      destruct (decide (room' = room)) as [->|Hne].
      * rewrite lookup_insert_eq. eauto.
      * rewrite lookup_insert_ne by congruence. exact Hroom.
    + intros k room' Hreg. specialize (He k room' Hreg).
      destruct (decide (room' = room)) as [->|Hne].
      * rewrite lookup_insert_eq. rewrite Hr in He. exact He.
      * rewrite lookup_insert_ne by congruence. exact He.
Qed.

Lemma deliver_ok client msgs : forall s cl,
  client_heap s !! client = Some cl -> closed (Send cl) = false ->
  exists s' cl',
    deliver W client msgs s = Done tt s' /\
    s' = set_now_reads (now_reads s') (set_client_heap <[client := cl']> s) /\
    queue_step cl cl'.
Proof.
  induction msgs as [|m msgs IH]; intros s cl Hcl Ho.
  - exists s, cl. split; [reflexivity|]. split; [|apply queue_step_refl].
    destruct s. unfold set_now_reads, set_client_heap. cbn in *. f_equal.
    symmetry. apply insert_id. exact Hcl.
  - cbn [deliver]. rewrite (bind_run _ _ _ _ _ (time_Now_run W s)).
    set (s1 := set_now_reads _ s).
    assert (Hskip : exists s' cl',
              deliver W client msgs s1 = Done tt s' /\
              s' = set_now_reads (now_reads s') (set_client_heap <[client := cl']> s) /\
              queue_step cl cl').
    { destruct (IH s1 cl Hcl Ho) as (s' & cl' & Hrun & Hs' & Hq).
      exists s', cl'. split; [exact Hrun|]. split; [|exact Hq].
      rewrite Hs' at 1. reflexivity. }
    destruct (Time_After _ _); [exact Hskip|].
    destruct (json_Marshal W m) as [data|]; [|exact Hskip].
    assert (Hcl1 : client_heap s1 !! client = Some cl) by exact Hcl.
    rewrite (bind_run _ _ _ _ _ (try_send_run client data s1 cl Hcl1 Ho)).
    set (s2 := set_client_heap _ s1).
    pose proof (queue_step_offer data cl Ho) as Hq1.
    destruct (length (queue (Send cl)) <? Send_capacity)%nat.
    + destruct (IH s2 (set_Send (offer data (Send cl)) cl)) as (s' & cl' & Hrun & Hs' & Hq).
      { subst s2. state_simpl. apply lookup_insert_eq. }
      { destruct Hq1 as (_ & _ & _ & HO & _). rewrite HO. exact Ho. }
      exists s', cl'. split; [exact Hrun|]. split.
      * rewrite Hs' at 1. subst s2 s1. destruct s.
        unfold set_now_reads, set_client_heap. cbn. f_equal.
        apply insert_insert_eq.
      * eapply queue_step_trans; eassumption.
    + exists s2, (set_Send (offer data (Send cl)) cl). split; [reflexivity|].
      split; [reflexivity|exact Hq1].
Qed.

Lemma cleanup_loop_heaps l : forall s s',
  cleanup_loop W l s = Done tt s' ->
  client_heap s' = client_heap s /\ room_heap s' = room_heap s.
Proof.
  induction l as [|[k room] l IH]; intros s s' Hrun.
  - injection Hrun as <-. auto.
  - cbn [cleanup_loop] in Hrun.
    apply bind_Done in Hrun as (r & s1 & Hget & Hrun).
    apply get_room_Done in Hget as [_ ->].
    rewrite (bind_run _ _ _ _ _ (time_Now_run W s)) in Hrun.
    apply bind_Done in Hrun as ([] & s2 & Hwhen & Hrun).
    apply IH in Hrun as [-> ->].
    destruct (_ && _); injection Hwhen as <-; auto.
Qed.

Lemma cleanup_tick_ok s :
  well_formed s -> exists s', cleanup_tick W s = Done tt s' /\ well_formed s'.
Proof.
  intros Hwf.
  destruct (cleanup_loop_run W (map_to_list (rooms s)) s) as (s' & Hrun & Hheap & _ & Hk).
  { intros k room Hin. apply elem_of_map_to_list in Hin.
    pose proof (proj2 (proj2 Hwf) k room Hin) as He. unfold entry_ok in He.
    destruct (room_heap s !! room); [eauto|contradiction]. }
  exists s'. split; [exact Hrun|].
  destruct (cleanup_loop_heaps _ _ _ Hrun) as [Hclients _].
  destruct Hwf as (Hm & Hc & He).
  unfold well_formed, member_ok, client_ok, entry_ok in *.
  rewrite Hheap, Hclients. split; [exact Hm|]. split; [exact Hc|].
  intros k room Hreg. apply He. apply (proj2 (Hk k)). exact Hreg.
Qed.

End ConsistencySend.

(** ** Joining, leaving and sending on a consistent heap *)

Lemma bob_joined_well_formed : well_formed bob_joined.
Proof. apply (bool_decide_unpack _). vm_compute. exact I. Qed.

Lemma two_joined_well_formed : well_formed two_joined.
Proof. apply (bool_decide_unpack _). vm_compute. exact I. Qed.

Lemma three_clients_well_formed : well_formed three_clients.
Proof. apply (bool_decide_unpack _). vm_compute. exact I. Qed.

Lemma two_joined_room :
  exists r, room_heap two_joined !! 0%nat = Some r /\ Clients r = {[0%nat; 1%nat]}.
Proof. eexists. split; [vm_compute; reflexivity|]. vm_compute. reflexivity. Qed.

Lemma two_joined_carol :
  exists cl, client_heap two_joined !! 1%nat = Some cl /\ client_Room cl = Some 0%nat /\
             closed (Send cl) = false.
Proof. eexists. split; [vm_compute; reflexivity|]. split; reflexivity. Qed.

Lemma three_clients_carol :
  exists cl, client_heap bob_joined !! 1%nat = Some cl /\ closed (Send cl) = false.
Proof. eexists. split; [vm_compute; reflexivity|]. reflexivity. Qed.

(** X2. [JoinRoom], for a connection with an open queue that is a member of
    no other room, returns without error and leaves a consistent heap. *)
Theorem JoinRoom_keeps_consistency W client roomID userID userName s cl :
  well_formed s ->
  client_heap s !! client = Some cl -> closed (Send cl) = false ->
  only_in s client roomID ->
  exists s',
    JoinRoom W client roomID userID userName s = Done None s' /\ well_formed s'.
Proof.
  intros Hwf Hcl Ho Honly.
  destruct (JoinRoom_ok W client roomID userID userName s cl Hwf Hcl Ho Honly)
    as (s' & room & r & cl' & Hrun & Hwf' & _).
  exists s'. split; [exact Hrun|exact Hwf'].
Qed.

Lemma JoinRoom_keeps_consistency_witness :
  exists s',
    JoinRoom tick_world 1 "r1" "user-c" "carol" bob_joined = Done None s' /\
    well_formed s'.
Proof.
  destruct three_clients_carol as (cl & Hcl & Ho).
  apply (JoinRoom_keeps_consistency tick_world 1 "r1" "user-c" "carol" bob_joined cl).
  - exact bob_joined_well_formed.
  - exact Hcl.
  - exact Ho.
  - apply (bool_decide_unpack _). vm_compute. exact I.
Defined.

(** X3. What [JoinRoom] does, under the same conditions: the room registered
    under [roomID] (created empty, with the name "Chat Room", if there was
    none) gains the connection as a member and keeps its other members,
    its history and its creation time; the connection records the room
    and the user; one history replay is started; no other registry entry
    changes. *)
Theorem JoinRoom_adds_member W client roomID userID userName s cl :
  well_formed s ->
  client_heap s !! client = Some cl -> closed (Send cl) = false ->
  only_in s client roomID ->
  exists s' room r' cl',
    JoinRoom W client roomID userID userName s = Done None s' /\
    rooms s' !! roomID = Some room /\
    (forall k, k <> roomID -> rooms s' !! k = rooms s !! k) /\
    room_heap s' !! room = Some r' /\ ID r' = roomID /\
    match rooms s !! roomID with
    | Some room0 =>
        room0 = room /\
        exists r, room_heap s !! room = Some r /\
          Clients r' = {[client]} ∪ Clients r /\ Messages r' = Messages r /\
          Name r' = Name r /\ CreatedAt r' = CreatedAt r
    | None =>
        room_heap s !! room = None /\
        Clients r' = {[client]} /\ Messages r' = [] /\
        Name r' = "Chat Room"%string /\ CreatedAt r' = clock W (now_reads s)
    end /\
    client_heap s' !! client = Some cl' /\
    client_Room cl' = Some room /\ UserID cl' = userID /\ UserName cl' = userName /\
    closed (Send cl') = false /\
    spawned s' = spawned s ++ [(client, room)].
Proof.
  intros Hwf Hcl Ho Honly.
  destruct (JoinRoom_ok W client roomID userID userName s cl Hwf Hcl Ho Honly)
    as (s' & room & r & cl' & Hrun & Hwf' & Hcase & Hrooms & Hheap & Hcl' & Hq & _ & Hsp & _).
  exists s', room, (set_Clients (fun X => {[client]} ∪ X) r), cl'.
  split; [exact Hrun|].
  split; [rewrite Hrooms; apply lookup_insert_eq|].
  split; [intros k Hne; rewrite Hrooms; apply lookup_insert_ne; congruence|].
  split; [rewrite Hheap; apply lookup_insert_eq|].
  destruct Hq as (Q1 & Q2 & Q3 & Q4 & _). cbn in Q1, Q2, Q3, Q4.
  destruct (rooms s !! roomID) as [room0|] eqn:Hreg.
  - destruct Hcase as [-> Hr].
    pose proof (proj2 (proj2 Hwf) roomID room Hreg) as He. unfold entry_ok in He.
    unfold RoomRef in *. rewrite Hr in He.
    split; [exact He|]. split; [split; [reflexivity|exists r; auto]|].
    rewrite Ho in Q4. auto 10.
  - destruct Hcase as [Hfresh ->]. cbn.
    split; [reflexivity|]. split; [split; [exact Hfresh|]|].
    + split; [apply union_empty_r_L|auto].
    + rewrite Ho in Q4. auto 10.
Qed.

Lemma JoinRoom_adds_member_witness :
  exists s' room r' cl',
    JoinRoom tick_world 1 "r1" "user-c" "carol" bob_joined = Done None s' /\
    rooms s' !! "r1"%string = Some room /\
    (forall k, k <> "r1"%string -> rooms s' !! k = rooms bob_joined !! k) /\
    room_heap s' !! room = Some r' /\ ID r' = "r1"%string /\
    match rooms bob_joined !! "r1"%string with
    | Some room0 =>
        room0 = room /\
        exists r, room_heap bob_joined !! room = Some r /\
          Clients r' = {[1%nat]} ∪ Clients r /\ Messages r' = Messages r /\
          Name r' = Name r /\ CreatedAt r' = CreatedAt r
    | None =>
        room_heap bob_joined !! room = None /\
        Clients r' = {[1%nat]} /\ Messages r' = [] /\
        Name r' = "Chat Room"%string /\ CreatedAt r' = clock tick_world (now_reads bob_joined)
    end /\
    client_heap s' !! 1%nat = Some cl' /\
    client_Room cl' = Some room /\ UserID cl' = "user-c"%string /\
    UserName cl' = "carol"%string /\
    closed (Send cl') = false /\
    spawned s' = spawned bob_joined ++ [(1%nat, room)].
Proof.
  destruct three_clients_carol as (cl & Hcl & Ho).
  apply (JoinRoom_adds_member tick_world 1 "r1" "user-c" "carol" bob_joined cl).
  - exact bob_joined_well_formed.
  - exact Hcl.
  - exact Ho.
  - apply (bool_decide_unpack _). vm_compute. exact I.
Defined.

(** X4. [LeaveRoom], for an allocated connection, returns and leaves a
    consistent heap. *)
Theorem LeaveRoom_keeps_consistency W client s cl :
  well_formed s -> client_heap s !! client = Some cl ->
  exists s', LeaveRoom W client s = Done tt s' /\ well_formed s'.
Proof.
  intros Hwf Hcl.
  destruct (LeaveRoom_ok W client s cl Hwf Hcl) as (s' & Hrun & Hwf' & _).
  exists s'. split; [exact Hrun|exact Hwf'].
Qed.

Lemma LeaveRoom_keeps_consistency_witness :
  exists s', LeaveRoom tick_world 1 two_joined = Done tt s' /\ well_formed s'.
Proof.
  destruct two_joined_carol as (cl & Hcl & _).
  apply (LeaveRoom_keeps_consistency tick_world 1 two_joined cl).
  - exact two_joined_well_formed.
  - exact Hcl.
Defined.

(** X5. When a member leaves, its queue is closed with the frames it held and
    it gets no notification; every remaining member of the room is
    offered the user_left frame, which is queued where fewer than 256
    frames are pending; the room loses the member and nothing else, and
    clients outside the room are untouched. *)
Theorem LeaveRoom_notifies_remaining_members W client s cl room r :
  well_formed s -> client_heap s !! client = Some cl ->
  client_Room cl = Some room -> room_heap s !! room = Some r ->
  client ∈ Clients r ->
  exists s',
    LeaveRoom W client s = Done tt s' /\
    room_heap s' = <[room := set_Clients (fun X => X ∖ {[client]}) r]> (room_heap s) /\
    client_heap s' !! client = Some (set_Send (mkChan (queue (Send cl)) true) cl) /\
    forall c cl0, c <> client -> client_heap s !! c = Some cl0 ->
      client_heap s' !! c =
        Some (if bool_decide (c ∈ Clients r)
              then set_Send
                     (offer (marshal_or_nil W
                               (mkEncryptedMessage "user_left" (ID r) "system" "" ""
                                  (clock W (now_reads s)) "" Time_zero 0))
                            (Send cl0)) cl0
              else cl0).
Proof.
  intros Hwf Hcl Hroom Hr Hin.
  destruct (LeaveRoom_ok W client s cl Hwf Hcl) as (s' & Hrun & _ & Hcase).
  rewrite Hroom in Hcase. destruct Hcase as (r0 & Hr0 & Hcase).
  rewrite Hr in Hr0. injection Hr0 as <-.
  rewrite bool_decide_eq_true_2 in Hcase by exact Hin.
  destruct Hcase as (Hheap & _ & Hcl' & _ & _ & Hnot).
  exists s'. auto.
Qed.

Lemma LeaveRoom_notifies_remaining_members_witness :
  exists cl r s',
    client_heap two_joined !! 1%nat = Some cl /\
    room_heap two_joined !! 0%nat = Some r /\
    LeaveRoom tick_world 1 two_joined = Done tt s' /\
    room_heap s' = <[0%nat := set_Clients (fun X => X ∖ {[1%nat]}) r]> (room_heap two_joined) /\
    client_heap s' !! 1%nat = Some (set_Send (mkChan (queue (Send cl)) true) cl) /\
    forall c cl0, c <> 1%nat -> client_heap two_joined !! c = Some cl0 ->
      client_heap s' !! c =
        Some (if bool_decide (c ∈ Clients r)
              then set_Send
                     (offer (marshal_or_nil tick_world
                               (mkEncryptedMessage "user_left" (ID r) "system" "" ""
                                  (clock tick_world (now_reads two_joined)) "" Time_zero 0))
                            (Send cl0)) cl0
              else cl0).
Proof.
  destruct two_joined_carol as (cl & Hcl & Hroom & _).
  destruct two_joined_room as (r & Hr & Hc).
  destruct (LeaveRoom_notifies_remaining_members tick_world 1 two_joined cl 0%nat r)
    as (s' & H).
  - exact two_joined_well_formed.
  - exact Hcl.
  - exact Hroom.
  - exact Hr.
  - rewrite Hc. apply elem_of_union_r, elem_of_singleton. reflexivity.
  - exists cl, r, s'. split; [exact Hcl|]. split; [exact Hr|exact H].
Defined.

(** ** Sending *)

Lemma two_joined_sent_data :
  exists s1 data,
    checkRateLimit tick_world "user-b" two_joined = Done true s1 /\
    json_Marshal tick_world (stamp tick_world (now_reads s1) hello) = Some data.
Proof. eexists _, _. split; vm_compute; reflexivity. Qed.

(** X6. [BroadcastMessage] into an allocated room, whatever its outcome
    (rate-limited, too large, not encodable or sent), returns and leaves
    a consistent heap, provided the clock shows a date after 1970. *)
Theorem BroadcastMessage_keeps_consistency W room message userID s r :
  well_formed s -> room_heap s !! room = Some r -> clock_sane W ->
  exists res s',
    BroadcastMessage W room message userID s = Done res s' /\ well_formed s'.
Proof.
  intros Hwf Hr Hsane.
  destruct (BroadcastMessage_ok W room message userID s r Hwf Hr Hsane)
    as (res & s' & Hrun & Hwf' & _).
  exists res, s'. split; [exact Hrun|exact Hwf'].
Qed.

Lemma BroadcastMessage_keeps_consistency_witness :
  exists res s',
    BroadcastMessage tick_world 0 hello "user-b" two_joined = Done res s' /\
    well_formed s'.
Proof.
  destruct two_joined_room as (r & Hr & _).
  apply (BroadcastMessage_keeps_consistency tick_world 0%nat hello "user-b" two_joined r).
  - exact two_joined_well_formed.
  - exact Hr.
  - exact tick_clock_sane.
Defined.

(** X7. The fan-out of a successful send: every member of the room whose
    queue holds fewer than 256 frames, the sender included, gets the
    encoded message as its last frame and stays a member; every member
    whose queue is full is removed from the room and its queue closed;
    clients outside the room and the other rooms are untouched. *)
Theorem BroadcastMessage_delivers W room message userID s s1 r data :
  checkRateLimit W userID s = Done true s1 ->
  (String.length (Encrypted message) <= 4096)%nat ->
  room_heap s !! room = Some r ->
  members_open s r ->
  clock_sane W ->
  json_Marshal W (stamp W (now_reads s1) message) = Some data ->
  exists s' r',
    BroadcastMessage W room message userID s = Done None s' /\
    room_heap s' !! room = Some r' /\
    (forall c, c ∈ Clients r' <->
       c ∈ Clients r /\ exists cl, client_heap s !! c = Some cl /\ has_room cl = true) /\
    (forall c, client_heap s' !! c =
       if bool_decide (c ∈ Clients r) then after_fanout data <$> client_heap s !! c
       else client_heap s !! c) /\
    (forall room', room' <> room -> room_heap s' !! room' = room_heap s !! room').
Proof.
  intros Hrate Hlen Hr Hopen Hsane Hdata.
  destruct (BroadcastMessage_sent W room message userID s s1 r data
              Hrate Hlen Hr Hopen Hsane Hdata)
    as (s' & members & Hrun & _ & Hheap & Hmem & Hclients).
  eexists s', _. split; [exact Hrun|].
  split; [rewrite Hheap; apply lookup_insert_eq|].
  split; [exact Hmem|]. split; [exact Hclients|].
  intros room' Hne. rewrite Hheap. apply lookup_insert_ne. congruence.
Qed.

Lemma BroadcastMessage_delivers_witness :
  exists r s1 data s' r',
    room_heap two_joined !! 0%nat = Some r /\
    checkRateLimit tick_world "user-b" two_joined = Done true s1 /\
    json_Marshal tick_world (stamp tick_world (now_reads s1) hello) = Some data /\
    BroadcastMessage tick_world 0 hello "user-b" two_joined = Done None s' /\
    room_heap s' !! 0%nat = Some r' /\
    (forall c, c ∈ Clients r' <->
       c ∈ Clients r /\
       exists cl, client_heap two_joined !! c = Some cl /\ has_room cl = true) /\
    (forall c, client_heap s' !! c =
       if bool_decide (c ∈ Clients r)
       then after_fanout data <$> client_heap two_joined !! c
       else client_heap two_joined !! c) /\
    (forall room', room' <> 0%nat -> room_heap s' !! room' = room_heap two_joined !! room').
Proof.
  destruct two_joined_room as (r & Hr & _).
  destruct two_joined_sent_data as (s1 & data & Hrate & Hdata).
  destruct (BroadcastMessage_delivers tick_world 0%nat hello "user-b" two_joined s1 r data)
    as (s' & r' & H).
  - exact Hrate.
  - simpl. lia.
  - exact Hr.
  - exact (well_formed_members_open two_joined 0%nat r two_joined_well_formed Hr).
  - exact tick_clock_sane.
  - exact Hdata.
  - exists r, s1, data, s', r'. auto.
Defined.

Lemma appended_length l m : (length (appended l m) <= 100)%nat.
Proof.
  unfold appended. destruct (Nat.ltb_spec 100 (length (l ++ [m]))).
  - rewrite length_drop. lia.
  - lia.
Qed.

Lemma appended_suffix l m : appended l m `suffix_of` (l ++ [m]).
Proof.
  unfold appended. destruct (100 <? length (l ++ [m]))%nat.
  - apply suffix_drop.
  - reflexivity.
Qed.

Lemma appended_short l m : (length l < 100)%nat -> appended l m = l ++ [m].
Proof.
  intros Hl. unfold appended.
  destruct (Nat.ltb_spec 100 (length (l ++ [m]))) as [H|H]; [|reflexivity].
  rewrite length_app in H. cbn in H. lia.
Qed.

(** X8. The in-memory history of a room after a successful send holds at
    most 100 messages, whatever it held before: it is the history before
    the send followed by the stamped message, cut to its last 100
    entries. *)
Theorem history_at_most_100 W room message userID s s1 r data :
  checkRateLimit W userID s = Done true s1 ->
  (String.length (Encrypted message) <= 4096)%nat ->
  room_heap s !! room = Some r ->
  members_open s r ->
  clock_sane W ->
  json_Marshal W (stamp W (now_reads s1) message) = Some data ->
  exists s' r',
    BroadcastMessage W room message userID s = Done None s' /\
    room_heap s' !! room = Some r' /\
    (length (Messages r') <= 100)%nat /\
    Messages r' `suffix_of` (Messages r ++ [stamp W (now_reads s1) message]) /\
    ((length (Messages r) < 100)%nat ->
     Messages r' = Messages r ++ [stamp W (now_reads s1) message]) /\
    ((100 <= length (Messages r))%nat ->
     Messages r' =
       drop (length (Messages r) - 99) (Messages r) ++ [stamp W (now_reads s1) message]).
Proof.
  intros Hrate Hlen Hr Hopen Hsane Hdata.
  destruct (BroadcastMessage_sent W room message userID s s1 r data
              Hrate Hlen Hr Hopen Hsane Hdata)
    as (s' & members & Hrun & _ & Hheap & _).
  eexists s', _. split; [exact Hrun|].
  split; [rewrite Hheap; apply lookup_insert_eq|]. cbn [Messages].
  split; [apply appended_length|]. split; [apply appended_suffix|].
  split; [apply appended_short|].
  intros Hfull. unfold appended.
  destruct (Nat.ltb_spec 100 (length (Messages r ++ [stamp W (now_reads s1) message])))
    as [H|H]; rewrite length_app in H; cbn in H; [|lia].
  rewrite length_app. cbn [length].
  replace (length (Messages r) + 1 - 100)%nat with (length (Messages r) - 99)%nat by lia.
  rewrite drop_app_le by lia. reflexivity.
Qed.

Lemma history_at_most_100_witness :
  exists r s1 data s' r',
    room_heap two_joined !! 0%nat = Some r /\
    checkRateLimit tick_world "user-b" two_joined = Done true s1 /\
    json_Marshal tick_world (stamp tick_world (now_reads s1) hello) = Some data /\
    BroadcastMessage tick_world 0 hello "user-b" two_joined = Done None s' /\
    room_heap s' !! 0%nat = Some r' /\
    (length (Messages r') <= 100)%nat /\
    Messages r' `suffix_of` (Messages r ++ [stamp tick_world (now_reads s1) hello]) /\
    ((length (Messages r) < 100)%nat ->
     Messages r' = Messages r ++ [stamp tick_world (now_reads s1) hello]) /\
    ((100 <= length (Messages r))%nat ->
     Messages r' =
       drop (length (Messages r) - 99) (Messages r) ++
       [stamp tick_world (now_reads s1) hello]).
Proof.
  destruct two_joined_room as (r & Hr & _).
  destruct two_joined_sent_data as (s1 & data & Hrate & Hdata).
  destruct (history_at_most_100 tick_world 0%nat hello "user-b" two_joined s1 r data)
    as (s' & r' & H).
  - exact Hrate.
  - simpl. lia.
  - exact Hr.
  - exact (well_formed_members_open two_joined 0%nat r two_joined_well_formed Hr).
  - exact tick_clock_sane.
  - exact Hdata.
  - exists r, s1, data, s', r'. auto.
Defined.

Lemma minutes_of_short d : d < Minute -> Duration_Minutes_int d <= 0.
Proof.
  intros Hd. unfold Duration_Minutes_int. pose proof Minute_val as HM.
  destruct (Z.le_gt_cases 0 d).
  - rewrite Z.quot_small by lia. lia.
  - apply Z.quot_le_upper_bound; lia.
Qed.

Lemma Time_Sub_short t u : t - u < Minute -> Time_Sub t u < Minute.
Proof.
  intros Hd. pose proof Minute_val. pose proof maxInt64_val. pose proof minInt64_val.
  unfold Time_Sub. cbv zeta.
  destruct (Z.ltb_spec (t - u) minInt64); [lia|].
  destruct (Z.ltb_spec maxInt64 (t - u)); lia.
Qed.

Lemma checkRateLimit_drained W userID s rl :
  rateLimiter s !! userID = Some rl -> tokens rl <= 0 ->
  clock W (now_reads s) - lastRefill rl < Minute ->
  checkRateLimit W userID s = Done false (set_now_reads (S (now_reads s)) s).
Proof.
  intros Hl Ht Hd.
  assert (Hallow : allow_at (clock W (now_reads s)) rl = (false, rl)).
  { unfold allow_at. cbv zeta.
    pose proof (minutes_of_short _ (Time_Sub_short _ _ Hd)) as Hm.
    destruct (Z.ltb_spec 0 (Duration_Minutes_int
                              (Time_Sub (clock W (now_reads s)) (lastRefill rl)))); [lia|].
    destruct (Z.ltb_spec 0 (tokens rl)); [lia|reflexivity]. }
  rewrite (checkRateLimit_known W _ _ _ Hl), (allow_run W _ _ _ Hl), Hallow.
  cbn [fst snd]. f_equal.
  destruct s. unfold set_rateLimiter, set_now_reads. cbn in *. f_equal.
  apply insert_id. exact Hl.
Qed.

(** X9. A send by a user whose bucket is empty, less than a minute after its
    last refill, is rejected with the rate-limit error and changes
    nothing: the room is not even looked up, and the limiter itself is
    left as it was.  Only the clock has been read once. *)
Theorem rate_limited_send_changes_nothing W room message userID s rl :
  rateLimiter s !! userID = Some rl -> tokens rl <= 0 ->
  clock W (now_reads s) - lastRefill rl < Minute ->
  BroadcastMessage W room message userID s =
    Done (Some ErrRateLimit) (set_now_reads (S (now_reads s)) s).
Proof.
  intros Hl Ht Hd. unfold BroadcastMessage.
  rewrite (bind_run _ _ _ _ _ (checkRateLimit_drained W userID s rl Hl Ht Hd)).
  reflexivity.
Qed.

Lemma rate_limited_send_changes_nothing_witness :
  BroadcastMessage tick_world 0 hello "user-b"
    (set_rateLimiter <["user-b" := mkRateLimiter 0 30 t0]> bob_joined) =
  Done (Some ErrRateLimit)
    (set_now_reads (S (now_reads bob_joined))
       (set_rateLimiter <["user-b" := mkRateLimiter 0 30 t0]> bob_joined)).
Proof.
  apply (rate_limited_send_changes_nothing tick_world 0%nat hello "user-b"
           (set_rateLimiter <["user-b" := mkRateLimiter 0 30 t0]> bob_joined)
           (mkRateLimiter 0 30 t0)).
  - reflexivity.
  - cbn. lia.
  - vm_compute. reflexivity.
Defined.

(** ** Replay and sweep on a consistent heap *)

(** X10. The history replay for a connection with an open queue returns and
    leaves a consistent heap. *)
Theorem sendRecentMessages_keeps_consistency W client room s cl r :
  well_formed s -> room_heap s !! room = Some r ->
  client_heap s !! client = Some cl -> closed (Send cl) = false ->
  exists s', sendRecentMessages W client room s = Done tt s' /\ well_formed s'.
Proof.
  intros Hwf Hr Hcl Ho.
  destruct (recentMessages_run W 50 room s r Hr ltac:(lia))
    as (msgs & s1 & Hrun & Hro & _).
  destruct (reads_only_fields _ _ Hro) as (H1 & _ & _ & H2 & H3 & _).
  assert (Hcl1 : client_heap s1 !! client = Some cl) by (rewrite H3; exact Hcl).
  destruct (deliver_ok W client msgs s1 cl Hcl1 Ho) as (s' & cl' & Hdel & Hs' & Hq).
  exists s'. unfold sendRecentMessages. rewrite (bind_run _ _ _ _ _ Hrun).
  split; [exact Hdel|].
  apply (well_formed_heap_step s1).
  - apply (well_formed_frame s); auto.
  - rewrite Hs'. reflexivity.
  - rewrite Hs'. reflexivity.
  - rewrite Hs'. intros c. exact (heap_step_insert s1 client cl cl' Hcl1 Hq c).
Qed.

Lemma sendRecentMessages_keeps_consistency_witness :
  exists s', sendRecentMessages tick_world 1 0 two_joined = Done tt s' /\ well_formed s'.
Proof.
  destruct two_joined_room as (r & Hr & _).
  destruct two_joined_carol as (cl & Hcl & _ & Ho).
  apply (sendRecentMessages_keeps_consistency tick_world 1%nat 0%nat two_joined cl r).
  - exact two_joined_well_formed.
  - exact Hr.
  - exact Hcl.
  - exact Ho.
Defined.

(** X11. A tick of the idle-room sweep returns and leaves a consistent heap:
    it allocates and frees no object and only removes registry entries. *)
Theorem cleanup_tick_keeps_consistency W s :
  well_formed s ->
  exists s',
    cleanup_tick W s = Done tt s' /\ well_formed s' /\
    client_heap s' = client_heap s /\ room_heap s' = room_heap s /\
    rooms s' ⊆ rooms s.
Proof.
  intros Hwf. destruct (cleanup_tick_ok W s Hwf) as (s' & Hrun & Hwf').
  exists s'. split; [exact Hrun|]. split; [exact Hwf'|].
  destruct (cleanup_loop_heaps W _ _ _ Hrun) as [Hc Hh].
  split; [exact Hc|]. split; [exact Hh|].
  destruct (cleanup_loop_run W (map_to_list (rooms s)) s) as (s'' & Hrun' & _ & _ & Hk).
  { intros k room Hin. apply elem_of_map_to_list in Hin.
    pose proof (proj2 (proj2 Hwf) k room Hin) as He. unfold entry_ok in He.
    destruct (room_heap s !! room); [eauto|contradiction]. }
  unfold cleanup_tick in Hrun. rewrite (bind_run _ _ _ _ _ (eq_refl : get s = Done s s)) in Hrun.
  rewrite Hrun in Hrun'. injection Hrun' as <-.
  apply map_subseteq_spec. intros k v Hv. exact (proj2 (Hk k) v Hv).
Qed.

Lemma cleanup_tick_keeps_consistency_witness :
  exists s',
    cleanup_tick tick_world two_joined = Done tt s' /\ well_formed s' /\
    client_heap s' = client_heap two_joined /\ room_heap s' = room_heap two_joined /\
    rooms s' ⊆ rooms two_joined.
Proof.
  apply (cleanup_tick_keeps_consistency tick_world two_joined).
  exact two_joined_well_formed.
Defined.

(** ** A connection that joins a second room *)

Lemma notify_closed_panics data c l : forall s cl,
  c ∈ l -> client_heap s !! c = Some cl -> closed (Send cl) = true ->
  notify l data s = Panic.
Proof.
  induction l as [|x l IH]; intros s cl Hin Hcl Hclosed.
  - apply elem_of_nil in Hin. contradiction.
  - cbn [notify]. unfold bind at 1.
    destruct (try_send x data s) as [b s1|] eqn:Hsend; [|reflexivity].
    apply try_send_Done in Hsend as (clx & Hx & Hopen & _ & ->).
    assert (Hne : c <> x) by (intros ->; congruence).
    apply elem_of_cons in Hin as [?|Hin]; [contradiction|].
    apply (IH _ cl Hin); [|exact Hclosed].
    state_simpl. rewrite lookup_insert_ne by congruence. exact Hcl.
Qed.

Lemma members_open_heap_step s s' r :
  members_open s r -> heap_step s s' -> members_open s' r.
Proof.
  intros Hopen Hstep c Hin. destruct (Hopen c Hin) as (cl & Hcl & Ho).
  specialize (Hstep c). rewrite Hcl in Hstep.
  destruct (client_heap s' !! c) as [cl'|]; [|contradiction].
  exists cl'. split; [reflexivity|]. destruct Hstep as (_ & _ & _ & HO & _). congruence.
Qed.

Section SecondRoom.
Variable W : World.

Lemma JoinRoom_body_run client room roomID userID userName s0 cl r :
  room_heap s0 !! room = Some r ->
  client_heap s0 !! client = Some cl -> closed (Send cl) = false ->
  members_open s0 r ->
  exists s',
    (get_room room;;
     update_client client (fun c => mkClient (Some room) userID userName (Send c));;
     update_room room (set_Clients (fun cl => {[client]} ∪ cl));;
     log_Printf (LogJoined userName userID roomID);;
     modify (set_spawned (fun l => l ++ [(client, room)]));;
     broadcastUserJoined W room userName;;
     ret None) s0 = Done (None : option error) s' /\
    rooms s' = rooms s0 /\
    room_heap s' = <[room := set_Clients (fun X => {[client]} ∪ X) r]> (room_heap s0) /\
    heap_step (set_client_heap
                 <[client := mkClient (Some room) userID userName (Send cl)]> s0) s'.
Proof.
  intros Hr Hcl Ho Hopen.
  rewrite (bind_run _ _ _ _ _ (get_room_run _ _ _ Hr)).
  rewrite (bind_run _ _ _ _ _ (update_client_run _ _ _ _ Hcl)).
  set (s1 := set_client_heap _ s0).
  assert (Hr1 : room_heap s1 !! room = Some r) by exact Hr.
  rewrite (bind_run _ _ _ _ _ (update_room_run _ _ _ _ Hr1)).
  set (s2 := set_room_heap _ s1).
  rewrite (bind_run _ _ _ _ _ (log_Printf_run _ _)).
  rewrite (bind_run _ _ _ _ _ (modify_run _ _)).
  set (s3 := set_spawned _ _).
  assert (Hr3 : room_heap s3 !! room = Some (set_Clients (fun X => {[client]} ∪ X) r))
    by (subst s3 s2; state_simpl; apply lookup_insert_eq).
  unfold broadcastUserJoined.
  rewrite bind_assoc, (bind_run _ _ _ _ _ (get_room_run _ _ _ Hr3)).
  rewrite bind_assoc, (bind_run _ _ _ _ _ (time_Now_run W _)).
  set (s4 := set_now_reads _ s3).
  set (data := marshal_or_nil W _).
  destruct (notify_ok data (elements (Clients (set_Clients (fun X => {[client]} ∪ X) r))) s4)
    as (s' & Hrun & Honly & Hstep).
  { intros c Hin. apply elem_of_elements in Hin. cbn [Clients set_Clients] in Hin.
    subst s4 s3 s2 s1. state_simpl.
    destruct (decide (c = client)) as [->|Hne].
    - rewrite lookup_insert_eq. eexists. split; [reflexivity|exact Ho].
    - rewrite lookup_insert_ne by congruence. apply Hopen.
      apply elem_of_union in Hin as [Hin|Hin]; [|exact Hin].
      apply elem_of_singleton in Hin. contradiction. }
  rewrite (bind_run _ _ _ _ _ Hrun). exists s'. split; [reflexivity|].
  rewrite (clients_only_rooms _ _ Honly), (clients_only_room_heap _ _ Honly).
  split; [reflexivity|]. split; [reflexivity|]. intros c. exact (Hstep c).
Qed.

Lemma LeaveRoom_member_run client s cl room r :
  client_heap s !! client = Some cl -> client_Room cl = Some room ->
  room_heap s !! room = Some r -> client ∈ Clients r ->
  closed (Send cl) = false -> members_open s r ->
  exists s',
    LeaveRoom W client s = Done tt s' /\
    room_heap s' = <[room := set_Clients (fun X => X ∖ {[client]}) r]> (room_heap s) /\
    rooms s' = (if bool_decide (size (Clients r ∖ {[client]}) = 0%nat)
                then delete (ID r) (rooms s) else rooms s) /\
    heap_step (set_client_heap
                 <[client := set_Send (mkChan (queue (Send cl)) true) cl]> s) s'.
Proof.
  intros Hcl Hroom Hr Hmem Ho Hopen. unfold LeaveRoom.
  rewrite (bind_run _ _ _ _ _ (get_client_run _ _ _ Hcl)). rewrite Hroom.
  rewrite (bind_run _ _ _ _ _ (get_room_run _ _ _ Hr)).
  rewrite bool_decide_eq_true_2 by exact Hmem.
  rewrite (bind_run _ _ _ _ _ (update_room_run _ _ _ _ Hr)).
  set (s1 := set_room_heap _ s).
  assert (Hcl1 : client_heap s1 !! client = Some cl) by exact Hcl.
  unfold close_Send.
  rewrite bind_assoc, (bind_run _ _ _ _ _ (get_client_run _ _ _ Hcl1)).
  unfold chan_close. rewrite Ho.
  rewrite (bind_run _ _ _ _ _ (update_client_run _ _ _ _ Hcl1)).
  set (s2 := set_client_heap _ s1).
  rewrite (bind_run _ _ _ _ _ (log_Printf_run _ _)).
  set (s3 := set_log _ s2).
  assert (Hr3 : room_heap s3 !! room = Some (set_Clients (fun X => X ∖ {[client]}) r))
    by (subst s3 s2 s1; state_simpl; apply lookup_insert_eq).
  unfold broadcastUserLeft.
  rewrite bind_assoc, (bind_run _ _ _ _ _ (get_room_run _ _ _ Hr3)).
  rewrite bind_assoc, (bind_run _ _ _ _ _ (time_Now_run W _)).
  set (s4 := set_now_reads _ s3).
  set (data := marshal_or_nil W _).
  destruct (notify_ok data (elements (Clients (set_Clients (fun X => X ∖ {[client]}) r))) s4)
    as (s5 & Hrun & Honly & Hstep).
  { intros c Hin. apply elem_of_elements in Hin. cbn [Clients set_Clients] in Hin.
    apply elem_of_difference in Hin as [Hin Hnot].
    subst s4 s3 s2 s1. state_simpl.
    rewrite lookup_insert_ne by (intros ->; apply Hnot, elem_of_singleton; reflexivity).
    apply Hopen. exact Hin. }
  rewrite (bind_run _ _ _ _ _ Hrun).
  pose proof (clients_only_rooms _ _ Honly) as Hrooms.
  pose proof (clients_only_room_heap _ _ Honly) as Hheap.
  assert (Hr5 : room_heap s5 !! room = Some (set_Clients (fun X => X ∖ {[client]}) r))
    by (rewrite Hheap; exact Hr3).
  rewrite (bind_run _ _ _ _ _ (get_room_run _ _ _ Hr5)).
  cbn [Clients set_Clients ID].
  destruct (bool_decide (size (Clients r ∖ {[client]}) = 0%nat)); cbn [when].
  - eexists. split; [reflexivity|]. state_simpl. rewrite Hheap, Hrooms.
    split; [reflexivity|]. split; [reflexivity|]. intros c. exact (Hstep c).
  - exists s5. split; [reflexivity|]. rewrite Hheap, Hrooms.
    split; [reflexivity|]. split; [reflexivity|]. intros c. exact (Hstep c).
Qed.

(** A join into a room whose member list holds a closed queue panics. *)
Lemma JoinRoom_closed_member_panics d roomID userID userName s room r c cl :
  rooms s !! roomID = Some room -> room_heap s !! room = Some r ->
  c ∈ Clients r -> client_heap s !! c = Some cl -> closed (Send cl) = true ->
  JoinRoom W d roomID userID userName s = Panic.
Proof.
  intros Hreg Hr Hin Hcl Hclosed. unfold JoinRoom.
  rewrite (bind_run _ _ _ _ _ (eq_refl : get s = Done s s)). rewrite Hreg.
  rewrite (bind_run _ _ _ _ _ (eq_refl : ret room s = Done room s)).
  rewrite (bind_run _ _ _ _ _ (get_room_run _ _ _ Hr)).
  destruct (client_heap s !! d) as [dl|] eqn:Hd.
  2: { unfold bind at 1. unfold update_client, bind, get_client. rewrite Hd. reflexivity. }
  rewrite (bind_run _ _ _ _ _ (update_client_run _ _ _ _ Hd)).
  set (s1 := set_client_heap _ s).
  assert (Hr1 : room_heap s1 !! room = Some r) by exact Hr.
  rewrite (bind_run _ _ _ _ _ (update_room_run _ _ _ _ Hr1)).
  set (s2 := set_room_heap _ s1).
  rewrite (bind_run _ _ _ _ _ (log_Printf_run _ _)).
  rewrite (bind_run _ _ _ _ _ (modify_run _ _)).
  set (s3 := set_spawned _ _).
  assert (Hr3 : room_heap s3 !! room = Some (set_Clients (fun X => {[d]} ∪ X) r))
    by (subst s3 s2; state_simpl; apply lookup_insert_eq).
  unfold broadcastUserJoined.
  rewrite bind_assoc, (bind_run _ _ _ _ _ (get_room_run _ _ _ Hr3)).
  rewrite bind_assoc, (bind_run _ _ _ _ _ (time_Now_run W _)).
  set (s4 := set_now_reads _ s3).
  assert (Hc4 : exists cl4, client_heap s4 !! c = Some cl4 /\ closed (Send cl4) = true).
  { subst s4 s3 s2 s1. state_simpl. destruct (decide (c = d)) as [->|Hne].
    - rewrite lookup_insert_eq. eexists. split; [reflexivity|].
      cbn. rewrite Hd in Hcl. injection Hcl as ->. exact Hclosed.
    - rewrite lookup_insert_ne by congruence. eauto. }
  destruct Hc4 as (cl4 & Hc4 & Hclosed4).
  unfold bind at 1. erewrite notify_closed_panics; [reflexivity| |exact Hc4|exact Hclosed4].
  apply elem_of_elements. cbn [Clients set_Clients]. apply elem_of_union_r. exact Hin.
Qed.

Lemma second_room_run client idA idB userID userName s cl roomA rA :
  well_formed s ->
  client_heap s !! client = Some cl ->
  rooms s !! idA = Some roomA -> room_heap s !! roomA = Some rA ->
  client ∈ Clients rA -> idB <> idA ->
  exists s1 s2 cl2,
    JoinRoom W client idB userID userName s = Done None s1 /\
    LeaveRoom W client s1 = Done tt s2 /\
    rooms s2 !! idA = Some roomA /\ room_heap s2 !! roomA = Some rA /\
    client_heap s2 !! client = Some cl2 /\ closed (Send cl2) = true.
Proof.
  intros Hwf Hcl HregA HrA Hin Hne.
  pose proof (proj1 Hwf roomA rA HrA client Hin) as Hok. unfold member_ok in Hok.
  rewrite Hcl in Hok. destruct Hok as [Ho HroomA].
  pose proof (proj2 (proj2 Hwf) idA roomA HregA) as HeA. unfold entry_ok in HeA.
  rewrite HrA in HeA.
  (* the state in which the room of the second join is known *)
  assert (Hresolve : exists s0 roomB rB,
            JoinRoom W client idB userID userName s =
              (get_room roomB;;
               update_client client (fun c => mkClient (Some roomB) userID userName (Send c));;
               update_room roomB (set_Clients (fun cl => {[client]} ∪ cl));;
               log_Printf (LogJoined userName userID idB);;
               modify (set_spawned (fun l => l ++ [(client, roomB)]));;
               broadcastUserJoined W roomB userName;;
               ret None) s0 /\
            roomB <> roomA /\ room_heap s0 !! roomB = Some rB /\ ID rB = idB /\
            members_open s0 rB /\ client_heap s0 = client_heap s /\
            room_heap s0 !! roomA = Some rA /\ rooms s0 !! idA = Some roomA /\
            rooms s0 !! idB = Some roomB).
  { unfold JoinRoom. rewrite (bind_run _ _ _ _ _ (eq_refl : get s = Done s s)).
    destruct (rooms s !! idB) as [roomB|] eqn:HregB.
    - pose proof (proj2 (proj2 Hwf) idB roomB HregB) as HeB. unfold entry_ok in HeB.
      destruct (room_heap s !! roomB) as [rB|] eqn:HrB; [|contradiction].
      exists s, roomB, rB. split; [reflexivity|].
      split; [intros ->; rewrite HrA in HrB; injection HrB as <-; congruence|].
      split; [exact HrB|]. split; [exact HeB|].
      split; [exact (well_formed_members_open s roomB rB Hwf HrB)|]. auto.
    - destruct (CreateRoom_ok W idB "Chat Room" s Hwf)
        as (roomB & s0 & Hcreate & Hwf0 & Hfresh & Hclients0 & Hrooms0 & Hheap0).
      rewrite (bind_run _ _ _ _ _ Hcreate).
      exists s0, roomB, (mkChatRoom idB "Chat Room" ∅ [] (clock W (now_reads s))).
      split; [reflexivity|].
      assert (HneB : roomB <> roomA) by (intros ->; congruence).
      split; [exact HneB|].
      split; [rewrite Hheap0; apply lookup_insert_eq|]. split; [reflexivity|].
      split; [intros c Hc; apply elem_of_empty in Hc; contradiction|].
      split; [exact Hclients0|].
      split; [rewrite Hheap0, lookup_insert_ne by congruence; exact HrA|].
      rewrite Hrooms0. split; [rewrite lookup_insert_ne by congruence; exact HregA|].
      apply lookup_insert_eq. }
  destruct Hresolve as (s0 & roomB & rB & Hjoin & HneB & HrB & HIDB & HopenB & Hclients0
                        & HrA0 & HregA0 & HregB0).
  assert (Hcl0 : client_heap s0 !! client = Some cl) by (rewrite Hclients0; exact Hcl).
  destruct (JoinRoom_body_run client roomB idB userID userName s0 cl rB HrB Hcl0 Ho HopenB)
    as (s1 & Hrun1 & Hrooms1 & Hheap1 & Hstep1).
  rewrite Hrun1 in Hjoin.
  (* the connection in the second room *)
  pose proof (Hstep1 client) as Hq1. state_simpl. rewrite lookup_insert_eq in Hq1.
  destruct (client_heap s1 !! client) as [cl1|] eqn:Hcl1; [|contradiction].
  destruct Hq1 as (Q1 & _ & _ & Q4 & _). cbn in Q1, Q4.
  assert (HrB1 : room_heap s1 !! roomB = Some (set_Clients (fun X => {[client]} ∪ X) rB))
    by (rewrite Hheap1; apply lookup_insert_eq).
  assert (Hopen1 : members_open s1 (set_Clients (fun X => {[client]} ∪ X) rB)).
  { intros c Hc. cbn [Clients set_Clients] in Hc.
    destruct (decide (c = client)) as [->|Hc'].
    - exists cl1. split; [exact Hcl1|congruence].
    - apply elem_of_union in Hc as [Hc|Hc]; [apply elem_of_singleton in Hc; contradiction|].
      destruct (HopenB c Hc) as (c0 & Hc0 & Ho0).
      specialize (Hstep1 c). state_simpl. rewrite lookup_insert_ne, Hc0 in Hstep1 by congruence.
      destruct (client_heap s1 !! c) as [c1|]; [|contradiction].
      exists c1. split; [reflexivity|]. destruct Hstep1 as (_ & _ & _ & HO & _). congruence. }
  destruct (LeaveRoom_member_run client s1 cl1 roomB _ Hcl1 Q1 HrB1)
    as (s2 & Hrun2 & Hheap2 & Hrooms2 & Hstep2).
  { cbn [Clients set_Clients]. apply elem_of_union_l, elem_of_singleton. reflexivity. }
  { congruence. }
  { exact Hopen1. }
  pose proof (Hstep2 client) as Hq2. state_simpl. rewrite lookup_insert_eq in Hq2.
  destruct (client_heap s2 !! client) as [cl2|] eqn:Hcl2; [|contradiction].
  destruct Hq2 as (_ & _ & _ & Q4' & _). cbn in Q4'.
  exists s1, s2, cl2. split; [exact Hjoin|]. split; [exact Hrun2|].
  split.
  { rewrite Hrooms2. cbn [ID set_Clients]. rewrite HIDB.
    destruct (bool_decide _).
    - rewrite lookup_delete_ne by congruence. rewrite Hrooms1. exact HregA0.
    - rewrite Hrooms1. exact HregA0. }
  split.
  { rewrite Hheap2, lookup_insert_ne by congruence.
    rewrite Hheap1, lookup_insert_ne by congruence. exact HrA0. }
  split; [exact Hcl2|exact Q4'].
Qed.

End SecondRoom.

(** X12. [JoinRoom] does not take a connection out of the room it is in.  A
    member of the room registered under [idA] that joins [idB] and then
    leaves is removed from the second room only: it is still listed in
    the first with its queue closed, and the next join of that room, by
    any connection, panics on the send to the closed queue. *)
Theorem join_second_room_then_leave W client idA idB userID userName s cl roomA rA :
  well_formed s ->
  client_heap s !! client = Some cl ->
  rooms s !! idA = Some roomA -> room_heap s !! roomA = Some rA ->
  client ∈ Clients rA -> idB <> idA ->
  exists s1 s2 cl2,
    JoinRoom W client idB userID userName s = Done None s1 /\
    LeaveRoom W client s1 = Done tt s2 /\
    rooms s2 !! idA = Some roomA /\ room_heap s2 !! roomA = Some rA /\
    client_heap s2 !! client = Some cl2 /\ closed (Send cl2) = true /\
    forall d userID' userName', JoinRoom W d idA userID' userName' s2 = Panic.
Proof.
  intros Hwf Hcl HregA HrA Hin Hne.
  destruct (second_room_run W client idA idB userID userName s cl roomA rA
              Hwf Hcl HregA HrA Hin Hne)
    as (s1 & s2 & cl2 & Hjoin & Hleave & HregA2 & HrA2 & Hcl2 & Hclosed).
  exists s1, s2, cl2. repeat (split; [assumption|]).
  intros d userID' userName'.
  exact (JoinRoom_closed_member_panics W d idA userID' userName' s2 roomA rA client cl2
           HregA2 HrA2 Hin Hcl2 Hclosed).
Qed.

Lemma join_second_room_then_leave_witness :
  exists rA s1 s2 cl2,
    room_heap bob_joined !! 0%nat = Some rA /\
    JoinRoom tick_world 0 "r2" "user-b2" "bob" bob_joined = Done None s1 /\
    LeaveRoom tick_world 0 s1 = Done tt s2 /\
    rooms s2 !! "r1"%string = Some 0%nat /\ room_heap s2 !! 0%nat = Some rA /\
    client_heap s2 !! 0%nat = Some cl2 /\ closed (Send cl2) = true /\
    forall d userID' userName', JoinRoom tick_world d "r1" userID' userName' s2 = Panic.
Proof.
  destruct bob_joined_room as (rA & HrA & Hc).
  assert (Hb : exists cl, client_heap bob_joined !! 0%nat = Some cl)
    by (eexists; vm_compute; reflexivity).
  destruct Hb as (cl & Hcl).
  destruct (join_second_room_then_leave tick_world 0%nat "r1" "r2" "user-b2" "bob"
              bob_joined cl 0%nat rA)
    as (s1 & s2 & cl2 & H).
  - exact bob_joined_well_formed.
  - exact Hcl.
  - vm_compute. reflexivity.
  - exact HrA.
  - rewrite Hc. apply elem_of_singleton. reflexivity.
  - discriminate.
  - exists rA, s1, s2, cl2. split; [exact HrA|exact H].
Defined.

(** ** What the history replay sends *)

Section ReplayOrder.
Variable W : World.

Lemma deliver_sent client msgs : forall s s' cl,
  deliver W client msgs s = Done tt s' ->
  client_heap s !! client = Some cl ->
  exists sent frames cl',
    client_heap s' !! client = Some cl' /\
    sent `sublist_of` msgs /\
    Forall2 (fun m f => json_Marshal W m = Some f) sent frames /\
    queue (Send cl') = queue (Send cl) ++ frames /\
    (now_reads s <= now_reads s')%nat /\
    Forall (fun m => exists i, (now_reads s <= i < now_reads s')%nat /\
                               clock W i <= ExpiresAt m) sent.
Proof.
  induction msgs as [|m msgs IH]; intros s s' cl Hrun Hcl.
  - injection Hrun as <-. exists [], [], cl. rewrite app_nil_r. repeat split; auto.
  - cbn [deliver] in Hrun. rewrite (bind_run _ _ _ _ _ (time_Now_run W s)) in Hrun.
    set (s1 := set_now_reads _ s) in Hrun.
    assert (Hskip : deliver W client msgs s1 = Done tt s' ->
              exists sent frames cl',
                client_heap s' !! client = Some cl' /\
                sent `sublist_of` (m :: msgs) /\
                Forall2 (fun m f => json_Marshal W m = Some f) sent frames /\
                queue (Send cl') = queue (Send cl) ++ frames /\
                (now_reads s <= now_reads s')%nat /\
                Forall (fun m => exists i, (now_reads s <= i < now_reads s')%nat /\
                                           clock W i <= ExpiresAt m) sent).
    { intros Hrest. destruct (IH s1 s' cl Hrest Hcl)
        as (sent & frames & cl' & Hcl' & Hsub & Hf2 & Hq & Hle & Hall).
      subst s1. state_simpl.
      exists sent, frames, cl'. split; [exact Hcl'|]. split; [apply sublist_cons; exact Hsub|].
      split; [exact Hf2|]. split; [exact Hq|]. split; [lia|].
      eapply Forall_impl; [exact Hall|]. intros x (i & Hi & Hx). exists i. split; [lia|exact Hx]. }
    destruct (Time_After (clock W (now_reads s)) (ExpiresAt m)) eqn:Hexp; [auto|].
    destruct (json_Marshal W m) as [data|] eqn:Hdata; [|auto].
    apply bind_Done in Hrun as (b & s2 & Hsend & Hrun).
    apply try_send_Done in Hsend as (cl1 & Hcl1 & Hopen & -> & ->).
    assert (cl1 = cl) as -> by (subst s1; state_simpl; congruence).
    unfold Time_After in Hexp. apply Z.ltb_ge in Hexp.
    destruct (Nat.ltb_spec (length (queue (Send cl))) Send_capacity) as [Hroom|Hfull].
    + destruct (IH _ s' (set_Send (offer data (Send cl)) cl) Hrun)
        as (sent & frames & cl' & Hcl' & Hsub & Hf2 & Hq & Hle & Hall).
      { state_simpl. apply lookup_insert_eq. }
      subst s1. state_simpl.
      exists (m :: sent), (data :: frames), cl'. split; [exact Hcl'|].
      split; [apply sublist_skip; exact Hsub|].
      split; [constructor; assumption|].
      split.
      { rewrite Hq. cbn [Send set_Send]. unfold offer.
        apply Nat.ltb_lt in Hroom. rewrite Hroom. cbn [queue].
        rewrite <- app_assoc. reflexivity. }
      split; [lia|].
      constructor.
      * exists (now_reads s). split; [lia|exact Hexp].
      * eapply Forall_impl; [exact Hall|]. intros x (i & Hi & Hx).
        exists i. split; [lia|exact Hx].
    + injection Hrun as <-. subst s1. state_simpl.
      exists [], [], (set_Send (offer data (Send cl)) cl).
      split; [apply lookup_insert_eq|]. split; [apply sublist_nil_l|].
      split; [constructor|]. split.
      { cbn [Send set_Send]. unfold offer.
        apply Nat.ltb_ge in Hfull. rewrite Hfull. rewrite app_nil_r. reflexivity. }
      split; [lia|constructor].
Qed.

End ReplayOrder.

(** X13. The history replay keeps the order of the messages it was given and
    sends none that has expired: what it adds to the queue of the new
    member are the encodings, in order, of a sublist of the messages
    selected, each of which was checked against a reading of the clock
    taken during the replay and had not expired by it. *)
Theorem replay_in_order_unexpired W client room s s' cl :
  sendRecentMessages W client room s = Done tt s' ->
  client_heap s !! client = Some cl ->
  exists msgs s1 sent frames cl',
    recentMessages W 50 room s = Done msgs s1 /\
    sent `sublist_of` msgs /\
    Forall2 (fun m f => json_Marshal W m = Some f) sent frames /\
    client_heap s' !! client = Some cl' /\
    queue (Send cl') = queue (Send cl) ++ frames /\
    Forall (fun m => exists i, (now_reads s <= i < now_reads s')%nat /\
                               clock W i <= ExpiresAt m) sent.
Proof.
  intros Hrun Hcl. unfold sendRecentMessages in Hrun.
  apply bind_Done in Hrun as (msgs & s1 & Hrecent & Hdeliver).
  assert (Hr : exists r, room_heap s !! room = Some r).
  { unfold recentMessages in Hrecent. apply bind_Done in Hrecent as (r & s0 & Hget & _).
    apply get_room_Done in Hget as [Hr _]. eauto. }
  destruct Hr as (r & Hr).
  destruct (recentMessages_run W 50 room s r Hr ltac:(lia)) as (msgs' & s1' & Hrun' & Hro & _).
  rewrite Hrecent in Hrun'. injection Hrun' as <- <-.
  destruct (reads_only_fields _ _ Hro) as (_ & _ & _ & _ & Hclients & _ & Hreads).
  assert (Hcl1 : client_heap s1 !! client = Some cl) by (rewrite Hclients; exact Hcl).
  destruct (deliver_sent W client msgs s1 s' cl Hdeliver Hcl1)
    as (sent & frames & cl' & Hcl' & Hsub & Hf2 & Hq & _ & Hall).
  exists msgs, s1, sent, frames, cl'. rewrite Hreads in Hall. auto 10.
Qed.

Lemma replay_in_order_unexpired_witness :
  exists cl msgs s1 sent frames cl',
    client_heap chatted !! 2%nat = Some cl /\
    recentMessages tick_world 50 0 chatted = Done msgs s1 /\
    sent `sublist_of` msgs /\
    Forall2 (fun m f => json_Marshal tick_world m = Some f) sent frames /\
    client_heap (exec (sendRecentMessages tick_world 2 0) chatted) !! 2%nat = Some cl' /\
    queue (Send cl') = queue (Send cl) ++ frames /\
    Forall (fun m => exists i,
              (now_reads chatted <= i
               < now_reads (exec (sendRecentMessages tick_world 2 0) chatted))%nat /\
              clock tick_world i <= ExpiresAt m) sent.
Proof.
  assert (Hcl : exists cl, client_heap chatted !! 2%nat = Some cl)
    by (eexists; vm_compute; reflexivity).
  destruct Hcl as (cl & Hcl). exists cl.
  destruct (replay_in_order_unexpired tick_world 2%nat 0%nat chatted
              (exec (sendRecentMessages tick_world 2 0) chatted) cl)
    as (msgs & s1 & sent & frames & cl' & H).
  - vm_compute. reflexivity.
  - exact Hcl.
  - exists msgs, s1, sent, frames, cl'. split; [exact Hcl|exact H].
Defined.

(** ** The identifiers generated *)

Lemma digits_length w : forall n acc,
  String.length (digits w n acc) = (w + String.length acc)%nat.
Proof.
  induction w as [|w IH]; intros n acc; cbn [digits]; [reflexivity|].
  rewrite IH. cbn. lia.
Qed.

Lemma string_length_app (a b : string) :
  String.length (String.append a b) = (String.length a + String.length b)%nat.
Proof.
  induction a as [|c a IH]; [reflexivity|].
  change (S (String.length (String.append a b)) = S (String.length a + String.length b)).
  rewrite IH. reflexivity.
Qed.

Lemma Format_length t : String.length (Format_20060102150405 t) = 14%nat.
Proof.
  unfold Format_20060102150405.
  cbv zeta.
  destruct (civil_from_days (Time_Unix t / 86400)) as [[y m] d].
  rewrite !string_length_app. unfold pad. rewrite !digits_length. reflexivity.
Qed.

Lemma get_In n : forall (s : string) c,
  String.get n s = Some c -> In c (list_ascii_of_string s).
Proof.
  induction n as [|n IH]; intros [|x s] c H; cbn in H; try discriminate.
  - injection H as <-. left. reflexivity.
  - right. apply IH. exact H.
Qed.

Lemma charset_byte_In t :
  0 <= t <= maxInt64 -> In (charset_byte t) (list_ascii_of_string charset).
Proof.
  intros Ht. unfold charset_byte, Time_UnixNano.
  pose proof maxInt64_val. pose proof minInt64_val.
  rewrite wrap64_small by lia.
  assert (Hr : 0 <= Z.rem t (Z.of_nat (String.length charset)) < 62).
  { change (Z.of_nat (String.length charset)) with 62.
    rewrite Z.rem_mod_nonneg by lia. apply Z.mod_pos_bound. lia. }
  destruct (charset_at_run _ Hr) as (c & Hc). rewrite Hc. cbn [default].
  apply (get_In _ _ _ Hc).
Qed.

Lemma suffix_from_shape W len : forall n,
  clock_sane W ->
  String.length (suffix_from W n len) = len /\
  forall c, In c (list_ascii_of_string (suffix_from W n len)) ->
            In c (list_ascii_of_string charset).
Proof.
  induction len as [|len IH]; intros n Hsane; cbn [suffix_from].
  - split; [reflexivity|]. intros c [].
  - destruct (IH (S n) Hsane) as [Hl Hc]. split; [cbn; rewrite Hl; reflexivity|].
    intros c [<-|Hin]; [apply charset_byte_In, Hsane|apply Hc; exact Hin].
Qed.

(** X14. While the clock shows a date after 1970, the generators return (they
    cannot index the alphabet out of range): a user id is "user-"
    followed by 8 characters of the 62-letter alphabet and costs 8
    readings of the clock; a message id is the 14 characters of the
    formatted reading, a dash and 6 characters of the alphabet, and costs
    7 readings. *)
Theorem generated_ids_shape W s :
  clock_sane W ->
  exists suffix8 suffix6,
    generateUserID W s =
      Done ("user-" ++ suffix8)%string (set_now_reads (now_reads s + 8) s) /\
    String.length suffix8 = 8%nat /\
    (forall c, In c (list_ascii_of_string suffix8) -> In c (list_ascii_of_string charset)) /\
    generateMessageID W s =
      Done (Format_20060102150405 (clock W (now_reads s)) ++ "-" ++ suffix6)%string
           (set_now_reads (now_reads s + 7) s) /\
    String.length (Format_20060102150405 (clock W (now_reads s))) = 14%nat /\
    String.length suffix6 = 6%nat /\
    (forall c, In c (list_ascii_of_string suffix6) -> In c (list_ascii_of_string charset)).
Proof.
  intros Hsane.
  exists (suffix_from W (now_reads s) 8), (suffix_from W (S (now_reads s)) 6).
  destruct (suffix_from_shape W 8 (now_reads s) Hsane) as [H8 H8'].
  destruct (suffix_from_shape W 6 (S (now_reads s)) Hsane) as [H6 H6'].
  split.
  { unfold generateUserID. rewrite (bind_run _ _ _ _ _ (generateRandomString_run W 8 s Hsane)).
    reflexivity. }
  split; [exact H8|]. split; [exact H8'|].
  split; [exact (generateMessageID_run W s Hsane)|].
  split; [apply Format_length|]. split; [exact H6|exact H6'].
Qed.

Lemma generated_ids_shape_witness :
  exists suffix8 suffix6,
    generateUserID tick_world init =
      Done ("user-" ++ suffix8)%string (set_now_reads (now_reads init + 8) init) /\
    String.length suffix8 = 8%nat /\
    (forall c, In c (list_ascii_of_string suffix8) -> In c (list_ascii_of_string charset)) /\
    generateMessageID tick_world init =
      Done (Format_20060102150405 (clock tick_world (now_reads init)) ++ "-" ++ suffix6)%string
           (set_now_reads (now_reads init + 7) init) /\
    String.length (Format_20060102150405 (clock tick_world (now_reads init))) = 14%nat /\
    String.length suffix6 = 6%nat /\
    (forall c, In c (list_ascii_of_string suffix6) -> In c (list_ascii_of_string charset)).
Proof.
  apply (generated_ids_shape tick_world init). exact tick_clock_sane.
Defined.

(** ** The sweep of the rate limiters *)

Section LimiterSweep.
Variable W : World.

Lemma limiter_sweep_loop_run l : forall s,
  exists s',
    limiter_sweep_loop W l s = Done tt s' /\
    s' = set_now_reads (now_reads s + length l) (set_rateLimiter (fun _ => rateLimiter s') s) /\
    forall u,
      (rateLimiter s' !! u = None <->
       rateLimiter s !! u = None \/
       exists i rl, l !! i = Some (u, rl) /\
         lastRefill rl + 24 * Hour < clock W (now_reads s + i)) /\
      (forall v, rateLimiter s' !! u = Some v -> rateLimiter s !! u = Some v).
Proof.
  induction l as [|[u0 rl0] l IH]; intros s.
  - exists s. split; [reflexivity|]. split.
    { destruct s. unfold set_now_reads, set_rateLimiter. cbn. f_equal. lia. }
    intros u. split; [|auto]. split; [auto|].
    intros [H|(i & rl & Hi & _)]; [exact H|]. rewrite lookup_nil in Hi. discriminate.
  - cbn [limiter_sweep_loop].
    rewrite (bind_run _ _ _ _ _ (time_Now_run W s)).
    set (cond := 24 * Hour <? Time_Sub (clock W (now_reads s)) (lastRefill rl0)).
    set (s1 := if cond
               then set_rateLimiter (delete u0) (set_now_reads (S (now_reads s)) s)
               else set_now_reads (S (now_reads s)) s).
    assert (Hstep : forall k : unit -> M unit,
              bind (when cond (modify (set_rateLimiter (delete u0)))) k
                   (set_now_reads (S (now_reads s)) s) = k tt s1).
    { intros k. subst s1. destruct cond; reflexivity. }
    rewrite Hstep.
    assert (Hn1 : now_reads s1 = S (now_reads s)) by (subst s1; destruct cond; reflexivity).
    assert (Hl1 : rateLimiter s1 = if cond then delete u0 (rateLimiter s) else rateLimiter s)
      by (subst s1; destruct cond; reflexivity).
    destruct (IH s1) as (s' & Hrun & Hs' & Hk).
    exists s'. split; [exact Hrun|]. split.
    { rewrite Hs' at 1. rewrite Hn1. subst s1. destruct s, cond;
        unfold set_now_reads, set_rateLimiter; cbn; f_equal; lia. }
    assert (Hcond : cond = true <-> lastRefill rl0 + 24 * Hour < clock W (now_reads s))
      by (subst cond; apply isOld_iff).
    intros u. destruct (Hk u) as [Hnone Hsome]. split.
    + rewrite Hnone, Hl1. split.
      * intros [H|(i & rl & Hi & Ho)].
        -- destruct cond eqn:Ec; [|left; exact H].
           destruct (decide (u0 = u)) as [->|Hne].
           ++ right. exists 0%nat, rl0. rewrite Nat.add_0_r.
              split; [reflexivity|]. apply Hcond. reflexivity.
           ++ rewrite lookup_delete_ne in H by exact Hne. left. exact H.
        -- right. exists (S i), rl. rewrite Hn1 in Ho.
           replace (now_reads s + S i)%nat with (S (now_reads s) + i)%nat by lia. auto.
      * intros [H|(i & rl & Hi & Ho)].
        -- left. destruct cond; [|exact H].
           destruct (decide (u0 = u)) as [->|Hne];
             [apply lookup_delete_eq|rewrite lookup_delete_ne by exact Hne; exact H].
        -- destruct i as [|i].
           ++ cbn in Hi. injection Hi as -> ->.
              rewrite Nat.add_0_r in Ho. destruct Hcond as [_ Hc]. rewrite (Hc Ho).
              left. apply lookup_delete_eq.
           ++ right. exists i, rl. rewrite Hn1.
              replace (S (now_reads s) + i)%nat with (now_reads s + S i)%nat by lia. auto.
    + intros v Hv. apply Hsome in Hv. rewrite Hl1 in Hv.
      destruct cond; [|exact Hv].
      destruct (decide (u0 = u)) as [->|Hne].
      * rewrite lookup_delete_eq in Hv. discriminate.
      * rewrite lookup_delete_ne in Hv by exact Hne. exact Hv.
Qed.

Lemma limiter_sweep_stale s userID rl :
  rateLimiter s !! userID = Some rl ->
  (forall i, lastRefill rl + 24 * Hour < clock W (now_reads s + i)) ->
  exists s',
    limiter_sweep W s = Done tt s' /\
    now_reads s' = (now_reads s + size (rateLimiter s))%nat /\
    rateLimiter s' !! userID = None.
Proof.
  intros Hl Hold.
  destruct (limiter_sweep_loop_run (map_to_list (rateLimiter s)) s) as (s' & Hrun & Hs' & Hk).
  exists s'. split; [exact Hrun|]. split.
  - rewrite Hs'. state_simpl. rewrite length_map_to_list. reflexivity.
  - apply (proj1 (Hk userID)). right.
    apply elem_of_map_to_list, list_elem_of_lookup in Hl as (i & Hi).
    exists i, rl. split; [exact Hi|apply Hold].
Qed.

(** A limiter that is stale for the sweep is refilled to the full on the
    next call. *)
Lemma allow_at_stale now rl :
  capacity rl = 30 -> 0 <= tokens rl <= 30 -> lastRefill rl + 24 * Hour < now ->
  allow_at now rl = (true, mkRateLimiter 29 30 now).
Proof.
  intros Hc Ht Hold.
  pose proof (Time_Sub_bounds now (lastRefill rl)) as Hb.
  pose proof (minutes_bounds _ Hb) as Hm.
  pose proof maxInt64_val as Hmax. pose proof minInt64_val as Hmin.
  pose proof Minute_val as HM.
  assert (Hadd : 1440 <= Duration_Minutes_int (Time_Sub now (lastRefill rl))).
  { unfold Duration_Minutes_int.
    assert (Hge : 24 * Hour <= Time_Sub now (lastRefill rl)).
    { apply Time_Sub_ge; unfold Hour in *; lia. }
    unfold Hour in Hge. rewrite Z.quot_div_nonneg by lia.
    apply Z.div_le_lower_bound; lia. }
  unfold allow_at. cbv zeta.
  destruct (Z.ltb_spec 0 (Duration_Minutes_int (Time_Sub now (lastRefill rl)))); [|lia].
  rewrite wrap64_small by lia. unfold min_int. rewrite Hc.
  destruct (Z.ltb_spec 30 (tokens rl + Duration_Minutes_int (Time_Sub now (lastRefill rl))));
    cbn [tokens capacity lastRefill].
  - reflexivity.
  - assert (tokens rl + Duration_Minutes_int (Time_Sub now (lastRefill rl)) = 30) as -> by lia.
    reflexivity.
Qed.

Lemma allow_at_full now now' :
  allow_at now' (mkRateLimiter 30 30 now) =
    (true, mkRateLimiter 29 30
             (if 0 <? Duration_Minutes_int (Time_Sub now' now) then now' else now)).
Proof.
  pose proof (Time_Sub_bounds now' now) as Hb.
  pose proof (minutes_bounds _ Hb) as Hm.
  pose proof maxInt64_val as Hmax. pose proof minInt64_val as Hmin.
  unfold allow_at. cbv zeta. cbn [tokens capacity lastRefill].
  destruct (Z.ltb_spec 0 (Duration_Minutes_int (Time_Sub now' now))).
  - rewrite wrap64_small by lia. unfold min_int.
    destruct (Z.ltb_spec 30 (30 + Duration_Minutes_int (Time_Sub now' now))); [|lia].
    reflexivity.
  - reflexivity.
Qed.

End LimiterSweep.

(** X15. One sweep of the rate limiters returns; it reads the clock once for
    every limiter and touches nothing but the limiter table, from which it
    only removes entries: a limiter whose last refill is more than 24
    hours before the readings of the sweep is removed, one whose last
    refill is within 24 hours of them is kept as it is. *)
Theorem limiter_sweep_removes_stale W s :
  exists s',
    limiter_sweep W s = Done tt s' /\
    s' = set_now_reads (now_reads s + size (rateLimiter s))
           (set_rateLimiter (fun _ => rateLimiter s') s) /\
    rateLimiter s' ⊆ rateLimiter s /\
    forall userID rl, rateLimiter s !! userID = Some rl ->
      ((forall i, (i < size (rateLimiter s))%nat ->
          lastRefill rl + 24 * Hour < clock W (now_reads s + i)) ->
       rateLimiter s' !! userID = None) /\
      ((forall i, (i < size (rateLimiter s))%nat ->
          clock W (now_reads s + i) <= lastRefill rl + 24 * Hour) ->
       rateLimiter s' !! userID = Some rl).
Proof.
  destruct (limiter_sweep_loop_run W (map_to_list (rateLimiter s)) s) as (s' & Hrun & Hs' & Hk).
  assert (Hlen : length (map_to_list (rateLimiter s)) = size (rateLimiter s))
    by apply length_map_to_list.
  exists s'. split; [exact Hrun|]. split; [rewrite <- Hlen; exact Hs'|].
  split.
  { apply map_subseteq_spec. intros u v Hv. exact (proj2 (Hk u) v Hv). }
  intros u rl Hl. destruct (Hk u) as [Hnone Hsome]. split.
  - intros Hold. apply Hnone. right.
    apply elem_of_map_to_list, list_elem_of_lookup in Hl as (i & Hi).
    exists i, rl. split; [exact Hi|]. apply Hold. rewrite <- Hlen.
    eapply lookup_lt_Some. exact Hi.
  - intros Hyoung. destruct (rateLimiter s' !! u) as [v|] eqn:Hv.
    + specialize (Hsome v eq_refl). congruence.
    + destruct Hnone as [Hnone _].
      destruct (Hnone eq_refl) as [Hv'|(i & rl' & Hi & Ho)]; [congruence|].
      assert (rl' = rl) as ->.
      { apply list_elem_of_lookup_2, elem_of_map_to_list in Hi. congruence. }
      specialize (Hyoung i). rewrite <- Hlen in Hyoung.
      specialize (Hyoung (lookup_lt_Some _ _ _ Hi)). lia.
Qed.

(** X16. The sweep cannot be observed through the rate limit: for a user whose
    limiter (of the configured capacity 30) is stale, the next check is
    allowed and leaves 29 tokens, whether the sweep has removed the
    limiter or the limiter is still there. *)
Theorem limiter_sweep_unobservable W userID s rl :
  rateLimiter s !! userID = Some rl ->
  capacity rl = 30 -> 0 <= tokens rl <= 30 ->
  (forall i, lastRefill rl + 24 * Hour < clock W (now_reads s + i)) ->
  exists s' swept kept rl1 rl2,
    limiter_sweep W s = Done tt s' /\
    rateLimiter s' !! userID = None /\
    checkRateLimit W userID s' = Done true swept /\
    rateLimiter swept !! userID = Some rl1 /\ tokens rl1 = 29 /\ capacity rl1 = 30 /\
    checkRateLimit W userID (set_now_reads (now_reads s') s) = Done true kept /\
    rateLimiter kept !! userID = Some rl2 /\ tokens rl2 = 29 /\ capacity rl2 = 30.
Proof.
  intros Hl Hc Ht Hold.
  destruct (limiter_sweep_stale W s userID rl Hl Hold) as (s' & Hrun & Hn' & Hgone).
  pose proof (checkRateLimit_new W userID s' Hgone) as Hnew.
  set (sn := set_rateLimiter _ _) in Hnew.
  assert (Hln : rateLimiter sn !! userID =
            Some (mkRateLimiter 30 30 (clock W (now_reads s'))))
    by (subst sn; state_simpl; apply lookup_insert_eq).
  rewrite (allow_run W _ _ _ Hln) in Hnew. rewrite allow_at_full in Hnew.
  cbn [fst snd] in Hnew.
  set (s0 := set_now_reads (now_reads s') s).
  assert (Hl0 : rateLimiter s0 !! userID = Some rl) by exact Hl.
  assert (Hn0 : now_reads s0 = (now_reads s + size (rateLimiter s))%nat)
    by (subst s0; state_simpl; exact Hn').
  pose proof (eq_trans (checkRateLimit_known W _ _ _ Hl0) (allow_run W _ _ _ Hl0)) as Hkept.
  rewrite (allow_at_stale _ rl Hc Ht) in Hkept by (rewrite Hn0; apply Hold).
  cbn [fst snd] in Hkept.
  eexists s', _, _, _, _. split; [exact Hrun|]. split; [exact Hgone|].
  split; [exact Hnew|]. split; [state_simpl; apply lookup_insert_eq|].
  split; [reflexivity|]. split; [reflexivity|].
  split; [exact Hkept|]. split; [state_simpl; apply lookup_insert_eq|].
  split; reflexivity.
Qed.

Lemma limiter_sweep_unobservable_witness :
  exists s' swept kept rl1 rl2,
    limiter_sweep (later_world (25 * Hour))
      (set_now_reads 268 (set_rateLimiter <["u" := mkRateLimiter 0 30 t0]> init)) =
      Done tt s' /\
    rateLimiter s' !! "u" = None /\
    checkRateLimit (later_world (25 * Hour)) "u" s' = Done true swept /\
    rateLimiter swept !! "u" = Some rl1 /\ tokens rl1 = 29 /\ capacity rl1 = 30 /\
    checkRateLimit (later_world (25 * Hour)) "u"
      (set_now_reads (now_reads s')
         (set_now_reads 268 (set_rateLimiter <["u" := mkRateLimiter 0 30 t0]> init))) =
      Done true kept /\
    rateLimiter kept !! "u" = Some rl2 /\ tokens rl2 = 29 /\ capacity rl2 = 30.
Proof.
  apply (limiter_sweep_unobservable (later_world (25 * Hour)) "u"
           (set_now_reads 268 (set_rateLimiter <["u" := mkRateLimiter 0 30 t0]> init))
           (mkRateLimiter 0 30 t0)).
  - reflexivity.
  - reflexivity.
  - cbn. lia.
  - intros i. cbn [lastRefill clock later_world now_reads set_now_reads].
    replace (268 + i <? 268)%nat with false by (symmetry; apply Nat.ltb_ge; lia).
    unfold t0, Hour, Minute, Second. lia.
Defined.

(** ** Creating and looking up rooms *)

(** X17. [CreateRoom] allocates an empty room object without history, stamped
    with the reading of the clock, and registers it under [roomID]:
    [GetRoom] then returns it, and returns nil for an id that is not
    registered.  No other registry entry, no other room object (not even
    one that was registered under [roomID] before) and no client is
    touched, and a consistent heap stays consistent. *)
Theorem CreateRoom_then_GetRoom W roomID roomName s :
  well_formed s ->
  exists room s',
    CreateRoom W roomID roomName s = Done room s' /\
    well_formed s' /\
    GetRoom roomID s' = Done (Some room) s' /\
    (forall k, rooms s' !! k = None -> GetRoom k s' = Done None s') /\
    room_heap s !! room = None /\
    room_heap s' !! room =
      Some (mkChatRoom roomID roomName ∅ [] (clock W (now_reads s))) /\
    (forall room', room' <> room -> room_heap s' !! room' = room_heap s !! room') /\
    (forall k, k <> roomID -> rooms s' !! k = rooms s !! k) /\
    client_heap s' = client_heap s.
Proof.
  intros Hwf.
  destruct (CreateRoom_ok W roomID roomName s Hwf)
    as (room & s' & Hrun & Hwf' & Hfresh & Hclients & Hrooms & Hheap).
  exists room, s'. split; [exact Hrun|]. split; [exact Hwf'|].
  split; [unfold GetRoom, bind, get, ret; rewrite Hrooms, lookup_insert_eq; reflexivity|].
  split; [intros k Hk; unfold GetRoom, bind, get, ret; rewrite Hk; reflexivity|].
  split; [exact Hfresh|].
  split; [rewrite Hheap; apply lookup_insert_eq|].
  split; [intros room' Hne; rewrite Hheap; apply lookup_insert_ne; congruence|].
  split; [intros k Hne; rewrite Hrooms; apply lookup_insert_ne; congruence|].
  exact Hclients.
Qed.

Lemma CreateRoom_then_GetRoom_witness :
  exists room s',
    CreateRoom tick_world "r1" "Second" bob_joined = Done room s' /\
    well_formed s' /\
    GetRoom "r1" s' = Done (Some room) s' /\
    (forall k, rooms s' !! k = None -> GetRoom k s' = Done None s') /\
    room_heap bob_joined !! room = None /\
    room_heap s' !! room =
      Some (mkChatRoom "r1" "Second" ∅ [] (clock tick_world (now_reads bob_joined))) /\
    (forall room', room' <> room -> room_heap s' !! room' = room_heap bob_joined !! room') /\
    (forall k, k <> "r1"%string -> rooms s' !! k = rooms bob_joined !! k) /\
    client_heap s' = client_heap bob_joined.
Proof.
  apply (CreateRoom_then_GetRoom tick_world "r1" "Second" bob_joined).
  exact bob_joined_well_formed.
Defined.

(** ** The durable tier *)

Lemma redis_touches_refl ks kz rd : redis_touches ks kz rd rd.
Proof. split; auto. Qed.

Lemma redis_touches_trans ks kz a b c :
  redis_touches ks kz a b -> redis_touches ks kz b c -> redis_touches ks kz a c.
Proof.
  intros [H1 H2] [K1 K2]. split; intros k Hk.
  - rewrite K1, H1 by exact Hk. reflexivity.
  - rewrite K2, H2 by exact Hk. reflexivity.
Qed.

Lemma redis_SET_touches key v ttl now kz r :
  redis_touches key kz r (redis_SET key v ttl now r).2.
Proof. split; intros k Hk; cbn; [rewrite lookup_insert_ne by congruence|]; reflexivity. Qed.

Lemma redis_ZADD_touches ks key score member now r :
  redis_touches ks key r (redis_ZADD key score member now r).2.
Proof.
  unfold redis_ZADD. destruct (zset_at now key r) as [l d].
  split; intros k Hk; cbn; [|rewrite lookup_insert_ne by congruence]; reflexivity.
Qed.

Lemma redis_EXPIRE_touches ks key ttl now r :
  redis_touches ks key r (redis_EXPIRE key ttl now r).2.
Proof.
  unfold redis_EXPIRE. destruct (zset_at now key r) as [[|x l] d].
  - apply redis_touches_refl.
  - split; intros k Hk; cbn; [|rewrite lookup_insert_ne by congruence]; reflexivity.
Qed.

Lemma redis_ZREMRANGEBYRANK_touches ks key a b now r :
  redis_touches ks key r (redis_ZREMRANGEBYRANK key a b now r).2.
Proof.
  unfold redis_ZREMRANGEBYRANK. destruct (zset_at now key r) as [l d].
  destruct (unslice l a b); split; intros k Hk; cbn;
    rewrite ?lookup_delete_ne, ?lookup_insert_ne by congruence; reflexivity.
Qed.

Lemma unslice_bound {A} (l : list A) : (length (unslice l 0 (-1001)) <= 1000)%nat.
Proof.
  unfold unslice, zrange_idx. cbv zeta.
  change (0 <? 0) with false. change (-1001 <? 0) with true. cbv iota.
  replace (if 0 <? 0 then 0 else 0) with 0 by reflexivity.
  destruct (Z.ltb_spec (Z.of_nat (length l) + -1001) 0) as [Hs|Hs]; cbn [orb].
  - lia.
  - destruct (Z.leb_spec (Z.of_nat (length l)) 0) as [Hn|Hn]; [lia|].
    destruct (Z.leb_spec (Z.of_nat (length l)) (Z.of_nat (length l) + -1001)); [lia|].
    change (Z.to_nat 0) with 0%nat. rewrite take_0. cbn [app].
    rewrite length_drop. lia.
Qed.

Lemma redis_ZREMRANGEBYRANK_bound key now r l d :
  rzsets (redis_ZREMRANGEBYRANK key 0 (-1001) now r).2 !! key = Some (l, d) ->
  (length l <= 1000)%nat.
Proof.
  unfold redis_ZREMRANGEBYRANK. destruct (zset_at now key r) as [l0 d0].
  pose proof (unslice_bound l0) as Hb.
  destruct (unslice l0 0 (-1001)) as [|x l1] eqn:E; cbn.
  - rewrite lookup_delete_eq. discriminate.
  - rewrite lookup_insert_eq. intros H. injection H as <- <-. exact Hb.
Qed.

Section Durable.
Variable W : World.

Lemma redis_step_touches {A} (f : Time -> Redis -> Reply A * Redis) ks kz n r :
  (forall now r0, redis_touches ks kz r0 (f now r0).2) ->
  redis_touches ks kz r (redis_step W f n r).2.
Proof.
  intros Hf. unfold redis_step. destruct (redis_fail W n); [apply redis_touches_refl|apply Hf].
Qed.

Lemma storeMessageInRedis_run message s rd :
  redisClient s = Some rd ->
  exists err s' rd',
    storeMessageInRedis W message s = Done err s' /\
    redis_only s s' /\ redisClient s' = Some rd' /\
    redis_touches (messageKey (Room message) (MessageID message))
                  (roomKey (Room message)) rd rd' /\
    (is_Some (json_Marshal W message) ->
     redis_fail W (redis_calls s) = false ->
     redis_fail W (S (redis_calls s)) = false ->
     err = None /\ redis_calls s' = (redis_calls s + 4)%nat /\
     (redis_fail W (redis_calls s + 3) = false ->
      forall l d, rzsets rd' !! roomKey (Room message) = Some (l, d) ->
                  (length l <= 1000)%nat)).
Proof.
  intros Hr. unfold storeMessageInRedis.
  set (ks := messageKey (Room message) (MessageID message)).
  set (kz := roomKey (Room message)).
  destruct (json_Marshal W message) as [data|].
  2:{ eexists _, s, rd. split; [reflexivity|]. split; [apply redis_only_refl|].
      split; [exact Hr|]. split; [apply redis_touches_refl|].
      intros [x Hx]. discriminate. }
  destruct (redis_cmd_only W (redis_SET ks data (MessageExpiration messageConfig)) s rd Hr)
    as (r1 & s1 & H1 & Ho1 & Hn1 & Hc1 & Hr1).
  rewrite (bind_run _ _ _ _ _ H1).
  pose proof (redis_step_touches (redis_SET ks data (MessageExpiration messageConfig))
                ks kz (redis_calls s) rd
                (fun now r0 => redis_SET_touches ks data _ now kz r0)) as Ht1.
  destruct (is_RErr r1) eqn:E1.
  { eexists _, _, _. split; [reflexivity|]. split; [exact Ho1|]. split; [exact Hc1|].
    split; [exact Ht1|]. intros _ Hf _. exfalso.
    rewrite Hr1 in E1. unfold redis_step in E1. rewrite Hf in E1. discriminate. }
  destruct (redis_cmd_only W (redis_ZADD kz (Time_Unix (Timestamp message))
              (MessageID message)) s1 _ Hc1) as (r2 & s2 & H2 & Ho2 & Hn2 & Hc2 & Hr2).
  rewrite (bind_run _ _ _ _ _ H2).
  pose proof (fun r => redis_step_touches (redis_ZADD kz (Time_Unix (Timestamp message))
                (MessageID message)) ks kz (redis_calls s1) r
                (fun now r0 => redis_ZADD_touches ks kz _ _ now r0)) as Ht2.
  destruct (is_RErr r2) eqn:E2.
  { eexists _, _, _. split; [reflexivity|].
    split; [eapply redis_only_trans; eassumption|]. split; [exact Hc2|].
    split; [eapply redis_touches_trans; [exact Ht1|apply Ht2]|]. intros _ _ Hf. exfalso.
    rewrite Hr2 in E2. unfold redis_step in E2. rewrite Hn1, Hf in E2.
    unfold redis_ZADD in E2. destruct (zset_at _ _ _). discriminate. }
  destruct (redis_cmd_only W (redis_EXPIRE kz (MessageExpiration messageConfig)) s2 _ Hc2)
    as (r3 & s3 & H3 & Ho3 & Hn3 & Hc3 & Hr3).
  rewrite (bind_run _ _ _ _ _ H3).
  pose proof (fun r => redis_step_touches (redis_EXPIRE kz (MessageExpiration messageConfig))
                ks kz (redis_calls s2) r
                (fun now r0 => redis_EXPIRE_touches ks kz _ now r0)) as Ht3.
  destruct (redis_cmd_only W (redis_ZREMRANGEBYRANK kz 0
              (- MaxRoomMessages messageConfig - 1)) s3 _ Hc3)
    as (r4 & s4 & H4 & Ho4 & Hn4 & Hc4 & Hr4).
  rewrite (bind_run _ _ _ _ _ H4).
  pose proof (fun r => redis_step_touches (redis_ZREMRANGEBYRANK kz 0
                (- MaxRoomMessages messageConfig - 1)) ks kz (redis_calls s3) r
                (fun now r0 => redis_ZREMRANGEBYRANK_touches ks kz _ _ now r0)) as Ht4.
  eexists _, _, _. split; [reflexivity|].
  split; [repeat (eapply redis_only_trans; [eassumption|]); apply redis_only_refl|].
  split; [exact Hc4|].
  split.
  { eapply redis_touches_trans; [exact Ht1|].
    eapply redis_touches_trans; [apply Ht2|].
    eapply redis_touches_trans; [apply Ht3|]. apply Ht4. }
  intros _ _ _. split; [reflexivity|]. split; [lia|].
  intros Hf l d Hl.
  replace (redis_calls s3) with (redis_calls s + 3)%nat in Hl by lia.
  unfold redis_step in Hl. rewrite Hf in Hl.
  exact (redis_ZREMRANGEBYRANK_bound _ _ _ _ _ Hl).
Qed.

End Durable.

(** X18. [storeMessageInRedis] writes under the keys of the message it is
    given and under no other: the blob key "msg:<Room>:<MessageID>" and
    the index key "room:<Room>:messages" built from the [Room] field of
    the message.  Every other key of the server is left as it was,
    whatever commands fail; nothing but the server is touched. *)
Theorem store_touches_own_keys W message s rd :
  redisClient s = Some rd ->
  exists err s' rd',
    storeMessageInRedis W message s = Done err s' /\
    redis_only s s' /\ redisClient s' = Some rd' /\
    redis_touches (messageKey (Room message) (MessageID message))
                  (roomKey (Room message)) rd rd'.
Proof.
  intros Hr.
  destruct (storeMessageInRedis_run W message s rd Hr) as (err & s' & rd' & H1 & H2 & H3 & H4 & _).
  exists err, s', rd'. auto.
Qed.

Lemma store_touches_own_keys_witness :
  exists rd err s' rd',
    redisClient bob_joined_redis = Some rd /\
    storeMessageInRedis tick_world hello bob_joined_redis = Done err s' /\
    redis_only bob_joined_redis s' /\ redisClient s' = Some rd' /\
    redis_touches (messageKey (Room hello) (MessageID hello)) (roomKey (Room hello)) rd rd'.
Proof.
  assert (Hrd : exists rd, redisClient bob_joined_redis = Some rd)
    by (eexists; vm_compute; reflexivity).
  destruct Hrd as (rd & Hrd).
  destruct (store_touches_own_keys tick_world hello bob_joined_redis rd Hrd)
    as (err & s' & rd' & H).
  exists rd, err, s', rd'. split; [exact Hrd|exact H].
Defined.

(** X19. A store whose SET, ZADD and final trim succeed returns no error after
    four commands and leaves at most 1000 entries in the index of the
    room, whatever the index held before. *)
Theorem store_bounds_index W message s rd data :
  redisClient s = Some rd ->
  json_Marshal W message = Some data ->
  redis_fail W (redis_calls s) = false ->
  redis_fail W (S (redis_calls s)) = false ->
  redis_fail W (redis_calls s + 3) = false ->
  exists s' rd',
    storeMessageInRedis W message s = Done None s' /\
    redisClient s' = Some rd' /\
    redis_calls s' = (redis_calls s + 4)%nat /\
    forall l d, rzsets rd' !! roomKey (Room message) = Some (l, d) ->
                (length l <= 1000)%nat.
Proof.
  intros Hr Hdata Hf0 Hf1 Hf3.
  destruct (storeMessageInRedis_run W message s rd Hr)
    as (err & s' & rd' & Hrun & _ & Hrd' & _ & Hok).
  destruct (Hok ltac:(rewrite Hdata; eauto) Hf0 Hf1) as (-> & Hcalls & Hbound).
  exists s', rd'. split; [exact Hrun|]. split; [exact Hrd'|]. split; [exact Hcalls|].
  exact (Hbound Hf3).
Qed.

Lemma store_bounds_index_witness :
  exists s' rd',
    storeMessageInRedis tick_world hello bob_joined_redis = Done None s' /\
    redisClient s' = Some rd' /\
    redis_calls s' = (redis_calls bob_joined_redis + 4)%nat /\
    forall l d, rzsets rd' !! roomKey (Room hello) = Some (l, d) ->
                (length l <= 1000)%nat.
Proof.
  apply (store_bounds_index tick_world hello bob_joined_redis (mkRedis ∅ ∅)
           (default EmptyString (wire_Marshal hello))).
  - vm_compute. reflexivity.
  - reflexivity.
  - reflexivity.
  - reflexivity.
  - reflexivity.
Defined.

Section Fallback.
Variable W : World.

(** X20. The history replay falls back to the memory of the process: when no
    Redis client is set, when the read of the index fails, or when the
    server holds no index for the room, the messages selected are the
    last 50 of the in-memory history (all of it if it is shorter), and a
    failed read leaves one entry in the log. *)
Theorem replay_falls_back_to_memory room s r :
  room_heap s !! room = Some r ->
  match redisClient s with
  | None => True
  | Some rd =>
      redis_fail W (redis_calls s) = true \/
      rzsets rd !! roomKey (ID r) = None
  end ->
  exists s',
    recentMessages W 50 room s = Done (trailing 50 (Messages r)) s' /\
    reads_only s s' /\
    log s' = log s ++
      match redisClient s with
      | Some _ => if redis_fail W (redis_calls s) then [LogRedisGetFailed] else []
      | None => []
      end.
Proof.
  intros Hr Hcase. unfold recentMessages.
  rewrite (bind_run _ _ _ _ _ (get_room_run _ _ _ Hr)).
  rewrite (bind_run _ _ _ _ _ (eq_refl : get s = Done s s)).
  assert (Hfallback : forall s1, room_heap s1 = room_heap s ->
    (do r0 <- get_room room;
     ret (drop (if (50 <? length (Messages r0))%nat
                then (length (Messages r0) - 50)%nat else 0%nat) (Messages r0))) s1
    = Done (trailing 50 (Messages r)) s1).
  { intros s1 Hh. rewrite <- Hh in Hr.
    rewrite (bind_run _ _ _ _ _ (get_room_run _ _ _ Hr)). unfold ret, trailing.
    destruct (Nat.ltb_spec 50 (length (Messages r))); [reflexivity|].
    replace (length (Messages r) - 50)%nat with 0%nat by lia. reflexivity. }
  destruct (redisClient s) as [rd|] eqn:Hrd.
  - unfold getMessagesFromRedis.
    rewrite !bind_assoc, (bind_run _ _ _ _ _ (redis_cmd_run W _ s rd Hrd)).
    unfold redis_step. destruct (redis_fail W (redis_calls s)) eqn:Hfail; cbn [fst snd].
    + rewrite (bind_run _ _ _ _ _ (eq_refl : ret (inr ErrRedis) _ = Done (inr ErrRedis) _)).
      rewrite bind_assoc.
      rewrite (bind_run _ _ _ _ _ (log_Printf_run _ _)).
      rewrite (bind_run _ _ _ _ _ (eq_refl : ret [] _ = Done [] _)).
      rewrite bool_decide_eq_true_2 by reflexivity.
      eexists. split; [apply Hfallback; reflexivity|].
      split; [|state_simpl; reflexivity].
      unfold reads_only. state_simpl. rewrite Hrd. reflexivity.
    + destruct Hcase as [Hc|Hnone]; [discriminate|].
      unfold redis_ZREVRANGE, zset_at. rewrite Hnone. cbn [fst snd].
      change (slice (rev []).*2 0 (Z.of_nat 50 - 1)) with (@nil string).
      cbn [getMessagesFromRedis_loop].
      rewrite bind_assoc.
      rewrite (bind_run _ _ _ _ _ (eq_refl : ret [] _ = Done [] _)).
      rewrite (bind_run _ _ _ _ _ (eq_refl : ret (inl (rev [])) _ = Done (inl []) _)).
      rewrite (bind_run _ _ _ _ _ (eq_refl : ret [] _ = Done [] _)).
      rewrite bool_decide_eq_true_2 by reflexivity.
      eexists. split; [apply Hfallback; reflexivity|].
      split; [|state_simpl; rewrite app_nil_r; reflexivity].
      unfold reads_only. state_simpl. rewrite Hrd. reflexivity.
  - rewrite (bind_run _ _ _ _ _ (eq_refl : ret [] s = Done [] s)).
    rewrite bool_decide_eq_true_2 by reflexivity.
    exists s. split; [apply (Hfallback s eq_refl)|]. split; [apply reads_only_refl|].
    rewrite app_nil_r. reflexivity.
Qed.

End Fallback.

Lemma replay_falls_back_to_memory_witness :
  exists r s',
    room_heap bob_joined_redis !! 0%nat = Some r /\
    recentMessages down_world 50 0 bob_joined_redis = Done (trailing 50 (Messages r)) s' /\
    reads_only bob_joined_redis s' /\
    log s' = log bob_joined_redis ++
      match redisClient bob_joined_redis with
      | Some _ => if redis_fail down_world (redis_calls bob_joined_redis)
                  then [LogRedisGetFailed] else []
      | None => []
      end.
Proof.
  destruct bob_joined_redis_room as (r & Hr & _).
  destruct (replay_falls_back_to_memory down_world 0%nat bob_joined_redis r Hr) as (s' & H).
  - left. reflexivity.
  - exists r, s'. split; [exact Hr|exact H].
Defined.

(** ** A new connection *)

(** X21. The client object made for an upgraded connection is new, has an
    open empty queue and is in no room; it can join any room, and the
    heap stays consistent throughout. *)
Theorem new_connection_can_join W roomID userID userName s :
  well_formed s ->
  exists c s1 s2,
    NewClient s = Done c s1 /\
    client_heap s !! c = None /\
    client_heap s1 !! c = Some (mkClient None "" "" (mkChan [] false)) /\
    well_formed s1 /\
    JoinRoom W c roomID userID userName s1 = Done None s2 /\
    well_formed s2.
Proof.
  intros Hwf.
  set (c := fresh (dom (client_heap s))).
  assert (Hfresh : client_heap s !! c = None) by (apply not_elem_of_dom, is_fresh).
  set (s1 := set_client_heap <[c := mkClient None "" "" (mkChan [] false)]> s).
  assert (Hrun : NewClient s = Done c s1) by reflexivity.
  clearbody c.
  assert (Hc1 : client_heap s1 !! c = Some (mkClient None "" "" (mkChan [] false)))
    by (subst s1; state_simpl; apply lookup_insert_eq).
  assert (Hnot : forall room r, room_heap s !! room = Some r -> c ∉ Clients r).
  { intros room r Hr Hin. pose proof (proj1 Hwf room r Hr c Hin) as Hm.
    unfold member_ok in Hm. rewrite Hfresh in Hm. exact Hm. }
  assert (Hwf1 : well_formed s1).
  { destruct Hwf as (Hm & Hc & He).
    unfold well_formed, member_ok, client_ok, entry_ok in *. subst s1. state_simpl.
    split; [|split].
    - intros room r Hr c' Hin.
      rewrite lookup_insert_ne by (intros <-; exact (Hnot room r Hr Hin)).
      exact (Hm room r Hr c' Hin).
    - intros c' cl Hcl. destruct (decide (c' = c)) as [->|Hne].
      + rewrite lookup_insert_eq in Hcl. injection Hcl as <-. cbn.
        split; [unfold Send_capacity; lia|exact I].
      + rewrite lookup_insert_ne in Hcl by congruence. exact (Hc c' cl Hcl).
    - exact He. }
  destruct (JoinRoom_ok W c roomID userID userName s1 _ Hwf1 Hc1 eq_refl)
    as (s2 & room & r & cl' & Hjoin & Hwf2 & _).
  { intros room r Hr Hin. exfalso. exact (Hnot room r Hr Hin). }
  exists c, s1, s2. auto 10.
Qed.

Lemma new_connection_can_join_witness :
  exists c s1 s2,
    NewClient bob_joined = Done c s1 /\
    client_heap bob_joined !! c = None /\
    client_heap s1 !! c = Some (mkClient None "" "" (mkChan [] false)) /\
    well_formed s1 /\
    JoinRoom tick_world c "r1" "user-d" "dave" s1 = Done None s2 /\
    well_formed s2.
Proof.
  apply (new_connection_can_join tick_world "r1" "user-d" "dave" bob_joined).
  exact bob_joined_well_formed.
Defined.

(** ** The pumps of a connection *)

Lemma string_append_nil_r (a : string) : String.append a EmptyString = a.
Proof.
  induction a as [|c a IH]; [reflexivity|].
  change (String c (String.append a EmptyString) = String c a). rewrite IH. reflexivity.
Qed.

Lemma written_queued_close rest :
  written (write_queued rest ++ [Writer_Close]) = written (write_queued rest).
Proof.
  induction rest as [|m rest IH]; [reflexivity|].
  cbn [write_queued app written]. rewrite IH. reflexivity.
Qed.

Lemma join_lines_written rest : forall m,
  join_lines (m :: rest) = String.append m (written (write_queued rest)).
Proof.
  induction rest as [|r rest IH]; intros m.
  - cbn. symmetry. apply string_append_nil_r.
  - change (join_lines (m :: r :: rest))
      with (String.append m (String.append newline (join_lines (r :: rest)))).
    rewrite IH. reflexivity.
Qed.

Section WritePump.
Variable W : World.

Lemma writePump_receive_run client s cl m rest :
  client_heap s !! client = Some cl -> queue (Send cl) = m :: rest ->
  writePump_receive W client false false s =
    Done (Some ([SetWriteDeadline (Time_Add (clock W (now_reads s)) (10 * Second));
                 NextWriter; Write m] ++ write_queued rest ++ [Writer_Close], false))
         (set_client_heap <[client := set_Send (mkChan [] (closed (Send cl))) cl]>
            (set_now_reads (S (now_reads s)) s)).
Proof.
  intros Hcl Hq. unfold writePump_receive.
  rewrite (bind_run _ _ _ _ _ (get_client_run _ _ _ Hcl)). rewrite Hq.
  rewrite (bind_run _ _ _ _ _ (update_client_run _ _ _ _ Hcl)).
  rewrite (bind_run _ _ _ _ _ (time_Now_run W _)).
  set (s2 := set_now_reads _ _).
  assert (Hcl2 : client_heap s2 !! client = Some (set_Send (mkChan rest (closed (Send cl))) cl))
    by (subst s2; state_simpl; apply lookup_insert_eq).
  rewrite (bind_run _ _ _ _ _ (update_client_run _ _ _ _ Hcl2)).
  unfold ret. subst s2. state_simpl. f_equal.
  destruct s. unfold set_client_heap, set_now_reads. cbn. f_equal.
  apply insert_insert_eq.
Qed.

End WritePump.

(** X22. One round of [writePump] on a queue that is not empty, with a
    connection that takes the writes: all the frames queued are received
    and written into a single text message, in the order in which they
    were queued, separated by newlines, and the queue is left empty.  This
    holds for a closed queue as well: the frames queued before the close
    are written first, and the next round then sends the close message
    and returns; on an open queue the next round has nothing to
    receive. *)
Theorem writePump_writes_queue_in_order W client s cl m rest :
  client_heap s !! client = Some cl -> queue (Send cl) = m :: rest ->
  exists calls s1,
    writePump_receive W client false false s = Done (Some (calls, false)) s1 /\
    written calls = join_lines (m :: rest) /\
    s1 = set_client_heap <[client := set_Send (mkChan [] (closed (Send cl))) cl]>
           (set_now_reads (S (now_reads s)) s) /\
    writePump_receive W client false false s1 =
      if closed (Send cl)
      then Done (Some ([SetWriteDeadline (Time_Add (clock W (S (now_reads s))) (10 * Second));
                        WriteMessage_Close; Conn_Close], true))
                (set_now_reads (S (S (now_reads s))) s1)
      else Done None s1.
Proof.
  intros Hcl Hq. eexists _, _. split; [apply (writePump_receive_run W client s cl m rest Hcl Hq)|].
  split.
  { cbn [app written]. rewrite written_queued_close. symmetry. apply join_lines_written. }
  split; [reflexivity|].
  unfold writePump_receive.
  erewrite bind_run by (apply get_client_run; state_simpl; apply lookup_insert_eq).
  cbn [Send set_Send queue closed]. destruct (closed (Send cl)); reflexivity.
Qed.

Lemma writePump_writes_queue_in_order_witness :
  exists cl m rest calls s1,
    client_heap two_joined !! 0%nat = Some cl /\ queue (Send cl) = m :: rest /\
    writePump_receive tick_world 0 false false two_joined = Done (Some (calls, false)) s1 /\
    written calls = join_lines (m :: rest) /\
    s1 = set_client_heap <[0%nat := set_Send (mkChan [] (closed (Send cl))) cl]>
           (set_now_reads (S (now_reads two_joined)) two_joined) /\
    writePump_receive tick_world 0 false false s1 =
      if closed (Send cl)
      then Done (Some ([SetWriteDeadline
                          (Time_Add (clock tick_world (S (now_reads two_joined))) (10 * Second));
                        WriteMessage_Close; Conn_Close], true))
                (set_now_reads (S (S (now_reads two_joined))) s1)
      else Done None s1.
Proof.
  assert (Hcl : exists cl m rest,
            client_heap two_joined !! 0%nat = Some cl /\ queue (Send cl) = m :: rest)
    by (eexists _, _, _; split; vm_compute; reflexivity).
  destruct Hcl as (cl & m & rest & Hcl & Hq).
  destruct (writePump_writes_queue_in_order tick_world 0%nat two_joined cl m rest Hcl Hq)
    as (calls & s1 & H).
  exists cl, m, rest, calls, s1. split; [exact Hcl|]. split; [exact Hq|exact H].
Defined.

Section ReadPump.
Variable W : World.
Variable json_Unmarshal_ws : string -> option WSMessage.
Variable time_Parse : string -> Time.
Variable json_Marshal_error : error -> option string.


Lemma only_in_frame s s' client roomID :
  rooms s' = rooms s -> room_heap s' = room_heap s ->
  only_in s client roomID -> only_in s' client roomID.
Proof. intros H1 H2 H. unfold only_in in *. rewrite H1, H2. exact H. Qed.

(** X23. Handling one message read from a connection whose queue is open keeps
    the heap consistent and returns, whatever the message is (not
    decodable, of an unknown type, a send that is accepted or rejected),
    provided a join names no second room while the connection is a
    member of one, and the clock shows a date after 1970. *)
Theorem handle_frame_keeps_consistency client data s cl :
  well_formed s -> clock_sane W ->
  client_heap s !! client = Some cl -> closed (Send cl) = false ->
  (forall wsMsg, json_Unmarshal_ws data = Some wsMsg ->
     ws_Type wsMsg = "join"%string -> only_in s client (ws_Room wsMsg)) ->
  exists l s',
    handle_frame W json_Unmarshal_ws time_Parse json_Marshal_error client data s = Done l s' /\
    well_formed s'.
Proof.
  intros Hwf Hsane Hcl Ho Hjoin. unfold handle_frame.
  destruct (json_Unmarshal_ws data) as [wsMsg|]; [|exists [LogUnmarshalFrame], s; auto].
  destruct (String.eqb_spec (ws_Type wsMsg) "join") as [Hty|_].
  - unfold generateUserID.
    rewrite bind_assoc, (bind_run _ _ _ _ _ (generateRandomString_run W 8 s Hsane)).
    rewrite (bind_run _ _ _ _ _ (eq_refl : ret _ _ = Done _ _)).
    set (s1 := set_now_reads _ s).
    destruct (JoinRoom_ok W client (ws_Room wsMsg)
                ("user-" ++ suffix_from W (now_reads s) 8)%string (ws_User wsMsg) s1 cl)
      as (s' & room & r & cl' & Hrun & Hwf' & _).
    + apply (well_formed_frame s); [reflexivity..|exact Hwf].
    + exact Hcl.
    + exact Ho.
    + apply (only_in_frame s); [reflexivity..|]. apply Hjoin; [reflexivity|exact Hty].
    + rewrite (bind_run _ _ _ _ _ Hrun). exists [], s'. auto.
  - destruct (String.eqb (ws_Type wsMsg) "message"); [|exists [], s; auto].
    rewrite (bind_run _ _ _ _ _ (get_client_run _ _ _ Hcl)).
    destruct (client_Room cl) as [room|] eqn:Hroom; [|exists [], s; auto].
    pose proof (proj2 (proj1 (proj2 Hwf) client cl Hcl)) as Halloc. rewrite Hroom in Halloc.
    destruct Halloc as [r Hr]. cbv zeta.
    destruct (BroadcastMessage_ok W room
                (mkEncryptedMessage "message" (ws_Room wsMsg) (ws_User wsMsg)
                   (ws_Encrypted wsMsg) (ws_IV wsMsg) (time_Parse (ws_Timestamp wsMsg))
                   "" Time_zero 0) (UserID cl) s r Hwf Hr Hsane)
      as (res & s' & Hrun & Hwf' & Hsame).
    rewrite (bind_run _ _ _ _ _ Hrun).
    destruct res as [e|]; [|exists [], s'; auto].
    destruct (json_Marshal_error e) as [errorData|]; [|eexists _, s'; auto].
    assert (Hcl' : client_heap s' !! client = Some cl)
      by (rewrite (Hsame ltac:(eauto)); exact Hcl).
    rewrite (bind_run _ _ _ _ _ (try_send_run client errorData s' cl Hcl' Ho)).
    eexists _, _. split; [reflexivity|].
    apply (well_formed_heap_step s'); [exact Hwf'|reflexivity|reflexivity|].
    apply (heap_step_insert s' client cl); [exact Hcl'|apply queue_step_offer; exact Ho].
Qed.

(** X24. A message frame of a user whose bucket is empty is not sent: nothing
    in the service changes but one reading of the clock, and the error is
    reported to the sender alone, whose queue gets the error frame if it
    holds fewer than 256 frames.  If the queue of the sender has been
    closed (the fan-out of an earlier send found it full), the report
    panics on the send to the closed queue. *)
Theorem rejected_send_is_reported client data s cl room rl wsMsg errorData :
  json_Unmarshal_ws data = Some wsMsg -> ws_Type wsMsg = "message"%string ->
  client_heap s !! client = Some cl -> client_Room cl = Some room ->
  rateLimiter s !! UserID cl = Some rl -> tokens rl <= 0 ->
  clock W (now_reads s) - lastRefill rl < Minute ->
  json_Marshal_error ErrRateLimit = Some errorData ->
  handle_frame W json_Unmarshal_ws time_Parse json_Marshal_error client data s =
    if closed (Send cl) then Panic
    else Done [LogBroadcastFailed ErrRateLimit]
           (set_client_heap <[client := set_Send (offer errorData (Send cl)) cl]>
              (set_now_reads (S (now_reads s)) s)).
Proof.
  intros Hws Hty Hcl Hroom Hl Ht Hd Herr. unfold handle_frame.
  rewrite Hws, Hty. cbn [String.eqb Ascii.eqb Bool.eqb andb].
  change (String.eqb "message" "join") with false.
  change (String.eqb "message" "message") with true. cbv iota.
  rewrite (bind_run _ _ _ _ _ (get_client_run _ _ _ Hcl)). rewrite Hroom. cbv zeta.
  unfold BroadcastMessage.
  rewrite bind_assoc, (bind_run _ _ _ _ _ (checkRateLimit_drained W (UserID cl) s rl Hl Ht Hd)).
  cbn [negb]. rewrite (bind_run _ _ _ _ _ (eq_refl : ret (Some ErrRateLimit) _ = Done _ _)).
  rewrite Herr.
  set (s1 := set_now_reads _ s).
  assert (Hcl1 : client_heap s1 !! client = Some cl) by exact Hcl.
  destruct (closed (Send cl)) eqn:Ho.
  - unfold bind at 1. unfold try_send.
    rewrite (bind_run _ _ _ _ _ (get_client_run _ _ _ Hcl1)).
    unfold chan_try_send. rewrite Ho. reflexivity.
  - rewrite (bind_run _ _ _ _ _ (try_send_run client errorData s1 cl Hcl1 Ho)).
    reflexivity.
Qed.

End ReadPump.



Lemma two_joined_bob :
  exists cl, client_heap two_joined !! 0%nat = Some cl /\ closed (Send cl) = false.
Proof. eexists. split; [vm_compute; reflexivity|reflexivity]. Qed.

Lemma handle_frame_keeps_consistency_witness :
  exists l s',
    handle_frame tick_world
      (fun _ => Some (mkWSMessage "message" "r1" "bob" "hello" "iv" ""))
      (fun _ => 0) (fun _ => Some "error"%string) 0 "frame" two_joined = Done l s' /\
    well_formed s'.
Proof.
  destruct two_joined_bob as (cl & Hcl & Ho).
  apply (handle_frame_keeps_consistency tick_world
           (fun _ => Some (mkWSMessage "message" "r1" "bob" "hello" "iv" ""))
           (fun _ => 0) (fun _ => Some "error"%string) 0%nat "frame" two_joined cl).
  - exact two_joined_well_formed.
  - exact tick_clock_sane.
  - exact Hcl.
  - exact Ho.
  - intros wsMsg Hws Hty. injection Hws as <-. discriminate Hty.
Defined.

Lemma drained_bob :
  exists cl,
    client_heap (set_rateLimiter <["user-b" := mkRateLimiter 0 30 t0]> bob_joined) !! 0%nat
      = Some cl /\
    client_Room cl = Some 0%nat /\ UserID cl = "user-b"%string.
Proof. eexists. split; [vm_compute; reflexivity|]. split; reflexivity. Qed.

Lemma rejected_send_is_reported_witness :
  exists cl,
    client_heap (set_rateLimiter <["user-b" := mkRateLimiter 0 30 t0]> bob_joined) !! 0%nat
      = Some cl /\
    handle_frame tick_world
      (fun _ => Some (mkWSMessage "message" "r1" "bob" "hello" "iv" ""))
      (fun _ => 0) (fun _ => Some "error"%string) 0 "frame"
      (set_rateLimiter <["user-b" := mkRateLimiter 0 30 t0]> bob_joined) =
    if closed (Send cl) then Panic
    else Done [LogBroadcastFailed ErrRateLimit]
           (set_client_heap <[0%nat := set_Send (offer "error" (Send cl)) cl]>
              (set_now_reads (S (now_reads bob_joined))
                 (set_rateLimiter <["user-b" := mkRateLimiter 0 30 t0]> bob_joined))).
Proof.
  destruct drained_bob as (cl & Hcl & Hroom & Hid).
  exists cl. split; [exact Hcl|].
  apply (rejected_send_is_reported tick_world
           (fun _ => Some (mkWSMessage "message" "r1" "bob" "hello" "iv" ""))
           (fun _ => 0) (fun _ => Some "error"%string) 0%nat "frame"
           (set_rateLimiter <["user-b" := mkRateLimiter 0 30 t0]> bob_joined)
           cl 0%nat (mkRateLimiter 0 30 t0)
           (mkWSMessage "message" "r1" "bob" "hello" "iv" "") "error").
  - reflexivity.
  - reflexivity.
  - exact Hcl.
  - exact Hroom.
  - rewrite Hid. reflexivity.
  - cbn. lia.
  - vm_compute. reflexivity.
  - reflexivity.
Defined.

(** ** Independence *)

(** X26. Go iterates over the member map of a room in an order that is not
    specified.  The outcome of the notification loop and of the fan-out
    loop (result, final state, or panic) is the same for every order in
    which the members are visited. *)
Theorem member_loops_order_independent room data l l' s :
  l ≡ₚ l' -> NoDup l ->
  notify l data s = notify l' data s /\
  fanout room l data s = fanout room l' data s.
Proof.
  intros Hp Hnd. split.
  - apply notify_any_order; assumption.
  - apply fanout_any_order; assumption.
Qed.

Lemma member_loops_order_independent_witness :
  notify [0%nat; 1%nat] "frame" two_joined = notify [1%nat; 0%nat] "frame" two_joined /\
  fanout 0 [0%nat; 1%nat] "frame" two_joined = fanout 0 [1%nat; 0%nat] "frame" two_joined.
Proof.
  apply (member_loops_order_independent 0%nat "frame" [0%nat; 1%nat] [1%nat; 0%nat] two_joined).
  - apply perm_swap.
  - apply (bool_decide_unpack _). vm_compute. exact I.
Defined.

(** X27. The rate limit is kept per user: any number of checks for one user
    leaves the bucket of every other user, present or absent, as it was,
    and touches neither rooms, clients, the durable tier nor the log. *)
Theorem rate_limit_is_per_user W userID other n s :
  other <> userID ->
  exists l s',
    calls n (checkRateLimit W userID) s = Done l s' /\
    length l = n /\
    rateLimiter s' !! other = rateLimiter s !! other /\
    rooms s' = rooms s /\ room_heap s' = room_heap s /\ client_heap s' = client_heap s /\
    redisClient s' = redisClient s /\ log s' = log s.
Proof.
  intros Hne. revert s. induction n as [|n IH]; intros s.
  - exists [], s. cbn [calls]. auto 10.
  - rewrite calls_S.
    destruct (checkRateLimit_Done W userID s) as (rl & k & _ & Hrun).
    rewrite (bind_run _ _ _ _ _ Hrun).
    set (s1 := mkState _ _ _ _ _ _ _ _ _).
    destruct (IH s1) as (l & s' & Hcalls & Hlen & Hl & H1 & H2 & H3 & H4 & H5).
    rewrite (bind_run _ _ _ _ _ Hcalls). unfold ret.
    eexists _, s'. split; [reflexivity|]. split; [cbn; lia|].
    split.
    { rewrite Hl. subst s1. cbn [rateLimiter]. apply lookup_insert_ne. congruence. }
    auto 10.
Qed.

Lemma rate_limit_is_per_user_witness :
  exists l s',
    calls 40 (checkRateLimit tick_world "user-b") bob_joined = Done l s' /\
    length l = 40%nat /\
    rateLimiter s' !! "user-c" = rateLimiter bob_joined !! "user-c" /\
    rooms s' = rooms bob_joined /\ room_heap s' = room_heap bob_joined /\
    client_heap s' = client_heap bob_joined /\
    redisClient s' = redisClient bob_joined /\ log s' = log bob_joined.
Proof.
  apply (rate_limit_is_per_user tick_world "user-b" "user-c" 40 bob_joined).
  discriminate.
Defined.
